(** * Credential orchestration of the iOS builder, and Podfile rendering

    A shallow embedding of

    - [packages/expo-cli/src/commands/build/ios/IOSBuilder.ts]: the
      credential phase of an iOS build ([prepareCredentials] and the
      methods it drives), and
    - the Podfile tooling ([renderPodfileAsync] and its helpers),

    followed by the properties of both that the specification states.

    JavaScript's [async] functions are sequential here (every call is
    awaited at once), so a method is a function from the state it runs in
    to an outcome, the state it leaves and the calls it made, in order. *)

From Stdlib Require Import Ascii.
From stdpp Require Import base option list strings gmap sorting.

#[local] Set Warnings "-clear-no-such-hyp".

Local Open Scope string_scope.
Local Open Scope list_scope.

(** * JavaScript values *)

(** The three error classes the two files construct. *)
Inductive ErrorClass := JsError | XDLError | CommandError.

(** A thrown value: its class, its [code] property ([undefined] on a plain
    [Error]) and its message. *)
Record Exception := mkException {
  exn_class : ErrorClass;
  exn_code : option string;
  exn_message : string;
}.

(** [Boolean(x)] for a flag that is [true], [false] or absent. *)
Definition truthy (b : option bool) : bool := default false b.

(** A string that is absent or empty is falsy; a truthy one is kept. *)
Definition truthy_string (s : option string) : option string :=
  match s with
  | Some "" => None
  | Some s => Some s
  | None => None
  end.

(** [a || b] on flags: [a] when it is truthy, else [b]. *)
Definition js_or (a b : option bool) : option bool :=
  if truthy a then a else b.

(** A template literal prints an absent value as [undefined]. *)
Definition template_string (s : option string) : string :=
  default "undefined" s.

(** * Sequential effects: state, exceptions and the calls made *)

Inductive Outcome (A : Type) :=
| Return (a : A)
| Throw (e : Exception).
Arguments Return {A} a.
Arguments Throw {A} e.

(** Synchronous code that may throw: [x ← m; k] runs [k] on what [m]
    returns and stops at the first exception. *)
#[global] Instance Outcome_ret : MRet Outcome := @Return.
#[global] Instance Outcome_bind : MBind Outcome :=
  λ A B k m, match m with Return a => k a | Throw e => Throw e end.

(** A computation over a state [S] that emits events [E]: the state
    survives an exception, as it does in JavaScript. *)
Definition M (S E A : Type) : Type := S → Outcome A * S * list E.

Section Effects.
Context {S E : Type}.

Definition ret {A} (a : A) : M S E A := λ s, (Return a, s, []).

Definition throw {A} (e : Exception) : M S E A := λ s, (Throw e, s, []).

Definition bind {A B} (m : M S E A) (k : A → M S E B) : M S E B :=
  λ s,
    match m s with
    | (Return a, s1, t1) => let '(r, s2, t2) := k a s1 in (r, s2, t1 ++ t2)
    | (Throw e, s1, t1) => (Throw e, s1, t1)
    end.

(** Read the state. *)
Definition gets {A} (f : S → A) : M S E A := λ s, (Return (f s), s, []).

(** Record one event. *)
Definition emit (ev : E) : M S E unit := λ s, (Return tt, s, [ev]).

(** Synchronous code inside an [async] function. *)
Definition lift {A} (o : Outcome A) : M S E A := λ s, (o, s, []).

(** Run a step of the environment on the state. *)
Definition step {A} (f : S → Outcome A * S) : M S E A :=
  λ s, let '(r, s1) := f s in (r, s1, []).

(** [try { body } catch (e) { handler e }]. *)
Definition try_catch {A} (body : M S E A) (handler : Exception → M S E A)
  : M S E A :=
  λ s,
    match body s with
    | (Return a, s1, t1) => (Return a, s1, t1)
    | (Throw e, s1, t1) =>
        let '(r, s2, t2) := handler e s1 in (r, s2, t1 ++ t2)
    end.

(** [try { body } finally { fin }]: [fin] runs however [body] completes;
    the completion of [body] stands unless [fin] itself throws. *)
Definition try_finally {A} (body : M S E A) (fin : M S E unit) : M S E A :=
  λ s,
    let '(r, s1, t1) := body s in
    match fin s1 with
    | (Return _, s2, t2) => (r, s2, t1 ++ t2)
    | (Throw e, s2, t2) => (Throw e, s2, t1 ++ t2)
    end.
End Effects.

Declare Scope eff_scope.
Delimit Scope eff_scope with eff.
Notation "x <- m ;; k" := (bind m (λ x, k))
  (at level 100, m at next level, right associativity) : eff_scope.
Notation "m ;; k" := (bind m (λ _, k))
  (at level 100, right associativity) : eff_scope.

(** Projections of a run. *)
Definition outcome {S E A} (r : Outcome A * S * list E) : Outcome A := r.1.1.
Definition final {S E A} (r : Outcome A * S * list E) : S := r.1.2.
Definition events {S E A} (r : Outcome A * S * list E) : list E := r.2.

(** Every event of every run of [m] satisfies [P]. *)
Definition emits {S E A} (P : E → Prop) (m : M S E A) : Prop :=
  ∀ s, Forall P (events (m s)).

(** [m] leaves the state as it is and emits nothing. *)
Definition quiet {S E A} (m : M S E A) : Prop :=
  ∀ s, final (m s) = s ∧ events (m s) = [].

(** Whatever [m] returns satisfies [P]. *)
Definition returns {S E A} (P : A → Prop) (m : M S E A) : Prop :=
  ∀ s a, outcome (m s) = Return a → P a.

(** From a state in [P], [m] ends in a state in [Q], whether it returns or
    throws, and emits only events in [T]. *)
Definition triple {S E A} (P : S → Prop) (m : M S E A) (Q : S → Prop)
    (T : E → Prop) : Prop :=
  ∀ s, P s → Q (final (m s)) ∧ Forall T (events (m s)).

(** * IOSBuilder.ts *)

Module IOSBuilder.

Local Open Scope eff_scope.

(** ** The builder's own data *)

(** [this.options.parent]: the options of the enclosing command. *)
Record Parent := mkParent {
  parent_nonInteractive : option bool;
}.

(** [this.options]: the fields the credential phase reads. The remaining
    command-line parameters (certificate paths, key ids, ...) are kept as
    they were typed; only the views outside this file interpret them. *)
Record Options := mkOptions {
  opt_appleId : option string;
  opt_teamId : option string;
  opt_parent : option Parent;
  opt_skipCredentialsCheck : option bool;
  opt_clearCredentials : option bool;
  opt_clearDistCert : option bool;
  opt_clearPushKey : option bool;
  opt_clearPushCert : option bool;
  opt_clearProvisioningProfile : option bool;
  opt_revokeCredentials : option bool;
  opt_argv : list (string * string);
}.

Record IosConfig := mkIosConfig {
  ios_bundleIdentifier : option string;
}.

(** [this.manifest]. *)
Record Manifest := mkManifest {
  manifest_owner : option string;
  manifest_slug : string;
  manifest_ios : option IosConfig;
}.

Record User := mkUser {
  username : string;
}.

(** [this]: the builder. [builder_user] is what [getUserAsync] resolves to
    (it may be nullish, hence the [?.] at its use). *)
Record Builder := mkBuilder {
  options : Options;
  manifest : Manifest;
  projectDir : string;
  builder_user : option User;
}.

(** ** What the builder is given

    Everything the file imports and calls: the credentials [Context] with
    its store API ([ctx.ios]) and its Apple session, the views run through
    [runCredentialsManager], the [...FromParams] helpers, the Apple API and
    the prompt. None of them is defined in this file, so they are taken as
    they are: [World] is whatever they read and change (the credential
    store, the session, the remote authority, the terminal), and a call
    leaves a new [World] whether it returns or throws.

    The store's reads are lookups ([get(...) -> Artifact | absent] in the
    store's interface); every other call may fail. *)
Class Collaborators := {
  World : Type;
  AppleCtx : Type;
  IosDistCredentials : Type;
  IosPushCredentials : Type;
  IosPushCert : Type;
  IosProvisioningProfile : Type;
  IosAppCredentials : Type;
  IosCredentials : Type;
  DistCertFromParams : Type;
  PushKeyFromParams : Type;
  ProvisioningProfileFromParams : Type;

  (** [ErrorCodes.NON_INTERACTIVE] of [CommandError]. *)
  NON_INTERACTIVE : string;
  (** [terminalLink(text, url)]. *)
  terminalLink : string → string → string;

  (** [new Context()] followed by [context.init(projectDir)]. *)
  ctx_init : string → World → Outcome unit * World;
  (** [ctx.appleCtx], present exactly when [ctx.hasAppleCtx()]. *)
  ctx_appleCtx : World → option AppleCtx;
  (** [ctx.ensureAppleCtx(options)]. *)
  ctx_ensureAppleCtx : Options → World → Outcome unit * World;

  (** [ctx.ios.get...(experienceName, bundleIdentifier)]. *)
  ios_getAppCredentials : string → string → World → IosAppCredentials;
  ios_getDistCert : string → string → World → option IosDistCredentials;
  ios_getPushKey : string → string → World → option IosPushCredentials;
  ios_getPushCert : string → string → World → option IosPushCert;
  ios_getProvisioningProfile :
    string → string → World → option IosProvisioningProfile;
  ios_getAllCredentials : World → IosCredentials;
  ios_deletePushCert : string → string → World → Outcome unit * World;

  (** [prompt([{ type: 'confirm', ... }])], giving the answer. *)
  prompt_confirm : string → World → Outcome bool * World;

  (** [apple.ensureAppExists(appleCtx, { experienceName, bundleIdentifier },
      { enablePushNotifications })]. *)
  apple_ensureAppExists :
    AppleCtx → string → string → bool → World → Outcome unit * World;

  getDistCertFromParams :
    Options → World → Outcome (option DistCertFromParams) * World;
  useDistCertFromParams :
    IosAppCredentials → DistCertFromParams → World → Outcome unit * World;
  (** [runCredentialsManager(ctx, new SetupIosDist({ experienceName,
      bundleIdentifier, nonInteractive }))]. *)
  run_SetupIosDist : string → string → bool → World → Outcome unit * World;

  getPushKeyFromParams :
    Options → World → Outcome (option PushKeyFromParams) * World;
  usePushKeyFromParams :
    IosAppCredentials → PushKeyFromParams → World → Outcome unit * World;
  run_SetupIosPush : string → string → bool → World → Outcome unit * World;

  getProvisioningProfileFromParams :
    Options → World → Outcome (option ProvisioningProfileFromParams) * World;
  useProvisioningProfileFromParams :
    IosAppCredentials → option string → ProvisioningProfileFromParams →
    IosDistCredentials → World → Outcome unit * World;
  (** [runCredentialsManager(ctx, new SetupIosProvisioningProfile({
      experienceName, bundleIdentifier, distCert, nonInteractive }))]. *)
  run_SetupIosProvisioningProfile :
    string → string → IosDistCredentials → bool → World →
    Outcome unit * World;

  (** [new RemoveIosDist(shouldRevoke, nonInteractive).removeSpecific(ctx,
      distCert)], and the same for the push key and the profile. *)
  remove_IosDist :
    bool → bool → IosDistCredentials → World → Outcome unit * World;
  remove_IosPush :
    bool → bool → IosPushCredentials → World → Outcome unit * World;
  remove_ProvisioningProfile :
    bool → bool → IosAppCredentials → World → Outcome unit * World;
}.

(** ** The calls the builder makes, as recorded in a run *)

Inductive Event `{Collaborators} :=
| EvLog (message : string)
| EvLogError (message : string)
| EvLogNewLine
| EvPrompt (message : string)
| EvEnsureAppleCtx (o : Options)
| EvEnsureAppExists (appleCtx : AppleCtx)
    (experienceName bundleIdentifier : string) (enablePushNotifications : bool)
| EvUseDistCertFromParams (app : IosAppCredentials) (p : DistCertFromParams)
| EvSetupIosDist (experienceName bundleIdentifier : string)
    (nonInteractive : bool)
| EvUsePushKeyFromParams (app : IosAppCredentials) (p : PushKeyFromParams)
| EvSetupIosPush (experienceName bundleIdentifier : string)
    (nonInteractive : bool)
| EvUseProvisioningProfileFromParams (app : IosAppCredentials)
    (teamId : option string) (p : ProvisioningProfileFromParams)
    (distCert : IosDistCredentials)
| EvSetupIosProvisioningProfile (experienceName bundleIdentifier : string)
    (distCert : IosDistCredentials) (nonInteractive : bool)
| EvRemoveIosDist (shouldRevoke nonInteractive : bool)
    (distCert : IosDistCredentials)
| EvRemoveIosPush (shouldRevoke nonInteractive : bool)
    (pushKey : IosPushCredentials)
| EvRemoveProvisioningProfile (shouldRevoke nonInteractive : bool)
    (app : IosAppCredentials)
| EvDeletePushCert (experienceName bundleIdentifier : string)
| EvDisplayProjectCredentials (experienceName bundleIdentifier : string)
    (credentials : IosCredentials).

(** [pickBy(object)] of lodash: the entries whose value is truthy. *)
Definition pickBy (object : gmap string bool) : gmap string bool :=
  filter (λ entry, entry.2 = true) object.

Definition noBundleIdMessage : string :=
  "Your project must have a `bundleIdentifier` set in the Expo config (app.json or app.config.js).
See https://expo.fyi/bundle-identifier".

Definition missingBundleIdentifierError : Exception :=
  mkException XDLError (Some "INVALID_OPTIONS") noBundleIdMessage.

Section Builder.
Context `{Collaborators}.
Variable this : Builder.

Local Abbreviation Cmd := (M World Event).

(** A call of a collaborator: recorded, then run. *)
Definition call {A} (ev : Event) (f : World → Outcome A * World) : Cmd A :=
  emit ev ;; step f.

Definition log (message : string) : Cmd unit := emit (EvLog message).

(** [this.options.parent && this.options.parent.nonInteractive], as the
    condition it is used for. *)
Definition nonInteractive : bool :=
  match opt_parent (options this) with
  | Some parent => truthy (parent_nonInteractive parent)
  | None => false
  end.

Definition bestEffortAppleCtx : Cmd unit :=
  appleCtx <- gets ctx_appleCtx ;;
  if bool_decide (is_Some appleCtx) then
    ret tt
  else
    match truthy_string (opt_appleId (options this)) with
    | Some _ =>
        call (EvEnsureAppleCtx (options this))
             (ctx_ensureAppleCtx (options this))
    | None =>
        if nonInteractive then
          ret tt
        else
          let message :=
            "Do you have access to the Apple account that will be used for submitting this app to the App Store?" in
          confirm <- call (EvPrompt message) (prompt_confirm message) ;;
          if confirm : bool then
            call (EvEnsureAppleCtx (options this))
                 (ctx_ensureAppleCtx (options this))
          else
            log "No problem! 👌 
We can’t auto-generate credentials if you don’t have access to the main Apple account. 
But we can still set it up if you upload your credentials."
    end.

Definition getUsernameAsync : option string :=
  match truthy_string (manifest_owner (manifest this)) with
  | Some owner => Some owner
  | None => username <$> builder_user this
  end.

Definition _setupDistCert (experienceName bundleIdentifier : string)
    (appCredentials : IosAppCredentials) : Cmd unit :=
  try_catch
    (distCertFromParams <- step (getDistCertFromParams (options this)) ;;
     match distCertFromParams with
     | Some distCertFromParams =>
         call (EvUseDistCertFromParams appCredentials distCertFromParams)
              (useDistCertFromParams appCredentials distCertFromParams)
     | None =>
         call (EvSetupIosDist experienceName bundleIdentifier nonInteractive)
              (run_SetupIosDist experienceName bundleIdentifier
                 nonInteractive)
     end)
    (λ e,
       emit (EvLogError "Failed to set up Distribution Certificate") ;;
       throw e).

Definition _setupPushCert (experienceName bundleIdentifier : string)
    (appCredentials : IosAppCredentials) : Cmd unit :=
  try_catch
    (pushKeyFromParams <- step (getPushKeyFromParams (options this)) ;;
     match pushKeyFromParams with
     | Some pushKeyFromParams =>
         call (EvUsePushKeyFromParams appCredentials pushKeyFromParams)
              (usePushKeyFromParams appCredentials pushKeyFromParams)
     | None =>
         call (EvSetupIosPush experienceName bundleIdentifier nonInteractive)
              (run_SetupIosPush experienceName bundleIdentifier
                 nonInteractive)
     end)
    (λ e, emit (EvLogError "Failed to set up Push Key") ;; throw e).

Definition _setupProvisioningProfile (experienceName bundleIdentifier : string)
    (appCredentials : IosAppCredentials)
    (distributionCert : IosDistCredentials) : Cmd unit :=
  try_catch
    (provisioningProfileFromParams <-
       step (getProvisioningProfileFromParams (options this)) ;;
     match provisioningProfileFromParams with
     | Some provisioningProfileFromParams =>
         call (EvUseProvisioningProfileFromParams appCredentials
                 (opt_teamId (options this)) provisioningProfileFromParams
                 distributionCert)
              (useProvisioningProfileFromParams appCredentials
                 (opt_teamId (options this)) provisioningProfileFromParams
                 distributionCert)
     | None =>
         call (EvSetupIosProvisioningProfile experienceName bundleIdentifier
                 distributionCert nonInteractive)
              (run_SetupIosProvisioningProfile experienceName
                 bundleIdentifier distributionCert nonInteractive)
     end)
    (λ e, emit (EvLogError "Failed to set up Provisioning Profile") ;; throw e).

Definition produceCredentials (experienceName bundleIdentifier : string)
  : Cmd unit :=
  appCredentials <-
    gets (ios_getAppCredentials experienceName bundleIdentifier) ;;
  appleCtx <- gets ctx_appleCtx ;;
  match appleCtx with
  | Some appleCtx =>
      call (EvEnsureAppExists appleCtx experienceName bundleIdentifier true)
           (apple_ensureAppExists appleCtx experienceName bundleIdentifier
              true)
  | None => ret tt
  end ;;
  _setupDistCert experienceName bundleIdentifier appCredentials ;;
  distributionCert <- gets (ios_getDistCert experienceName bundleIdentifier) ;;
  match distributionCert with
  | None =>
      throw (mkException CommandError (Some "INSUFFICIENT_CREDENTIALS")
               "This build request requires a valid distribution certificate.")
  | Some distributionCert =>
      _setupPushCert experienceName bundleIdentifier appCredentials ;;
      _setupProvisioningProfile experienceName bundleIdentifier
        appCredentials distributionCert
  end.

Definition determineCredentialsToClear : gmap string bool :=
  let o := options this in
  let credsToClearAll : gmap string bool :=
    list_to_map [
      ("distributionCert",
        truthy (js_or (opt_clearCredentials o) (opt_clearDistCert o)));
      ("pushKey",
        truthy (js_or (opt_clearCredentials o) (opt_clearPushKey o)));
      ("pushCert",
        truthy (js_or (opt_clearCredentials o) (opt_clearPushCert o)));
      ("provisioningProfile",
        truthy (js_or (opt_clearCredentials o)
                  (opt_clearProvisioningProfile o)))
    ] in
  pickBy credsToClearAll.

Definition clearCredentials (experienceName bundleIdentifier : string)
    (credsToClear : gmap string bool) : Cmd unit :=
  let shouldRevokeOnApple := truthy (opt_revokeCredentials (options this)) in
  distributionCert <- gets (ios_getDistCert experienceName bundleIdentifier) ;;
  match truthy (credsToClear !! "distributionCert"), distributionCert with
  | true, Some distributionCert =>
      call (EvRemoveIosDist shouldRevokeOnApple nonInteractive
              distributionCert)
           (remove_IosDist shouldRevokeOnApple nonInteractive
              distributionCert)
  | _, _ => ret tt
  end ;;
  pushKey <- gets (ios_getPushKey experienceName bundleIdentifier) ;;
  match truthy (credsToClear !! "pushKey"), pushKey with
  | true, Some pushKey =>
      call (EvRemoveIosPush shouldRevokeOnApple nonInteractive pushKey)
           (remove_IosPush shouldRevokeOnApple nonInteractive pushKey)
  | _, _ => ret tt
  end ;;
  appCredentials <-
    gets (ios_getAppCredentials experienceName bundleIdentifier) ;;
  provisioningProfile <-
    gets (ios_getProvisioningProfile experienceName bundleIdentifier) ;;
  match truthy (credsToClear !! "provisioningProfile"),
        provisioningProfile with
  | true, Some _ =>
      call (EvRemoveProvisioningProfile shouldRevokeOnApple nonInteractive
              appCredentials)
           (remove_ProvisioningProfile shouldRevokeOnApple nonInteractive
              appCredentials)
  | _, _ => ret tt
  end ;;
  pushCert <- gets (ios_getPushCert experienceName bundleIdentifier) ;;
  match truthy (credsToClear !! "pushCert"), pushCert with
  | true, Some _ =>
      call (EvDeletePushCert experienceName bundleIdentifier)
           (ios_deletePushCert experienceName bundleIdentifier)
  | _, _ => ret tt
  end.

Definition clearAndRevokeCredentialsIfRequested
    (experienceName bundleIdentifier : string) : Cmd unit :=
  let o := options this in
  let shouldClearAnything :=
    js_or (js_or (js_or (js_or (opt_clearCredentials o)
                               (opt_clearDistCert o))
                        (opt_clearPushKey o))
                 (opt_clearPushCert o))
          (opt_clearProvisioningProfile o) in
  if truthy shouldClearAnything then
    let credsToClear := determineCredentialsToClear in
    clearCredentials experienceName bundleIdentifier credsToClear
  else
    ret tt.

(** The [finally] block of [prepareCredentials]. *)
Definition displayCredentials (experienceName bundleIdentifier : string)
  : Cmd unit :=
  credentials <- gets ios_getAllCredentials ;;
  emit (EvDisplayProjectCredentials experienceName bundleIdentifier
          credentials).

(** The [catch] block of [prepareCredentials]. *)
Definition prepareCredentials_catch (e : Exception) : Cmd unit :=
  if bool_decide (exn_code e = Some NON_INTERACTIVE) then
    emit EvLogNewLine ;;
    let link :=
      terminalLink "expo.fyi/credentials-non-interactive"
        "https://expo.fyi/credentials-non-interactive" in
    log "Additional information needed to setup credentials in non-interactive mode." ;;
    log ("Learn more about how to resolve this: " +:+ link +:+ ".") ;;
    emit EvLogNewLine ;;
    throw (mkException CommandError (Some NON_INTERACTIVE)
             "Unable to proceed, see the above error message.")
  else
    log "Failed to prepare all credentials. 
The next time you build, we will automatically use the following configuration:" ;;
    throw e.

Definition prepareCredentials : Cmd unit :=
  let username := getUsernameAsync in
  let experienceName :=
    "@" +:+ template_string username +:+ "/" +:+
    manifest_slug (manifest this) in
  match truthy_string (manifest_ios (manifest this) ≫= ios_bundleIdentifier) with
  | None => throw missingBundleIdentifierError
  | Some bundleIdentifier =>
      step (ctx_init (projectDir this)) ;;
      clearAndRevokeCredentialsIfRequested experienceName bundleIdentifier ;;
      if truthy (opt_skipCredentialsCheck (options this)) then
        log "Skipping credentials check..."
      else
        bestEffortAppleCtx ;;
        try_finally
          (try_catch (produceCredentials experienceName bundleIdentifier)
             prepareCredentials_catch)
          (displayCredentials experienceName bundleIdentifier)
  end.
End Builder.

End IOSBuilder.

(** * The collaborators as the specification describes them

    The views, the store and the Apple API are not part of the two files
    above. [SpecModel] is one set of collaborators written from the
    specification's description of them (sections 3, 4.1, 4.3, 6 and 7); it
    is what the builder is run with on concrete inputs. *)

Module SpecModel.

(** Modelled from the spec: a distribution certificate, push key or push
    certificate (section 3): an identifier and the remote authority's
    record id, absent for a purely local or imported artifact. *)
Record Artifact := mkArtifact {
  artifact_id : string;
  artifact_remote : option string;
}.

(** Modelled from the spec: a provisioning profile (section 3), with the
    identifier of the distribution certificate it was signed against. *)
Record Profile := mkProfile {
  profile_id : string;
  profile_remote : option string;
  profile_distCert : string;
}.

(** Modelled from the spec: the AppCredentialBundle (section 3), at most one
    artifact of each type. *)
Record AppCredentialBundle := mkBundle {
  distributionCert : option Artifact;
  pushKey : option Artifact;
  pushCert : option Artifact;
  provisioningProfile : option Profile;
}.

#[global] Instance Artifact_eq_dec : EqDecision Artifact.
Proof. solve_decision. Defined.
#[global] Instance Profile_eq_dec : EqDecision Profile.
Proof. solve_decision. Defined.

(** The operations of the Remote Authority Client (section 6). *)
Inductive RemoteOp :=
| Authenticate | Register | CreateCert | CreateKey | CreateProfile | Revoke.

#[global] Instance RemoteOp_eq_dec : EqDecision RemoteOp.
Proof. solve_decision. Defined.

(** Modelled from the spec: what the collaborators read and change. The
    store is keyed by (experienceName, bundleIdentifier); [session] is the
    authenticated remote session; [registered] and [revoked] are the remote
    authority's records of registrations and revocations; [failing] lists
    the remote operations that currently fail (network or permission);
    [operator_confirms] is the operator's answer to a confirmation. *)
Record SpecWorld := mkWorld {
  store : gmap (string * string) AppCredentialBundle;
  session : option string;
  registered : list (string * string);
  revoked : list string;
  failing : list RemoteOp;
  operator_confirms : bool;
}.

Definition empty_bundle : AppCredentialBundle := mkBundle None None None None.

Definition bundle_of (w : SpecWorld) (experienceName bundleIdentifier : string)
  : AppCredentialBundle :=
  default empty_bundle (store w !! (experienceName, bundleIdentifier)).

Definition with_store (f : gmap (string * string) AppCredentialBundle →
                           gmap (string * string) AppCredentialBundle)
    (w : SpecWorld) : SpecWorld :=
  mkWorld (f (store w)) (session w) (registered w) (revoked w) (failing w)
    (operator_confirms w).

Definition with_session (s : option string) (w : SpecWorld) : SpecWorld :=
  mkWorld (store w) s (registered w) (revoked w) (failing w)
    (operator_confirms w).

Definition with_registered (r : list (string * string)) (w : SpecWorld)
  : SpecWorld :=
  mkWorld (store w) (session w) r (revoked w) (failing w)
    (operator_confirms w).

Definition with_revoked (r : list string) (w : SpecWorld) : SpecWorld :=
  mkWorld (store w) (session w) (registered w) r (failing w)
    (operator_confirms w).

(** [put]: change the bundle stored under one key. *)
Definition put (experienceName bundleIdentifier : string)
    (f : AppCredentialBundle → AppCredentialBundle) (w : SpecWorld)
  : SpecWorld :=
  with_store
    (λ st, <[(experienceName, bundleIdentifier) :=
               f (bundle_of w experienceName bundleIdentifier)]> st) w.

Definition set_distributionCert (c : option Artifact) (b : AppCredentialBundle) :=
  mkBundle c (pushKey b) (pushCert b) (provisioningProfile b).
Definition set_pushKey (k : option Artifact) (b : AppCredentialBundle) :=
  mkBundle (distributionCert b) k (pushCert b) (provisioningProfile b).
Definition set_pushCert (c : option Artifact) (b : AppCredentialBundle) :=
  mkBundle (distributionCert b) (pushKey b) c (provisioningProfile b).
Definition set_provisioningProfile (p : option Profile)
    (b : AppCredentialBundle) :=
  mkBundle (distributionCert b) (pushKey b) (pushCert b) p.

Definition RemoteAuthorityError (what : string) : Exception :=
  mkException JsError (Some "REMOTE_AUTHORITY") what.

Definition NonInteractiveError (what : string) : Exception :=
  mkException CommandError (Some "NON_INTERACTIVE") what.

(** Modelled from the spec: [authenticate(params) -> Session | fails with
    AuthError] (section 6); an existing session is kept. *)
Definition authenticate (appleId : option string) (w : SpecWorld)
  : Outcome unit * SpecWorld :=
  match session w with
  | Some _ => (Return tt, w)
  | None =>
      if bool_decide (Authenticate ∈ failing w) then
        (Throw (mkException JsError (Some "AUTH") "Authentication failed"), w)
      else
        (Return tt, with_session (Some (default "operator" appleId)) w)
  end.

(** Modelled from the spec: [ensureAppRegistered] (section 6), idempotent
    (section 8): a second call adds no record and raises no error. *)
Definition ensureAppRegistered (experienceName bundleIdentifier : string)
    (w : SpecWorld) : Outcome unit * SpecWorld :=
  if bool_decide (Register ∈ failing w) then
    (Throw (RemoteAuthorityError "registration"), w)
  else if bool_decide ((experienceName, bundleIdentifier) ∈ registered w) then
    (Return tt, w)
  else
    (Return tt,
     with_registered ((experienceName, bundleIdentifier) :: registered w) w).

(** The command-line parameter that encodes a ready-made artifact. *)
Definition param (name : string) (o : IOSBuilder.Options) : option string :=
  (λ found, found.2.2) <$>
    list_find (λ kv, kv.1 = name) (IOSBuilder.opt_argv o).

(** Modelled from the spec: the Resolver's second route (section 4.1): the
    acquisition flow reuses the local artifact when there is one, creates a
    remote artifact and persists it when a session exists, and otherwise
    needs the operator, which is a NonInteractive failure when
    [nonInteractive] is set (section 7); without a session and with an
    operator, nothing new can be created (section 4.4). *)
Definition acquire (present : bool) (create : RemoteOp) (what : string)
    (persist : SpecWorld → SpecWorld) (nonInteractive : bool) (w : SpecWorld)
  : Outcome unit * SpecWorld :=
  if present then (Return tt, w)
  else
    match session w with
    | Some _ =>
        if bool_decide (create ∈ failing w) then
          (Throw (RemoteAuthorityError what), w)
        else (Return tt, persist w)
    | None =>
        if nonInteractive then (Throw (NonInteractiveError what), w)
        else (Return tt, w)
    end.

(** Modelled from the spec: revocation of a remote record (section 4.3): it
    needs a session, may fail, and is skipped when the artifact has no
    remote record (section 7, ValidationError). *)
Definition revoke (shouldRevoke : bool) (remote : option string)
    (w : SpecWorld) : Outcome unit * SpecWorld :=
  match shouldRevoke, remote with
  | true, Some record =>
      match authenticate None w with
      | (Return _, w1) =>
          if bool_decide (Revoke ∈ failing w1) then
            (Throw (RemoteAuthorityError "revocation"), w1)
          else (Return tt, with_revoked (record :: revoked w1) w1)
      | (Throw e, w1) => (Throw e, w1)
      end
  | _, _ => (Return tt, w)
  end.

(** Modelled from the spec: the application a bundle belongs to; removing
    a provisioning profile is given this rather than the profile. *)
Record AppRef := mkAppRef {
  app_experienceName : string;
  app_bundleIdentifier : string;
}.

(** Modelled from the spec: clearing a distribution certificate
    (section 4.3): remove it locally, wherever it is referenced, then revoke
    the remote record if revocation was requested. Nothing else is
    removed. *)
Definition removeDistCert (shouldRevoke nonInteractive : bool) (c : Artifact)
    (w : SpecWorld) : Outcome unit * SpecWorld :=
  revoke shouldRevoke (artifact_remote c)
    (with_store
       (fmap (λ b, if bool_decide (distributionCert b = Some c)
                   then set_distributionCert None b else b)) w).

(** Modelled from the spec: clearing a push key (section 4.3): remove it
    locally, then revoke the remote record if revocation was requested. *)
Definition removePushKey (shouldRevoke nonInteractive : bool) (k : Artifact)
    (w : SpecWorld) : Outcome unit * SpecWorld :=
  revoke shouldRevoke (artifact_remote k)
    (with_store
       (fmap (λ b, if bool_decide (pushKey b = Some k)
                   then set_pushKey None b else b)) w).

(** Modelled from the spec: clearing a provisioning profile (section 4.3):
    remove the application's profile locally, then revoke its remote record
    if revocation was requested. The certificate it was signed against is
    not touched (section 3). *)
Definition removeProfile (shouldRevoke nonInteractive : bool) (app : AppRef)
    (w : SpecWorld) : Outcome unit * SpecWorld :=
  let b := bundle_of w (app_experienceName app) (app_bundleIdentifier app) in
  revoke shouldRevoke (provisioningProfile b ≫= profile_remote)
    (put (app_experienceName app) (app_bundleIdentifier app)
       (set_provisioningProfile None) w).

(** Modelled from the spec: the collaborators of the builder. A new
    [Context] has no session; the store's reads are lookups in the bundle
    of the application; an artifact given on the command line is adopted
    and stored as it is, without a remote record (section 4.1, first
    route); every other acquisition goes through [acquire]; the legacy push
    certificate is deleted locally only (section 4.3). *)
#[global] Instance collaborators : IOSBuilder.Collaborators := {|
  IOSBuilder.World := SpecWorld;
  IOSBuilder.AppleCtx := string;
  IOSBuilder.IosDistCredentials := Artifact;
  IOSBuilder.IosPushCredentials := Artifact;
  IOSBuilder.IosPushCert := Artifact;
  IOSBuilder.IosProvisioningProfile := Profile;
  IOSBuilder.IosAppCredentials := AppRef;
  IOSBuilder.IosCredentials := gmap (string * string) AppCredentialBundle;
  IOSBuilder.DistCertFromParams := Artifact;
  IOSBuilder.PushKeyFromParams := Artifact;
  IOSBuilder.ProvisioningProfileFromParams := string;

  IOSBuilder.NON_INTERACTIVE := "NON_INTERACTIVE";
  IOSBuilder.terminalLink := λ text url, text +:+ " (" +:+ url +:+ ")";

  IOSBuilder.ctx_init := λ _ w, (Return tt, with_session None w);
  IOSBuilder.ctx_appleCtx := session;
  IOSBuilder.ctx_ensureAppleCtx := λ o, authenticate (IOSBuilder.opt_appleId o);

  IOSBuilder.ios_getAppCredentials := λ e b _, mkAppRef e b;
  IOSBuilder.ios_getDistCert := λ e b w, distributionCert (bundle_of w e b);
  IOSBuilder.ios_getPushKey := λ e b w, pushKey (bundle_of w e b);
  IOSBuilder.ios_getPushCert := λ e b w, pushCert (bundle_of w e b);
  IOSBuilder.ios_getProvisioningProfile :=
    λ e b w, provisioningProfile (bundle_of w e b);
  IOSBuilder.ios_getAllCredentials := store;
  IOSBuilder.ios_deletePushCert :=
    λ e b w, (Return tt, put e b (set_pushCert None) w);

  IOSBuilder.prompt_confirm := λ _ w, (Return (operator_confirms w), w);
  IOSBuilder.apple_ensureAppExists := λ _ e b _, ensureAppRegistered e b;

  IOSBuilder.getDistCertFromParams :=
    λ o w, (Return ((λ id, mkArtifact id None) <$> param "dist-p12-path" o), w);
  IOSBuilder.useDistCertFromParams :=
    λ app c w,
      (Return tt,
       put (app_experienceName app) (app_bundleIdentifier app)
         (set_distributionCert (Some c)) w);
  IOSBuilder.run_SetupIosDist :=
    λ e b nonInteractive w,
      acquire (bool_decide (is_Some (distributionCert (bundle_of w e b))))
        CreateCert "distribution certificate"
        (put e b (set_distributionCert
                    (Some (mkArtifact ("cert:" +:+ b) (Some ("remote-cert:" +:+ b))))))
        nonInteractive w;

  IOSBuilder.getPushKeyFromParams :=
    λ o w, (Return ((λ id, mkArtifact id None) <$> param "push-p8-path" o), w);
  IOSBuilder.usePushKeyFromParams :=
    λ app k w,
      (Return tt,
       put (app_experienceName app) (app_bundleIdentifier app)
         (set_pushKey (Some k)) w);
  IOSBuilder.run_SetupIosPush :=
    λ e b nonInteractive w,
      acquire (bool_decide (is_Some (pushKey (bundle_of w e b))))
        CreateKey "push key"
        (put e b (set_pushKey
                    (Some (mkArtifact ("key:" +:+ b) (Some ("remote-key:" +:+ b))))))
        nonInteractive w;

  IOSBuilder.getProvisioningProfileFromParams :=
    λ o w, (Return (param "provisioning-profile-path" o), w);
  IOSBuilder.useProvisioningProfileFromParams :=
    λ app _ p distCert w,
      (Return tt,
       put (app_experienceName app) (app_bundleIdentifier app)
         (set_provisioningProfile
            (Some (mkProfile p None (artifact_id distCert)))) w);
  IOSBuilder.run_SetupIosProvisioningProfile :=
    λ e b distCert nonInteractive w,
      acquire
        (bool_decide (is_Some (provisioningProfile (bundle_of w e b))))
        CreateProfile "provisioning profile"
        (put e b (set_provisioningProfile
                    (Some (mkProfile ("profile:" +:+ b)
                             (Some ("remote-profile:" +:+ b))
                             (artifact_id distCert)))))
        nonInteractive w;

  IOSBuilder.remove_IosDist := removeDistCert;
  IOSBuilder.remove_IosPush := removePushKey;
  IOSBuilder.remove_ProvisioningProfile := removeProfile;
|}.

End SpecModel.

(** * The Podfile tooling *)

Module IosPodsTools.

Local Open Scope eff_scope.

(** ** JavaScript data *)

(** A number as [parseSdkMajorVersion] gives it: an integer, [Infinity] or
    [NaN]. Every comparison with [NaN] is false. *)
Inductive JsNumber := Finite (n : Z) | Infinity | NaN.

Definition num_lt (a : JsNumber) (b : Z) : bool :=
  match a with Finite n => bool_decide (n < b)%Z | _ => false end.
Definition num_le (a : JsNumber) (b : Z) : bool :=
  match a with Finite n => bool_decide (n ≤ b)%Z | _ => false end.
Definition num_gt (a : JsNumber) (b : Z) : bool :=
  match a with
  | Finite n => bool_decide (b < n)%Z
  | Infinity => true
  | NaN => false
  end.
Definition num_ge (a : JsNumber) (b : Z) : bool :=
  match a with
  | Finite n => bool_decide (b ≤ n)%Z
  | Infinity => true
  | NaN => false
  end.

(** An entry of [UNIVERSAL_MODULES]. *)
Record UniversalModule := mkModule {
  podName : string;
  module_path : string;
}.

(** A function given as a value. The tooling calls a value in two places
    only: as [substitutions.hasOwnProperty(key)], and as the replacement
    of [String.prototype.replace], which calls it for every match.
    [fn_called key] is the truthiness of what the first call returns;
    [fn_replacing key subject] is [subject.replace(/\$\{key\}/g, f)]; either
    may throw. [fn_source] is [String(f)]. The function is taken to leave
    the files and the substitutions as they are. *)
Record Callable := mkCallable {
  fn_source : string;
  fn_called : string → Outcome bool;
  fn_replacing : string → string → Outcome string;
}.

(** The values the substitutions and the pod attributes hold. *)
Inductive Value :=
| VUndefined
| VBool (b : bool)
| VString (s : string)
| VStrings (l : list string)
| VModules (l : list UniversalModule)
| VFunction (f : Callable).

Definition truthy_value (v : Value) : bool :=
  match v with
  | VUndefined => false
  | VBool b => b
  | VString s => negb (bool_decide (s = ""))
  | VStrings _ | VModules _ | VFunction _ => true
  end.

(** [String(v)], as a template literal and [String.prototype.replace]
    apply it. *)
Definition to_string (v : Value) : string :=
  match v with
  | VUndefined => "undefined"
  | VBool true => "true"
  | VBool false => "false"
  | VString s => s
  | VStrings l => String.concat "," l
  | VModules l => String.concat "," (map (λ _, "[object Object]") l)
  | VFunction f => fn_source f
  end.

(** An object with string keys: its entries in creation order. *)
Definition JsObject := list (string * Value).

Definition obj_get (o : JsObject) (key : string) : Value :=
  default VUndefined ((λ found, found.2.2) <$> list_find (λ kv, kv.1 = key) o).

(** [o[key] = v]: an existing property keeps its place. *)
Fixpoint obj_set (key : string) (v : Value) (o : JsObject) : JsObject :=
  match o with
  | [] => [(key, v)]
  | (k, v') :: o' =>
      if bool_decide (k = key) then (k, v) :: o'
      else (k, v') :: obj_set key v o'
  end.

Definition digit (a : Ascii.ascii) : option N :=
  let n := Ascii.N_of_ascii a in
  if bool_decide (48 ≤ n ∧ n ≤ 57)%N then Some (n - 48)%N else None.

Fixpoint digits (s : string) (acc : N) : option N :=
  match s with
  | EmptyString => Some acc
  | String a s' => d ← digit a; digits s' (acc * 10 + d)%N
  end.

(** A key that is an array index: the canonical decimal form of an
    integer below 2^32 - 1. *)
Definition array_index (key : string) : option N :=
  match key with
  | EmptyString => None
  | String "0"%char EmptyString => Some 0%N
  | String "0"%char _ => None
  | _ => n ← digits key 0; if bool_decide (n < 4294967295)%N then Some n else None
  end.

Definition index_le (a b : N * string) : Prop := (a.1 ≤ b.1)%N.

#[global] Instance index_le_dec : RelDecision index_le.
Proof. intros a b. unfold index_le. apply _. Defined.

(** The keys of [for (key in o)], for an object with own properties only:
    array indices in ascending order, then the other keys in creation
    order. *)
Definition own_keys (o : JsObject) : list string :=
  let indices := omap (λ kv, (λ n, (n, kv.1)) <$> array_index kv.1) o in
  let others := filter (λ k, array_index k = None) o.*1 in
  (merge_sort index_le indices).*2 ++ others.

(** [{ ...literal, ...more }]. *)
Definition spread (literal more : JsObject) : JsObject :=
  foldl (λ o key, obj_set key (obj_get more key) o) literal (own_keys more).

(** An entry of [dependencies.json]. *)
Record Dependency := mkDependency {
  dep_comments : option (list string);
  dep_name : string;
  dep_version : string;
  dep_otherPodfileFlags : option string;
}.

(** ** The file system and the libraries *)

(** The files, by path. *)
Abbreviation FileSystem := (gmap string string).

Inductive FsEvent :=
| EvWriteFile (path data : string).

(** What the file imports: [parseSdkMajorVersion] of [ExponentTools],
    [indent-string], [path], [glob-promise], [JsonFile], and the built-in
    string and regular-expression functions it applies. *)
Class Platform := {
  parseSdkMajorVersion : string → Outcome JsNumber;
  (** [indentString(string, count)]. *)
  indentString : string → nat → string;
  (** [JSON.stringify(value, null, 2)]. *)
  JSON_stringify : Value → string;
  path_join : list Value → Outcome string;
  path_dirname : string → string;
  (** [glob(pattern)], on the files there are. *)
  glob : string → FileSystem → Outcome (list string);
  (** [Array.prototype.sort()] on strings. *)
  array_sort : list string → list string;
  (** [new JsonFile(path).readAsync()]: the array it holds, if it is one. *)
  JsonFile_readAsync : string → FileSystem → Outcome (option (list Dependency));
  (** [process.env.EXPO_UNIVERSE_DIR]. *)
  EXPO_UNIVERSE_DIR : option string;
  toUpperCase : string → string;
  (** [s.match(/^\d+\.\d+.\d+$/)] finds a match. *)
  matches_version : string → bool;
  (** [s.replace(/\./g, '_')]. *)
  replace_dots : string → string;
  endsWith : string → string → bool;
  (** [s.replace(new RegExp(`\\$\\{${key}\\}`, 'g'), replacement)]. *)
  replace_placeholder : string → string → string → string;
  (** The error [fs.writeFile(path, data)] is rejected with on these files,
      if it is rejected: the directory of the path is missing, the path is
      a directory, the permission is denied, the disk is full. *)
  fs_writeFile_error : string → string → FileSystem → option Exception;
}.

(** [fs.readFile(path, 'utf8')]. *)
Definition fs_readFile (path : string) : M FileSystem FsEvent string :=
  λ fs,
    match fs !! path with
    | Some data => (Return data, fs, [])
    | None =>
        (Throw (mkException JsError (Some "ENOENT")
                  ("ENOENT: no such file or directory, open '" +:+ path +:+ "'")),
         fs, [])
    end.

(** [fs.writeFile(path, data)]. A write that is rejected is taken to
    leave the files as they were. *)
Definition fs_writeFile `{Platform} (path data : string)
  : M FileSystem FsEvent unit :=
  λ fs,
    match fs_writeFile_error path data fs with
    | Some err => (Throw err, fs, [])
    | None => (Return tt, <[path := data]> fs, [EvWriteFile path data])
    end.

Definition validKeys : list string := [
  "EXPOKIT_DEPENDENCY";
  "EXPOKIT_PATH";
  "EXPOKIT_TAG";
  "EXPONENT_CLIENT_DEPS";
  "PODFILE_DETACHED_POSTINSTALL";
  "PODFILE_DETACHED_SERVICE_POSTINSTALL";
  "PODFILE_TEST_TARGET";
  "PODFILE_UNVERSIONED_RN_DEPENDENCY";
  "PODFILE_UNVERSIONED_POSTINSTALL";
  "PODFILE_VERSIONED_RN_DEPENDENCIES";
  "PODFILE_VERSIONED_POSTINSTALLS";
  "REACT_NATIVE_EXPO_SUBSPECS";
  "REACT_NATIVE_PATH";
  "TARGET_NAME";
  "VERSIONED_REACT_NATIVE_PATH";
  "PODFILE_UNVERSIONED_EXPO_MODULES_DEPENDENCIES";
  "UNIVERSAL_MODULES";
  "UNIVERSAL_MODULES_PATH"
].

(** [object.hasOwnProperty(key)] for a key the [for...in] loop gives, as
    the condition it is used for. The keys of the loop are own properties,
    so the inherited method answers [true]; but an entry named
    [hasOwnProperty] shadows the method: with a function, which is called
    and answers as it likes, or with a value that cannot be called. *)
Definition hasOwnProperty (object : JsObject) (key : string) : Outcome bool :=
  if bool_decide ("hasOwnProperty" ∈ object.*1) then
    match obj_get object "hasOwnProperty" with
    | VFunction f => fn_called f key
    | _ =>
        Throw (mkException JsError None
                 "substitutions.hasOwnProperty is not a function")
    end
  else Return true.

(** The loop of [_validatePodfileSubstitutions] over the keys still to
    visit. *)
Fixpoint validate_keys (substitutions : JsObject) (keys : list string)
  : Outcome bool :=
  match keys with
  | [] => Return true
  | key :: keys' =>
      own ← hasOwnProperty substitutions key;
      if own && negb (bool_decide (key ∈ validKeys)) then
        Throw (mkException JsError None
                 ("Unrecognized Podfile template key: " +:+ key))
      else validate_keys substitutions keys'
  end.

Definition _validatePodfileSubstitutions (substitutions : JsObject)
  : Outcome bool :=
  validate_keys substitutions (own_keys substitutions).

(** ** The renderers *)

Record ExpoKitOptions := mkExpoKitOptions {
  expoKitPath : Value;
  expoKitTag : Value;
}.

Record RnOptions := mkRnOptions {
  reactNativePath : Value;
}.

Section Renderers.
Context `{Platform}.

Local Abbreviation Async := (M FileSystem FsEvent).

(** [subject.replace(/\$\{key\}/g, replacement)]: a function is called
    for every match, any other value is converted to a string. *)
Definition replace_value (key : string) (replacement : Value)
    (subject : string) : Outcome string :=
  match replacement with
  | VFunction f => fn_replacing f key subject
  | _ => Return (replace_placeholder key (to_string replacement) subject)
  end.

Definition _renderDependencyAttributes (attributes : JsObject) : string :=
  let attributesStrings :=
    map (λ key,
           ":" +:+ key +:+ " => " +:+ JSON_stringify (obj_get attributes key))
        (own_keys attributes) in
  String.concat ",
" attributesStrings.

Definition _renderExpoKitDependency (options : ExpoKitOptions)
    (sdkVersion : string) : Outcome string :=
  sdkMajorVersion ← parseSdkMajorVersion sdkVersion;
  let attributes : JsObject :=
    if truthy_value (expoKitPath options) then
      [("path", expoKitPath options)]
    else if truthy_value (expoKitTag options) then
      [("git", VString "http://github.com/expo/expo.git");
       ("tag", expoKitTag options)]
    else
      [("git", VString "http://github.com/expo/expo.git");
       ("branch", VString "master")] in
  let attributes :=
    if num_lt sdkMajorVersion 26 then
      obj_set "subspecs" (VStrings ["Core"; "CPP"]) attributes
    else if num_lt sdkMajorVersion 29
            && negb (bool_decide (is_Some (truthy_string EXPO_UNIVERSE_DIR)))
    then
      obj_set "subspecs" (VStrings ["Core"; "CPP"; "GL"]) attributes
    else
      obj_set "subspecs" (VStrings ["Core"]) attributes in
  let attributes := obj_set "inhibit_warnings" (VBool true) attributes in
  let dependency :=
    "pod 'ExpoKit',
" +:+ indentString (_renderDependencyAttributes attributes) 2 in
  mret (indentString dependency 2).

Definition _renderUnversionedReactDependency (options : RnOptions)
  : Outcome string :=
  if negb (truthy_value (reactNativePath options)) then
    Throw (mkException JsError None
             "Unsupported options for RN dependency: [object Object]")
  else
    let attributes : JsObject :=
      [("path", reactNativePath options);
       ("inhibit_warnings", VBool true);
       ("subspecs",
         VStrings ["Core"; "ART"; "RCTActionSheet"; "RCTAnimation";
                   "RCTCameraRoll"; "RCTGeolocation"; "RCTImage";
                   "RCTNetwork"; "RCTText"; "RCTVibration"; "RCTWebSocket";
                   "DevSupport"; "CxxBridge"])] in
    mret ("pod 'React',
" +:+ indentString (_renderDependencyAttributes attributes) 2).

Definition _renderUnversionedYogaDependency (options : RnOptions)
  : Outcome string :=
  if truthy_value (reactNativePath options) then
    yogaPath ← path_join [reactNativePath options; VString "ReactCommon";
                          VString "yoga"];
    let attributes : JsObject :=
      [("path", VString yogaPath); ("inhibit_warnings", VBool true)] in
    mret ("pod 'yoga',
" +:+ indentString (_renderDependencyAttributes attributes) 2)
  else
    Throw (mkException JsError None
             "Unsupported options for Yoga dependency: [object Object]").

Definition _renderUnversionedThirdPartyDependency (podName : string)
    (podspecRelativePath : string) (options : RnOptions) : Outcome string :=
  if truthy_value (reactNativePath options) then
    podspec ← path_join [reactNativePath options; VString podspecRelativePath];
    let attributes : JsObject :=
      [("podspec", VString podspec); ("inhibit_warnings", VBool true)] in
    mret ("pod '" +:+ podName +:+ "',
" +:+ indentString (_renderDependencyAttributes attributes) 2)
  else
    Throw (mkException JsError None
             ("Unsupported options for " +:+ podName +:+
              " dependency: [object Object]")).

Definition _renderUnversionedReactNativeDependency (options : RnOptions)
    (sdkVersion : string) : Outcome string :=
  sdkMajorVersion ← parseSdkMajorVersion sdkVersion;
  if num_ge sdkMajorVersion 36 then
    mret (indentString "
# Install React Native and its dependencies
require_relative '../node_modules/react-native/scripts/autolink-ios.rb'
use_react_native!" 1)
  else
    let glogLibraryName :=
      if num_lt sdkMajorVersion 26 then "GLog" else "glog" in
    react ← _renderUnversionedReactDependency options;
    yoga ← _renderUnversionedYogaDependency options;
    doubleConversionPodspec ←
      path_join [VString "third-party-podspecs";
                 VString "DoubleConversion.podspec"];
    doubleConversion ←
      _renderUnversionedThirdPartyDependency "DoubleConversion"
        doubleConversionPodspec options;
    follyPodspec ←
      path_join [VString "third-party-podspecs"; VString "Folly.podspec"];
    folly ←
      _renderUnversionedThirdPartyDependency "Folly" follyPodspec options;
    glogPodspec ←
      path_join [VString "third-party-podspecs";
                 VString (glogLibraryName +:+ ".podspec")];
    glog ←
      _renderUnversionedThirdPartyDependency glogLibraryName glogPodspec
        options;
    mret (indentString ("
" +:+ react +:+ "
" +:+ yoga +:+ "
" +:+ doubleConversion +:+ "
" +:+ folly +:+ "
" +:+ glog +:+ "
") 2).

(** [sdkVersion] is [undefined] or a string. *)
Definition createSdkFilterFn (sdkVersion : option string)
  : option (string → bool) :=
  match sdkVersion with
  | None => None
  | Some sdkVersion =>
      if negb (bool_decide (sdkVersion = ""))
         && bool_decide (toUpperCase sdkVersion = "UNVERSIONED")
      then Some (λ _, false)
      else if negb (matches_version sdkVersion) then None
      else
        let sdkVersionWithUnderscores := replace_dots sdkVersion in
        Some (λ i, endsWith i
                     ("/ReactABI" +:+ sdkVersionWithUnderscores +:+ ".rb"))
  end.

(** The loop of [_concatTemplateFilesInDirectoryAsync] over the files
    still to read. *)
Fixpoint read_templates (filenames : list string) (templateStrings : list string)
  : Async (list string) :=
  match filenames with
  | [] => ret templateStrings
  | filename :: filenames' =>
      templateString <- fs_readFile filename ;;
      if bool_decide (templateString = "") then
        read_templates filenames' templateStrings
      else
        read_templates filenames' (templateStrings ++ [templateString])
  end.

Definition _concatTemplateFilesInDirectoryAsync (directory : string)
    (filterFn : option (string → bool)) : Async string :=
  pattern <- lift (path_join [VString directory; VString "*.rb"]) ;;
  found <- step (λ fs, (glob pattern fs, fs)) ;;
  let templateFilenames := array_sort found in
  let filteredTemplateFilenames :=
    match filterFn with
    | Some filterFn => List.filter filterFn templateFilenames
    | None => templateFilenames
    end in
  templateStrings <- read_templates filteredTemplateFilenames [] ;;
  ret (String.concat "
" templateStrings).

(** [expoSubspecs.map(subspec => `'${subspec}'`).join(', ')]; a value
    that is not an array has no [map]. *)
Definition quote_subspecs (expoSubspecs : Value) : Outcome string :=
  match expoSubspecs with
  | VStrings l =>
      Return (String.concat ", " (map (λ subspec, "'" +:+ subspec +:+ "'") l))
  | VModules l =>
      Return (String.concat ", " (map (λ _, "'[object Object]'") l))
  | _ =>
      Throw (mkException JsError None "expoSubspecs.map is not a function")
  end.

Definition _renderVersionedReactNativeDependenciesAsync
    (templatesDirectory : string) (versionedReactNativePath : Value)
    (expoSubspecs : Value) (shellAppSdkVersion : option string)
  : Async string :=
  let filterFn := createSdkFilterFn shellAppSdkVersion in
  directory <-
    lift (path_join [VString templatesDirectory;
                     VString "versioned-react-native";
                     VString "dependencies"]) ;;
  result <- _concatTemplateFilesInDirectoryAsync directory filterFn ;;
  expoSubspecsString <- lift (quote_subspecs expoSubspecs) ;;
  result <-
    lift (replace_value "VERSIONED_REACT_NATIVE_PATH" versionedReactNativePath
            result) ;;
  let result :=
    replace_placeholder "REACT_NATIVE_EXPO_SUBSPECS" expoSubspecsString
      result in
  ret result.

Definition _renderVersionedReactNativePostinstallsAsync
    (templatesDirectory : string) (shellAppSdkVersion : option string)
  : Async string :=
  let filterFn := createSdkFilterFn shellAppSdkVersion in
  directory <-
    lift (path_join [VString templatesDirectory;
                     VString "versioned-react-native";
                     VString "postinstalls"]) ;;
  _concatTemplateFilesInDirectoryAsync directory filterFn.

Definition _renderDetachedPostinstall (sdkVersion : string)
    (isServiceContext : bool) : Outcome string :=
  sdkMajorVersion ← parseSdkMajorVersion sdkVersion;
  let podNameExpression :=
    if num_lt sdkMajorVersion 33 then "target.pod_name" else "pod_name" in
  let targetExpression :=
    if num_lt sdkMajorVersion 33 then "target"
    else "target_installation_result" in
  let podsRootSub := "${PODS_ROOT}" in
  let maybeDetachedServiceDef :=
    if isServiceContext then
      "config.build_settings['GCC_PREPROCESSOR_DEFINITIONS'] << 'EX_DETACHED_SERVICE=1'"
    else "" in
  let maybeFrameworkSearchPathDef :=
    if num_lt sdkMajorVersion 33 then
      "
          # Needed for GoogleMaps 2.x
          config.build_settings['FRAMEWORK_SEARCH_PATHS'] ||= []
          config.build_settings['FRAMEWORK_SEARCH_PATHS'] << '" +:+ podsRootSub +:+ "/GoogleMaps/Base/Frameworks'
          config.build_settings['FRAMEWORK_SEARCH_PATHS'] << '" +:+ podsRootSub +:+ "/GoogleMaps/Maps/Frameworks'"
    else "" in
  mret ("
      if " +:+ podNameExpression +:+ " == 'ExpoKit'
        " +:+ targetExpression +:+ ".native_target.build_configurations.each do |config|
          config.build_settings['GCC_PREPROCESSOR_DEFINITIONS'] ||= ['$(inherited)']
          config.build_settings['GCC_PREPROCESSOR_DEFINITIONS'] << 'EX_DETACHED=1'
          " +:+ maybeDetachedServiceDef +:+ "
          # Enable Google Maps support
          config.build_settings['GCC_PREPROCESSOR_DEFINITIONS'] << 'HAVE_GOOGLE_MAPS=1'
          config.build_settings['GCC_PREPROCESSOR_DEFINITIONS'] << 'HAVE_GOOGLE_MAPS_UTILS=1'
          " +:+ maybeFrameworkSearchPathDef +:+ "
        end
      end
").

Definition _renderUnversionedPostinstall (sdkVersion : string)
  : Outcome string :=
  let podsToChangeDeployTarget :=
    ["Amplitude-iOS"; "Analytics"; "AppAuth"; "Branch"; "CocoaLumberjack";
     "FBSDKCoreKit"; "FBSDKLoginKit"; "FBSDKShareKit"; "GPUImage";
     "JKBigInteger2"] in
  let podsToChangeRB :=
    "[" +:+
    String.concat "," (map (λ pod, "'" +:+ pod +:+ "'") podsToChangeDeployTarget)
    +:+ "]" in
  sdkMajorVersion ← parseSdkMajorVersion sdkVersion;
  let podNameExpression :=
    if num_lt sdkMajorVersion 33 then "target.pod_name" else "pod_name" in
  let targetExpression :=
    if num_lt sdkMajorVersion 33 then "target"
    else "target_installation_result" in
  let deploymentTarget :=
    if num_gt sdkMajorVersion 30 then "10.0" else "9.0" in
  let podsToChangeDeployTargetIfStart :=
    if num_le sdkMajorVersion 33 then
      "      if " +:+ podsToChangeRB +:+ ".include? " +:+ podNameExpression
    else "" in
  let podsToChangeDeployTargetIfEnd :=
    if num_le sdkMajorVersion 33 then "      end" else "" in
  let gccPreprocessorDefinitionsCondition :=
    if num_lt sdkMajorVersion 36 then podNameExpression +:+ " == 'React'"
    else podNameExpression +:+ ".start_with?('React')" in
  mret ("
" +:+ podsToChangeDeployTargetIfStart +:+ "
      " +:+ targetExpression +:+ ".native_target.build_configurations.each do |config|
        config.build_settings['IPHONEOS_DEPLOYMENT_TARGET'] = '" +:+ deploymentTarget +:+ "'
      end
" +:+ podsToChangeDeployTargetIfEnd +:+ "

      # Can't specify this in the React podspec because we need to use those podspecs for detached
      # projects which don't reference ExponentCPP.
      if " +:+ podNameExpression +:+ ".start_with?('React')
        " +:+ targetExpression +:+ ".native_target.build_configurations.each do |config|
          config.build_settings['IPHONEOS_DEPLOYMENT_TARGET'] = '" +:+ deploymentTarget +:+ "'
          config.build_settings['HEADER_SEARCH_PATHS'] ||= ['$(inherited)']
        end
      end

      # Build React Native with RCT_DEV enabled and RCT_ENABLE_INSPECTOR and
      # RCT_ENABLE_PACKAGER_CONNECTION disabled
      next unless " +:+ gccPreprocessorDefinitionsCondition +:+ "
      " +:+ targetExpression +:+ ".native_target.build_configurations.each do |config|
        config.build_settings['GCC_PREPROCESSOR_DEFINITIONS'] ||= ['$(inherited)']
        config.build_settings['GCC_PREPROCESSOR_DEFINITIONS'] << 'RCT_DEV=1'
        config.build_settings['GCC_PREPROCESSOR_DEFINITIONS'] << 'RCT_ENABLE_INSPECTOR=0'
        config.build_settings['GCC_PREPROCESSOR_DEFINITIONS'] << 'ENABLE_PACKAGER_CONNECTION=0'
      end
").

Definition _renderTestTarget (reactNativePath : Value) : string :=
  "
  target 'ExponentIntegrationTests' do
    inherit! :search_paths
  end

  target 'Tests' do
    inherit! :search_paths
  end
".

Definition _renderPodDependenciesAsync (dependenciesConfigPath : string)
    (isPodfile : bool) : Async string :=
  dependencies <-
    step (λ fs, (JsonFile_readAsync dependenciesConfigPath fs, fs)) ;;
  let type := if isPodfile then "pod" else "ss.dependency" in
  let noWarningsFlag :=
    if isPodfile then ", :inhibit_warnings => true" else "" in
  let depsStrings :=
    match dependencies with
    | Some dependencies =>
        map (λ dependency,
               let builder :=
                 match dep_comments dependency with
                 | Some comments =>
                     String.concat "
" (map (λ commentLine, "  # " +:+ commentLine) comments) +:+ "
"
                 | None => ""
                 end in
               let otherPodfileFlags :=
                 if isPodfile then
                   truthy_string (dep_otherPodfileFlags dependency)
                 else None in
               builder +:+ "  " +:+ type +:+ " '" +:+ dep_name dependency
                 +:+ "', '" +:+ dep_version dependency +:+ "'"
                 +:+ noWarningsFlag +:+ default "" otherPodfileFlags)
            dependencies
    | None => []
    end in
  ret (String.concat "
" depsStrings).

Definition _renderUnversionedUniversalModuleDependency (podName : string)
    (path : string) : string :=
  let attributes : JsObject := [("path", VString path)] in
  "pod '" +:+ podName +:+ "',
" +:+ indentString (_renderDependencyAttributes attributes) 2.

Definition _renderUnversionedUniversalModulesDependencies
    (universalModules : Value) (universalModulesPath : Value)
    (sdkVersion : string) : Outcome string :=
  sdkMajorVersion ← parseSdkMajorVersion sdkVersion;
  if num_ge sdkMajorVersion 33 then
    mret (indentString ("
# Install unimodules
require_relative '../node_modules/react-native-unimodules/cocoapods.rb'
use_unimodules!(
  modules_paths: ['" +:+ to_string universalModulesPath +:+ "'],
  exclude: [
    'expo-bluetooth',
    'expo-in-app-purchases',
    'expo-payments-stripe',
  ],
)") 2)
  else
    match universalModules with
    | VModules l =>
        mret (indentString
                (String.concat "
" (map (λ moduleInfo,
                        _renderUnversionedUniversalModuleDependency
                          (podName moduleInfo) (module_path moduleInfo))
                     l)) 2)
    | VStrings l =>
        mret (indentString
                (String.concat "
" (map (λ _,
                        "pod 'undefined',
" +:+ indentString (_renderDependencyAttributes [("path", VUndefined)]) 2)
                     l)) 2)
    | _ =>
        Throw (mkException JsError None
                 "universalModules.map is not a function")
    end.

(** [renderPodfileAsync] up to and including the [substitutions] object:
    the template is read, the parts are rendered and the caller's entries
    are spread over them. *)
Definition renderPodfileAsync_substitutions (pathToTemplate : string)
    (moreSubstitutions : option JsObject) (shellAppSdkVersion : option string)
    (sdkVersion : option string) : Async (string * JsObject) :=
  let sdkVersion := default "UNVERSIONED" sdkVersion in
  let moreSubstitutions := default [] moreSubstitutions in
  let templatesDirectory := path_dirname pathToTemplate in
  templateString <- fs_readFile pathToTemplate ;;
  let reactNativePath := obj_get moreSubstitutions "REACT_NATIVE_PATH" in
  let rnDependencyOptions :=
    if truthy_value reactNativePath then mkRnOptions reactNativePath
    else mkRnOptions VUndefined in
  let expoKitPath := obj_get moreSubstitutions "EXPOKIT_PATH" in
  let expoKitTag := obj_get moreSubstitutions "EXPOKIT_TAG" in
  let expoKitDependencyOptions :=
    if truthy_value expoKitPath then mkExpoKitOptions expoKitPath VUndefined
    else if truthy_value expoKitTag then mkExpoKitOptions VUndefined expoKitTag
    else mkExpoKitOptions VUndefined VUndefined in
  let versionedRnPath :=
    let versionedRnPath :=
      obj_get moreSubstitutions "VERSIONED_REACT_NATIVE_PATH" in
    if truthy_value versionedRnPath then versionedRnPath
    else VString "./versioned-react-native" in
  let rnExpoSubspecs :=
    let rnExpoSubspecs :=
      obj_get moreSubstitutions "REACT_NATIVE_EXPO_SUBSPECS" in
    if truthy_value rnExpoSubspecs then rnExpoSubspecs
    else VStrings ["Expo"] in
  versionedDependencies <-
    _renderVersionedReactNativeDependenciesAsync templatesDirectory
      versionedRnPath rnExpoSubspecs shellAppSdkVersion ;;
  versionedPostinstalls <-
    _renderVersionedReactNativePostinstallsAsync templatesDirectory
      shellAppSdkVersion ;;
  dependenciesConfigPath <-
    lift (path_join [VString templatesDirectory; VString "dependencies.json"]) ;;
  podDependencies <- _renderPodDependenciesAsync dependenciesConfigPath true ;;
  let universalModules :=
    let universalModules := obj_get moreSubstitutions "UNIVERSAL_MODULES" in
    if truthy_value universalModules then universalModules
    else VModules [] in
  expoKitDependency <-
    lift (_renderExpoKitDependency expoKitDependencyOptions sdkVersion) ;;
  expoModulesDependencies <-
    lift (_renderUnversionedUniversalModulesDependencies universalModules
            (obj_get moreSubstitutions "UNIVERSAL_MODULES_PATH") sdkVersion) ;;
  rnDependency <-
    lift (_renderUnversionedReactNativeDependency rnDependencyOptions
            sdkVersion) ;;
  unversionedPostinstall <- lift (_renderUnversionedPostinstall sdkVersion) ;;
  detachedPostinstall <- lift (_renderDetachedPostinstall sdkVersion false) ;;
  detachedServicePostinstall <-
    lift (_renderDetachedPostinstall sdkVersion true) ;;
  let testTarget :=
    if bool_decide (is_Some (truthy_string shellAppSdkVersion)) then ""
    else _renderTestTarget reactNativePath in
  let substitutions : JsObject :=
    spread
      [("EXPONENT_CLIENT_DEPS", VString podDependencies);
       ("EXPOKIT_DEPENDENCY", VString expoKitDependency);
       ("PODFILE_UNVERSIONED_EXPO_MODULES_DEPENDENCIES",
         VString expoModulesDependencies);
       ("PODFILE_UNVERSIONED_RN_DEPENDENCY", VString rnDependency);
       ("PODFILE_UNVERSIONED_POSTINSTALL", VString unversionedPostinstall);
       ("PODFILE_DETACHED_POSTINSTALL", VString detachedPostinstall);
       ("PODFILE_DETACHED_SERVICE_POSTINSTALL",
         VString detachedServicePostinstall);
       ("PODFILE_VERSIONED_RN_DEPENDENCIES", VString versionedDependencies);
       ("PODFILE_VERSIONED_POSTINSTALLS", VString versionedPostinstalls);
       ("PODFILE_TEST_TARGET", VString testTarget)]
      moreSubstitutions in
  ret (templateString, substitutions).

(** The replacement loop of [renderPodfileAsync] over the keys still to
    visit: a key for which [hasOwnProperty] answers no is skipped. *)
Fixpoint replace_keys (substitutions : JsObject) (keys : list string)
    (result : string) : Outcome string :=
  match keys with
  | [] => Return result
  | key :: keys' =>
      own ← hasOwnProperty substitutions key;
      if own : bool then
        let replacement := obj_get substitutions key in
        result ← replace_value key replacement result;
        replace_keys substitutions keys' result
      else replace_keys substitutions keys' result
  end.

Definition replace_substitutions (substitutions : JsObject)
    (templateString : string) : Outcome string :=
  replace_keys substitutions (own_keys substitutions) templateString.

Definition renderPodfileAsync (pathToTemplate pathToOutput : string)
    (moreSubstitutions : option JsObject) (shellAppSdkVersion : option string)
    (sdkVersion : option string) : Async unit :=
  prepared <-
    renderPodfileAsync_substitutions pathToTemplate moreSubstitutions
      shellAppSdkVersion sdkVersion ;;
  let '(templateString, substitutions) := prepared in
  lift (_validatePodfileSubstitutions substitutions) ;;
  result <- lift (replace_substitutions substitutions templateString) ;;
  fs_writeFile pathToOutput result.
End Renderers.

End IosPodsTools.

(** * Vocabulary of the properties *)

Import IOSBuilder.

Section Vocabulary.
Context `{Collaborators}.

(** The step of [produceCredentials] a call belongs to: registration (0),
    distribution certificate (1), push key (2), provisioning profile (3). *)
Definition stage (ev : Event) : option nat :=
  match ev with
  | EvEnsureAppExists _ _ _ _ => Some 0
  | EvUseDistCertFromParams _ _ | EvSetupIosDist _ _ _ => Some 1
  | EvUsePushKeyFromParams _ _ | EvSetupIosPush _ _ _ => Some 2
  | EvUseProvisioningProfileFromParams _ _ _ _
  | EvSetupIosProvisioningProfile _ _ _ _ => Some 3
  | _ => None
  end.

(** A call of the production phase. *)
Definition is_production (ev : Event) : bool :=
  bool_decide (is_Some (stage ev)).

(** The certificate a provisioning-profile call is given. *)
Definition profile_distCert (ev : Event) : option IosDistCredentials :=
  match ev with
  | EvUseProvisioningProfileFromParams _ _ _ distCert
  | EvSetupIosProvisioningProfile _ _ distCert _ => Some distCert
  | _ => None
  end.

(** The report: [displayProjectCredentials]. *)
Definition is_report (ev : Event) : bool :=
  match ev with
  | EvDisplayProjectCredentials _ _ _ => true
  | _ => false
  end.

(** A call of the authentication gate: the prompt or the
    authentication. *)
Definition is_authentication (ev : Event) : bool :=
  match ev with
  | EvPrompt _ | EvEnsureAppleCtx _ => true
  | _ => false
  end.

(** A removal of the clear phase, with the entry of the clear request
    that asks for it. *)
Definition cleared_entry (ev : Event) : option string :=
  match ev with
  | EvRemoveIosDist _ _ _ => Some "distributionCert"
  | EvRemoveIosPush _ _ _ => Some "pushKey"
  | EvRemoveProvisioningProfile _ _ _ => Some "provisioningProfile"
  | EvDeletePushCert _ _ => Some "pushCert"
  | _ => None
  end.

(** The entries a clear request can hold. *)
Definition clear_entries : list string :=
  ["distributionCert"; "pushKey"; "pushCert"; "provisioningProfile"].

(** The question of the authentication gate. *)
Definition access_question : string :=
  "Do you have access to the Apple account that will be used for submitting this app to the App Store?".

Definition is_clear (ev : Event) : bool :=
  bool_decide (is_Some (cleared_entry ev)).

(** The name [prepareCredentials] gives the experience. *)
Definition experienceName (this : Builder) : string :=
  "@" +:+ template_string (getUsernameAsync this) +:+ "/" +:+
  manifest_slug (manifest this).

(** The registration step of [produceCredentials]. *)
Definition registration (experienceName bundleIdentifier : string)
  : M World Event unit :=
  (appleCtx <- gets ctx_appleCtx ;;
   match appleCtx with
   | Some appleCtx =>
       call (EvEnsureAppExists appleCtx experienceName bundleIdentifier true)
            (apple_ensureAppExists appleCtx experienceName bundleIdentifier
               true)
   | None => ret tt
   end)%eff.

(** How one credential type's step ([_setupDistCert], [_setupPushCert],
    [_setupProvisioningProfile]) can run: its resolver is called and
    returns; or it is called and throws, which is logged; or reading the
    parameters throws before any resolver is called, which is logged. *)
Inductive resolver_run (n : nat) (message : string)
  : Outcome unit → list Event → Prop :=
| resolver_returns ev :
    stage ev = Some n → resolver_run n message (Return tt) [ev]
| resolver_throws ev err :
    stage ev = Some n →
    resolver_run n message (Throw err) [ev; EvLogError message]
| params_throw err :
    resolver_run n message (Throw err) [EvLogError message].

Definition INSUFFICIENT_CREDENTIALS : Exception :=
  mkException CommandError (Some "INSUFFICIENT_CREDENTIALS")
    "This build request requires a valid distribution certificate.".
End Vocabulary.

(** A removal acts on an artifact that the store [w] holds for the
    application. *)
Definition present_in (w : SpecModel.SpecWorld)
    (experienceName bundleIdentifier : string)
    (ev : @Event SpecModel.collaborators) : Prop :=
  let bundle := SpecModel.bundle_of w experienceName bundleIdentifier in
  match ev with
  | EvRemoveIosDist _ _ distCert =>
      SpecModel.distributionCert bundle = Some distCert
  | EvRemoveIosPush _ _ pushKey => SpecModel.pushKey bundle = Some pushKey
  | EvRemoveProvisioningProfile _ _ app =>
      is_Some (SpecModel.provisioningProfile bundle)
      ∧ app = SpecModel.mkAppRef experienceName bundleIdentifier
  | EvDeletePushCert e b =>
      is_Some (SpecModel.pushCert bundle)
      ∧ e = experienceName ∧ b = bundleIdentifier
  | _ => False
  end.

(** ** Concrete inputs *)

Module Inputs.
Import SpecModel.

Definition no_options : Options :=
  mkOptions None None None None None None None None None None [].

Definition acme_manifest : Manifest :=
  mkManifest (Some "acme") "app" (Some (mkIosConfig (Some "com.acme.app"))).

Definition builder_with (o : Options) : Builder :=
  mkBuilder o acme_manifest "/projects/app" None.

Definition empty_world : SpecWorld := mkWorld ∅ None [] [] [] false.

Definition acme_cert : Artifact := mkArtifact "cert-1" (Some "remote-cert-1").
Definition acme_key : Artifact := mkArtifact "key-1" (Some "remote-key-1").
Definition acme_profile : Profile :=
  mkProfile "profile-1" (Some "remote-profile-1") "cert-1".

(** All of the application's artifacts but the legacy push certificate
    are in the store. *)
Definition stocked_world : SpecWorld :=
  mkWorld
    {[ ("@acme/app", "com.acme.app") :=
         mkBundle (Some acme_cert) (Some acme_key) None (Some acme_profile) ]}
    None [] [] [] false.
End Inputs.

(** ** A platform to run the renderers on

    Node's libraries are outside the repository. [NodePlatform] stands in
    for them where the renderers are run on concrete inputs: paths are
    joined with a slash, a pattern [dir/*.rb] is matched against the paths
    of the file system, text is indented line by line. The properties
    below hold for every platform. *)

Module NodePlatform.
Import IosPodsTools.

Definition chars (s : string) : list ascii := String.list_ascii_of_string s.
Definition text (l : list ascii) : string := String.string_of_list_ascii l.

Definition is_digit (a : ascii) : bool := bool_decide (is_Some (digit a)).

Fixpoint take_while {A} (p : A → bool) (l : list A) : list A :=
  match l with
  | x :: l' => if p x then x :: take_while p l' else []
  | [] => []
  end.

Fixpoint drop_while {A} (p : A → bool) (l : list A) : list A :=
  match l with
  | x :: l' => if p x then drop_while p l' else l
  | [] => []
  end.

Definition starts_with (s p : string) : bool := String.prefix p s.

Definition ends_with (s p : string) : bool :=
  String.prefix (text (rev (chars p))) (text (rev (chars s))).

Definition spaces (n : nat) : string := text (replicate n " "%char).

(** Indent every line that is not empty. *)
Fixpoint indent_lines (indent : string) (at_line_start : bool) (s : string)
  : string :=
  match s with
  | EmptyString => EmptyString
  | String c s' =>
      if bool_decide (c = "010"%char) then
        String c (indent_lines indent true s')
      else if at_line_start then
        indent +:+ String c (indent_lines indent false s')
      else String c (indent_lines indent false s')
  end.

Definition quote : string := String (ascii_of_nat 34) EmptyString.

Definition stringify (v : Value) : string :=
  match v with
  | VUndefined => "undefined"
  | VBool true => "true"
  | VBool false => "false"
  | VString s => quote +:+ s +:+ quote
  | VStrings l =>
      "[" +:+ String.concat ", " (map (λ s, quote +:+ s +:+ quote) l) +:+ "]"
  | VModules l => "[" +:+ String.concat ", " (map (λ _, "{}") l) +:+ "]"
  | VFunction _ => "undefined"
  end.

(** The strings of a list of values, if they all are strings. *)
Fixpoint strings_of (parts : list Value) : option (list string) :=
  match parts with
  | [] => Some []
  | VString s :: parts' => cons s <$> strings_of parts'
  | _ :: _ => None
  end.

Definition join_path (parts : list Value) : Outcome string :=
  match strings_of parts with
  | Some l => Return (String.concat "/" l)
  | None =>
      Throw (mkException JsError (Some "ERR_INVALID_ARG_TYPE")
               "The path argument must be of type string")
  end.

(** The path up to its last slash. *)
Definition dirname (p : string) : string :=
  let reversed := rev (chars p) in
  text (rev (tail (drop_while (λ c, negb (bool_decide (c = "/"%char)))
                     reversed))).

(** The files a pattern [dir/*.rb] matches. *)
Definition find_files (pattern : string) (fs : FileSystem)
  : Outcome (list string) :=
  let directory := dirname pattern in
  Return
    (List.filter
       (λ p, starts_with p (directory +:+ "/") && ends_with p ".rb"
             && bool_decide (dirname p = directory))
       (map fst (map_to_list fs))).

Definition string_le (a b : string) : Prop := String.leb a b = true.

#[global] Instance string_le_dec : RelDecision string_le.
Proof. intros a b. unfold string_le. apply _. Defined.

(** A file that holds just [[]] is an empty array; anything else is read
    as a value that is not an array. *)
Definition read_json (path : string) (fs : FileSystem)
  : Outcome (option (list Dependency)) :=
  match fs !! path with
  | None =>
      Throw (mkException JsError (Some "ENOENT")
               ("ENOENT: no such file or directory, open '" +:+ path +:+ "'"))
  | Some "[]" => Return (Some [])
  | Some _ => Return None
  end.

Definition upper (a : ascii) : ascii :=
  let n := nat_of_ascii a in
  if bool_decide (97 ≤ n ∧ n ≤ 122)%nat then ascii_of_nat (n - 32) else a.

(** Modelled from the spec: [parseSdkMajorVersion] of [ExponentTools] is
    not among the sources, and the specification leaves the Podfile
    tooling's helpers unspecified; this stand-in gives [Infinity] for
    [UNVERSIONED] and otherwise the leading digits of the version, as a
    number. *)
Definition major_version (sdkVersion : string) : Outcome JsNumber :=
  if bool_decide (sdkVersion = "UNVERSIONED") then Return Infinity
  else
    let leading := take_while is_digit (chars sdkVersion) in
    match leading with
    | [] => Return NaN
    | _ => Return (default NaN (Finite ∘ Z.of_N <$> digits (text leading) 0))
    end.

(** [/^\d+\.\d+.\d+$/]: digits, a dot, then digits, any one character
    that does not end a line, and digits. *)
Definition version_like (s : string) : bool :=
  let cs := chars s in
  let major := take_while is_digit cs in
  match drop_while is_digit cs with
  | dot :: rest =>
      negb (bool_decide (major = [])) && bool_decide (dot = "."%char)
      && existsb
           (λ i,
              match drop i rest with
              | any :: patch =>
                  negb (bool_decide (i = 0)) && forallb is_digit (take i rest)
                  && negb (bool_decide (any = "010"%char ∨ any = "013"%char))
                  && negb (bool_decide (patch = [])) && forallb is_digit patch
              | [] => false
              end)
           (seq 0 (length rest))
  | [] => false
  end.

(** Replace every occurrence of [pattern]; [skip] characters of a match
    are still to be dropped. *)
Fixpoint replace_from (pattern replacement : string) (skip : nat) (s : string)
  : string :=
  match s with
  | EmptyString => EmptyString
  | String c s' =>
      match skip with
      | S n => replace_from pattern replacement n s'
      | O =>
          if String.prefix pattern s then
            replacement
            +:+ replace_from pattern replacement (String.length pattern - 1) s'
          else String c (replace_from pattern replacement 0 s')
      end
  end.

(** A write is refused when the path is a directory: some file lies
    below it. *)
Definition write_error (path data : string) (fs : FileSystem)
  : option Exception :=
  if existsb (λ file, starts_with file (path +:+ "/")) (map fst (map_to_list fs))
  then
    Some (mkException JsError (Some "EISDIR")
            ("EISDIR: illegal operation on a directory, open '" +:+ path
             +:+ "'"))
  else None.

#[global] Instance platform : Platform := {|
  parseSdkMajorVersion := major_version;
  indentString := λ s count, indent_lines (spaces count) true s;
  JSON_stringify := stringify;
  path_join := join_path;
  path_dirname := dirname;
  glob := find_files;
  array_sort := merge_sort string_le;
  JsonFile_readAsync := read_json;
  EXPO_UNIVERSE_DIR := None;
  toUpperCase := λ s, text (map upper (chars s));
  matches_version := version_like;
  replace_dots :=
    λ s, text (map (λ c, if bool_decide (c = "."%char) then "_"%char else c)
                 (chars s));
  endsWith := ends_with;
  replace_placeholder :=
    λ key replacement s, replace_from ("${" +:+ key +:+ "}") replacement 0 s;
  fs_writeFile_error := write_error;
|}.

(** A project with a Podfile template and no pod dependencies. *)
Definition project : FileSystem :=
  {[ "template-files/ios/Podfile" := "target '${TARGET_NAME}' do
${EXPOKIT_DEPENDENCY}
end
";
     "template-files/ios/dependencies.json" := "[]" ]}.
End NodePlatform.

(** * Further vocabulary of the credential phase *)

Section CallArguments.
Context `{Collaborators}.

(** A view run through [runCredentialsManager]. *)
Definition is_manager_view (ev : Event) : bool :=
  match ev with
  | EvSetupIosDist _ _ _ | EvSetupIosPush _ _ _
  | EvSetupIosProvisioningProfile _ _ _ _ => true
  | _ => false
  end.

(** The adoption of an artifact given on the command line. *)
Definition is_adoption (ev : Event) : bool :=
  match ev with
  | EvUseDistCertFromParams _ _ | EvUsePushKeyFromParams _ _
  | EvUseProvisioningProfileFromParams _ _ _ _ => true
  | _ => false
  end.

(** The place of a removal in [clearCredentials]. *)
Definition clear_rank (ev : Event) : nat :=
  match ev with
  | EvRemoveIosDist _ _ _ => 0
  | EvRemoveIosPush _ _ _ => 1
  | EvRemoveProvisioningProfile _ _ _ => 2
  | EvDeletePushCert _ _ => 3
  | _ => 4
  end.

(** What [clearCredentials] hands to a removal: the revocation flag and
    the mode of the builder, or (the legacy push certificate) the
    application. *)
Definition clear_arguments (this : Builder)
    (experienceName bundleIdentifier : string) (ev : Event) : Prop :=
  match ev with
  | EvRemoveIosDist shouldRevoke mode _
  | EvRemoveIosPush shouldRevoke mode _
  | EvRemoveProvisioningProfile shouldRevoke mode _ =>
      shouldRevoke = truthy (opt_revokeCredentials (options this))
      ∧ mode = nonInteractive this
  | EvDeletePushCert e b => e = experienceName ∧ b = bundleIdentifier
  | _ => False
  end.

(** What [produceCredentials], entered in the world [w], hands to the
    calls it makes. *)
Definition production_arguments (this : Builder)
    (experienceName bundleIdentifier : string) (w : World) (ev : Event)
  : Prop :=
  let app := ios_getAppCredentials experienceName bundleIdentifier w in
  match ev with
  | EvEnsureAppExists appleCtx e b enablePushNotifications =>
      ctx_appleCtx w = Some appleCtx
      ∧ e = experienceName ∧ b = bundleIdentifier
      ∧ enablePushNotifications = true
  | EvUseDistCertFromParams app' _ | EvUsePushKeyFromParams app' _ =>
      app' = app
  | EvUseProvisioningProfileFromParams app' teamId _ _ =>
      app' = app ∧ teamId = opt_teamId (options this)
  | EvSetupIosDist e b mode | EvSetupIosPush e b mode
  | EvSetupIosProvisioningProfile e b _ mode =>
      e = experienceName ∧ b = bundleIdentifier ∧ mode = nonInteractive this
  | EvLogError _ => True
  | _ => False
  end.

(** The five clear flags of the command line are all falsy. *)
Definition nothing_to_clear (o : Options) : Prop :=
  truthy (opt_clearCredentials o) = false
  ∧ truthy (opt_clearDistCert o) = false
  ∧ truthy (opt_clearPushKey o) = false
  ∧ truthy (opt_clearPushCert o) = false
  ∧ truthy (opt_clearProvisioningProfile o) = false.
End CallArguments.

(** The builder of a project whose manifest names [owner]. *)
Definition with_owner (owner : string) (this : Builder) : Builder :=
  mkBuilder (options this)
    (mkManifest (Some owner) (manifest_slug (manifest this))
       (manifest_ios (manifest this)))
    (projectDir this) (builder_user this).

(** * The rest of the builder: the build itself and the project checks *)

Module IOSBuild.

Local Open Scope eff_scope.

(** The options [run] reads itself: [this.options.type] and
    [this.options.publicUrl]. *)
Record BuildOptions := mkBuildOptions {
  opt_type : option string;
  opt_publicUrl : option string;
}.

(** The icons of [this.manifest]: [manifest.ios?.icon], nullish when there
    is no [ios] section or no icon in it, and [manifest.icon]. *)
Record Icons := mkIcons {
  manifest_ios_icon : option string;
  manifest_icon : option string;
}.

(** What [this] holds besides the world of the collaborators: the
    [appleCtx] field. *)
Record BuilderState `{Collaborators} := mkBuilderState {
  world : World;
  appleCtx : option AppleCtx;
}.

(** What the rest of the builder is given: the methods it inherits from
    [BaseBuilder], the helpers of [../utils], of [./utils/image] and of the
    eject command, the Apple API, and [os] and [semver]. The inherited
    methods read [this.options.type], which [run] has just set: they are
    given it, and they are taken to leave the options as they are.
    [manifest_sdkVersion] and [manifest_icons] are [this.manifest] as it is
    when it is read. *)
Class BuildCollaborators `{Collaborators} := {
  PublishedExpIds : Type;
  (** [PLATFORMS.IOS]. *)
  PLATFORMS_IOS : string;
  (** [utils.askBuildType(type, descriptions)]. *)
  askBuildType :
    option string → list (string * string) → World → Outcome string * World;
  checkForBuildInProgress : string → World → Outcome unit * World;
  ensureReleaseExists : string → World → Outcome PublishedExpIds * World;
  checkStatusBeforeBuild : string → World → Outcome unit * World;
  build : string → option PublishedExpIds → World → Outcome unit * World;
  os_platform : string;
  os_release : string;
  semver_satisfies : string → string → bool;

  apple_setup : World → Outcome unit * World;
  apple_authenticate : Options → World → Outcome AppleCtx * World;

  super_checkProjectConfig : World → Outcome unit * World;
  manifest_sdkVersion : World → option string;
  manifest_icons : World → Icons;
  checkIfSdkIsSupported : option string → string → World → Outcome unit * World;
  ensurePNGIsNotTransparent : string → World → Outcome unit * World;
  getOrPromptForBundleIdentifier : string → World → Outcome string * World;
  updateProjectConfig : World → Outcome unit * World;
}.

Inductive BuildEvent `{BuildCollaborators} :=
| EvBuilder (ev : Event)
| EvAskBuildType (type : option string) (descriptions : list (string * string))
| EvAddNewLineIfNone
| EvCheckForBuildInProgress
| EvEnsureReleaseExists
| EvCheckStatusBeforeBuild
| EvBuild (type : string) (publishedExpIds : option PublishedExpIds)
| EvAppleSetup
| EvAppleAuthenticate (o : Options)
| EvSuperCheckProjectConfig
| EvCheckIfSdkIsSupported (sdkVersion : option string) (platform : string)
| EvEnsurePNGIsNotTransparent (icon : string)
| EvGetOrPromptForBundleIdentifier (projectDir : string)
| EvUpdateProjectConfig.

(** [a ?? b]. *)
Definition nullish_coalescing {A} (a b : option A) : option A :=
  match a with
  | Some x => Some x
  | None => b
  end.

Definition double_quote : string := String (ascii_of_nat 34) EmptyString.

Section Build.
Context `{BuildCollaborators}.
Variable this : Builder.

Local Abbreviation Cmd := (M World BuildEvent).

(** A computation of the credential phase, run as part of the build: its
    calls are recorded as calls of the builder. *)
Definition as_builder {A} (m : M World Event A) : Cmd A :=
  λ w, let '(r, w', t) := m w in (r, w', EvBuilder <$> t).

(** A call of a collaborator: recorded, then run. *)
Definition invoke {A} (ev : BuildEvent) (f : World → Outcome A * World)
  : Cmd A :=
  emit ev ;; step f.

Definition maybeWarnDamagedSimulator (type : option string) : Cmd unit :=
  let isMacOsCatalinaOrLater :=
    bool_decide (os_platform = "darwin")
    && semver_satisfies os_release ">=19.0.0" in
  if isMacOsCatalinaOrLater && bool_decide (type = Some "simulator") then
    emit (EvBuilder EvLogNewLine) ;;
    emit (EvBuilder
            (EvLog ("🚨 If the build is not installable on your simulator because of "
                    +:+ double_quote +:+ "... is damaged and can't be opened."
                    +:+ double_quote +:+ ", please run:"))) ;;
    emit (EvBuilder (EvLog "xattr -rd com.apple.quarantine /path/to/your.app"))
  else ret tt.

Definition ensureProjectIsPublished (o : BuildOptions) (type : string)
  : Cmd (option PublishedExpIds) :=
  match truthy_string (opt_publicUrl o) with
  | Some _ => ret None
  | None =>
      publishedExpIds <-
        invoke EvEnsureReleaseExists (ensureReleaseExists type) ;;
      ret (Some publishedExpIds)
  end.

Definition platform : string := PLATFORMS_IOS.

Definition run (o : BuildOptions) : Cmd unit :=
  let descriptions :=
    [("archive", "Deploy the build to the store");
     ("simulator", "Run the build on a simulator")] in
  type <-
    invoke (EvAskBuildType (opt_type o) descriptions)
      (askBuildType (opt_type o) descriptions) ;;
  maybeWarnDamagedSimulator (Some type) ;;
  emit EvAddNewLineIfNone ;;
  invoke EvCheckForBuildInProgress (checkForBuildInProgress type) ;;
  (if bool_decide (type = "archive") then as_builder (prepareCredentials this)
   else ret tt) ;;
  publishedExpIds <- ensureProjectIsPublished o type ;;
  match truthy_string (opt_publicUrl o) with
  | Some _ => ret tt
  | None => invoke EvCheckStatusBeforeBuild (checkStatusBeforeBuild type)
  end ;;
  invoke (EvBuild type publishedExpIds) (build type publishedExpIds) ;;
  maybeWarnDamagedSimulator (Some type).

Definition validateIcon : Cmd unit :=
  try_catch
    (icons <- gets manifest_icons ;;
     let icon :=
       nullish_coalescing (manifest_ios_icon icons) (manifest_icon icons) in
     match truthy_string icon with
     | None => ret tt
     | Some icon =>
         invoke (EvEnsurePNGIsNotTransparent icon)
           (ensurePNGIsNotTransparent icon)
     end)
    (λ err,
       match exn_class err with
       | XDLError => throw err
       | _ => ret tt
       end).

Definition checkProjectConfig : Cmd unit :=
  invoke EvSuperCheckProjectConfig super_checkProjectConfig ;;
  sdkVersion <- gets manifest_sdkVersion ;;
  invoke (EvCheckIfSdkIsSupported sdkVersion PLATFORMS_IOS)
    (checkIfSdkIsSupported sdkVersion PLATFORMS_IOS) ;;
  validateIcon ;;
  invoke (EvGetOrPromptForBundleIdentifier (projectDir this))
    (getOrPromptForBundleIdentifier (projectDir this)) ;;
  invoke EvUpdateProjectConfig updateProjectConfig.

(** A call of the Apple API, on the world the builder's state holds. *)
Definition on_world {A} (f : World → Outcome A * World)
  : M BuilderState BuildEvent A :=
  step (λ s,
          let '(r, w) := f (world s) in
          (r, {| world := w; appleCtx := appleCtx s |})).

Definition getAppleCtx : M BuilderState BuildEvent AppleCtx :=
  cached <- gets appleCtx ;;
  match cached with
  | Some appleCtx => ret appleCtx
  | None =>
      emit EvAppleSetup ;;
      on_world apple_setup ;;
      emit (EvAppleAuthenticate (options this)) ;;
      authenticated <- on_world (apple_authenticate (options this)) ;;
      step (λ s,
              (Return tt,
               {| world := world s; appleCtx := Some authenticated |})) ;;
      ret authenticated
  end.
End Build.

End IOSBuild.

(** * The podspec of ExpoKit *)

Module ExpoKitPodspec.
Import IosPodsTools.

Local Open Scope eff_scope.

Section Podspec.
Context `{Platform}.

End Podspec.

(** A dependency without its [otherPodfileFlags]. *)
Definition without_flags (dependency : Dependency) : Dependency :=
  mkDependency (dep_comments dependency) (dep_name dependency)
    (dep_version dependency) None.

End ExpoKitPodspec.

(** * Vocabulary of the build *)

Import IOSBuild.

Section BuildVocabulary.
Context `{BuildCollaborators}.

(** The two build types [run] offers. *)
Definition build_types : list (string * string) :=
  [("archive", "Deploy the build to the store");
   ("simulator", "Run the build on a simulator")].

Definition is_build (ev : BuildEvent) : bool :=
  match ev with
  | EvBuild _ _ => true
  | _ => false
  end.

(** A line of the warning about damaged simulator builds. *)
Definition is_warning (ev : BuildEvent) : bool :=
  match ev with
  | EvBuilder EvLogNewLine | EvBuilder (EvLog _) => true
  | _ => false
  end.

(** A call that publishes the project or checks the status of the
    build service. *)
Definition is_publication (ev : BuildEvent) : bool :=
  match ev with
  | EvEnsureReleaseExists | EvCheckStatusBeforeBuild => true
  | _ => false
  end.

(** The published ids [build] is given, if the call is [build]. *)
Definition built_with (ev : BuildEvent) : option (option PublishedExpIds) :=
  match ev with
  | EvBuild _ publishedExpIds => Some publishedExpIds
  | _ => None
  end.

(** The icon [validateIcon] looks at. *)
Definition icon_of (icons : Icons) : option string :=
  truthy_string
    (nullish_coalescing (manifest_ios_icon icons) (manifest_icon icons)).
End BuildVocabulary.

(** ** A build service to run the builder on

    [BaseBuilder], the helpers and the Apple API are outside the
    repository. [BuildService] stands in for them where the builder is run
    on concrete inputs, over the credential store of [SpecModel]: the build
    type asked for is the one given, or [archive]; publishing gives one
    release; an icon named [transparent.png] is refused with an [XDLError]
    and one named [missing.png] cannot be read. The properties below hold
    for every collaborator. *)

Module BuildService.
Import SpecModel.

Definition check_icon (icon : string) (w : SpecWorld)
  : Outcome unit * SpecWorld :=
  if bool_decide (icon = "transparent.png") then
    (Throw (mkException XDLError (Some "INVALID_ASSETS")
              "Your application icon can't have transparency"), w)
  else if bool_decide (icon = "missing.png") then
    (Throw (mkException JsError (Some "ENOENT") "no such file or directory"),
     w)
  else (Return tt, w).

Definition sign_in (o : Options) (w : SpecWorld) : Outcome string * SpecWorld :=
  match authenticate (opt_appleId o) w with
  | (Return _, w1) => (Return (default "operator" (session w1)), w1)
  | (Throw err, w1) => (Throw err, w1)
  end.

#[global] Instance service (icons : Icons)
  : @BuildCollaborators collaborators := {|
  PublishedExpIds := list string;
  PLATFORMS_IOS := "ios";
  askBuildType := λ type _ w, (Return (default "archive" type), w);
  checkForBuildInProgress := λ _ w, (Return tt, w);
  ensureReleaseExists := λ _ w, (Return ["release-1"], w);
  checkStatusBeforeBuild := λ _ w, (Return tt, w);
  build := λ _ _ w, (Return tt, w);
  os_platform := "darwin";
  os_release := "19.6.0";
  semver_satisfies := λ _ _, true;
  apple_setup := λ w, (Return tt, w);
  apple_authenticate := sign_in;
  super_checkProjectConfig := λ w, (Return tt, w);
  manifest_sdkVersion := λ _, Some "38.0.0";
  manifest_icons := λ _, icons;
  checkIfSdkIsSupported := λ _ _ w, (Return tt, w);
  ensurePNGIsNotTransparent := check_icon;
  getOrPromptForBundleIdentifier := λ _ w, (Return "com.acme.app", w);
  updateProjectConfig := λ w, (Return tt, w);
|}.

Definition no_icons : Icons := mkIcons None None.
End BuildService.

(** * Vocabulary of the Podfile tooling *)

(** The keys of the substitutions [renderPodfileAsync] computes itself. *)
Definition computedKeys : list string :=
  ["EXPONENT_CLIENT_DEPS"; "EXPOKIT_DEPENDENCY";
   "PODFILE_UNVERSIONED_EXPO_MODULES_DEPENDENCIES";
   "PODFILE_UNVERSIONED_RN_DEPENDENCY"; "PODFILE_UNVERSIONED_POSTINSTALL";
   "PODFILE_DETACHED_POSTINSTALL"; "PODFILE_DETACHED_SERVICE_POSTINSTALL";
   "PODFILE_VERSIONED_RN_DEPENDENCIES"; "PODFILE_VERSIONED_POSTINSTALLS";
   "PODFILE_TEST_TARGET"].

(** The error of [fs.readFile] on a file that is not there. *)
Definition ENOENT (path : string) : Exception :=
  mkException JsError (Some "ENOENT")
    ("ENOENT: no such file or directory, open '" +:+ path +:+ "'").

Section ComputedEntries.
Import IosPodsTools.
Context `{Platform}.

(** What [renderPodfileAsync] renders for a key of its own, on the files
    [fs] and from the caller's entries: the text of the substitution, or
    the error its rendering throws. *)
Definition computed_entry (pathToTemplate : string)
    (moreSubstitutions : JsObject) (shellAppSdkVersion sdkVersion : option string)
    (fs : FileSystem) (key : string) : Outcome string :=
  let sdkVersion := default "UNVERSIONED" sdkVersion in
  let templatesDirectory := path_dirname pathToTemplate in
  let given := obj_get moreSubstitutions in
  let or_else (value fallback : Value) :=
    if truthy_value value then value else fallback in
  match key with
  | "EXPONENT_CLIENT_DEPS" =>
      dependenciesConfigPath ←
        path_join [VString templatesDirectory; VString "dependencies.json"];
      outcome (_renderPodDependenciesAsync dependenciesConfigPath true fs)
  | "EXPOKIT_DEPENDENCY" =>
      _renderExpoKitDependency
        (if truthy_value (given "EXPOKIT_PATH") then
           mkExpoKitOptions (given "EXPOKIT_PATH") VUndefined
         else if truthy_value (given "EXPOKIT_TAG") then
           mkExpoKitOptions VUndefined (given "EXPOKIT_TAG")
         else mkExpoKitOptions VUndefined VUndefined)
        sdkVersion
  | "PODFILE_UNVERSIONED_EXPO_MODULES_DEPENDENCIES" =>
      _renderUnversionedUniversalModulesDependencies
        (or_else (given "UNIVERSAL_MODULES") (VModules []))
        (given "UNIVERSAL_MODULES_PATH") sdkVersion
  | "PODFILE_UNVERSIONED_RN_DEPENDENCY" =>
      _renderUnversionedReactNativeDependency
        (if truthy_value (given "REACT_NATIVE_PATH") then
           mkRnOptions (given "REACT_NATIVE_PATH")
         else mkRnOptions VUndefined)
        sdkVersion
  | "PODFILE_UNVERSIONED_POSTINSTALL" =>
      _renderUnversionedPostinstall sdkVersion
  | "PODFILE_DETACHED_POSTINSTALL" =>
      _renderDetachedPostinstall sdkVersion false
  | "PODFILE_DETACHED_SERVICE_POSTINSTALL" =>
      _renderDetachedPostinstall sdkVersion true
  | "PODFILE_VERSIONED_RN_DEPENDENCIES" =>
      outcome
        (_renderVersionedReactNativeDependenciesAsync templatesDirectory
           (or_else (given "VERSIONED_REACT_NATIVE_PATH")
              (VString "./versioned-react-native"))
           (or_else (given "REACT_NATIVE_EXPO_SUBSPECS") (VStrings ["Expo"]))
           shellAppSdkVersion fs)
  | "PODFILE_VERSIONED_POSTINSTALLS" =>
      outcome
        (_renderVersionedReactNativePostinstallsAsync templatesDirectory
           shellAppSdkVersion fs)
  | "PODFILE_TEST_TARGET" =>
      Return
        (if bool_decide (is_Some (truthy_string shellAppSdkVersion)) then ""
         else _renderTestTarget (given "REACT_NATIVE_PATH"))
  | _ => Throw (mkException JsError None ("not a computed key: " +:+ key))
  end.
End ComputedEntries.

(** ** A platform with dependency files

    [NodePlatform] with a reader of dependency files that knows two of
    them: [flagged] holds one dependency with additional Podfile flags,
    [plain] holds the same dependency without them. *)

Module DependencyFiles.
Import IosPodsTools.

Definition amplitude (otherPodfileFlags : option string) : Dependency :=
  mkDependency (Some ["Analytics"]) "Amplitude-iOS" "~> 4.7"
    otherPodfileFlags.

Definition read_dependencies (path : string) (fs : FileSystem)
  : Outcome (option (list Dependency)) :=
  match fs !! path with
  | None => Throw (ENOENT path)
  | Some "flagged" =>
      Return (Some [amplitude (Some ", :modular_headers => true")])
  | Some "plain" => Return (Some [amplitude None])
  | Some _ => Return None
  end.

#[global] Instance platform : Platform := {|
  parseSdkMajorVersion := NodePlatform.major_version;
  indentString := λ s count,
    NodePlatform.indent_lines (NodePlatform.spaces count) true s;
  JSON_stringify := NodePlatform.stringify;
  path_join := NodePlatform.join_path;
  path_dirname := NodePlatform.dirname;
  glob := NodePlatform.find_files;
  array_sort := merge_sort NodePlatform.string_le;
  JsonFile_readAsync := read_dependencies;
  EXPO_UNIVERSE_DIR := None;
  toUpperCase := @toUpperCase NodePlatform.platform;
  matches_version := NodePlatform.version_like;
  replace_dots := @replace_dots NodePlatform.platform;
  endsWith := NodePlatform.ends_with;
  replace_placeholder := @replace_placeholder NodePlatform.platform;
  fs_writeFile_error := NodePlatform.write_error;
|}.
End DependencyFiles.

(** * Properties of the effects *)

Section EffectLemmas.
Context {S E : Type}.
Implicit Types (P : E → Prop) (s : S).

Lemma bind_run {A B} (m : M S E A) (k : A → M S E B) s :
  bind m k s =
    match m s with
    | (Return a, s1, t1) => let '(r, s2, t2) := k a s1 in (r, s2, t1 ++ t2)
    | (Throw e, s1, t1) => (Throw e, s1, t1)
    end.
Proof. reflexivity. Qed.

Lemma bind_Return {A B} (m : M S E A) (k : A → M S E B) s a s1 t1 :
  m s = (Return a, s1, t1) →
  bind m k s = (outcome (k a s1), final (k a s1), t1 ++ events (k a s1)).
Proof.
  intros Hm. rewrite bind_run, Hm. by destruct (k a s1) as [[??]?].
Qed.

Lemma bind_gets {A B} (f : S → A) (k : A → M S E B) s :
  bind (gets f) k s = k (f s) s.
Proof. rewrite bind_run. simpl. by destruct (k (f s) s) as [[??]?]. Qed.

Lemma emits_ret {A} P (a : A) : emits P (ret a : M S E A).
Proof. intros s. constructor. Qed.

Lemma emits_throw {A} P e : emits P (throw e : M S E A).
Proof. intros s. constructor. Qed.

Lemma emits_gets {A} P (f : S → A) : emits P (gets f : M S E A).
Proof. intros s. constructor. Qed.

Lemma emits_lift {A} P (o : Outcome A) : emits P (lift o : M S E A).
Proof. intros s. constructor. Qed.

Lemma emits_step {A} P (f : S → Outcome A * S) : emits P (step f : M S E A).
Proof. intros s. unfold step, events. destruct (f s). constructor. Qed.

Lemma emits_emit P ev : P ev → emits P (emit ev : M S E unit).
Proof. intros Hev s. by repeat constructor. Qed.

Lemma emits_bind {A B} P (m : M S E A) (k : A → M S E B) :
  emits P m → (∀ a, emits P (k a)) → emits P (bind m k).
Proof.
  intros Hm Hk s. specialize (Hm s). rewrite bind_run.
  destruct (m s) as [[[a|e] s1] t1]; [|done].
  specialize (Hk a s1). destruct (k a s1) as [[r s2] t2].
  by apply Forall_app.
Qed.

Lemma emits_try_catch {A} P (m : M S E A) (h : Exception → M S E A) :
  emits P m → (∀ e, emits P (h e)) → emits P (try_catch m h).
Proof.
  intros Hm Hh s. specialize (Hm s). unfold try_catch.
  destruct (m s) as [[[a|e] s1] t1]; [done|].
  specialize (Hh e s1). destruct (h e s1) as [[r s2] t2].
  by apply Forall_app.
Qed.

Lemma emits_try_finally {A} P (m : M S E A) (f : M S E unit) :
  emits P m → emits P f → emits P (try_finally m f).
Proof.
  intros Hm Hf s. specialize (Hm s). unfold try_finally.
  destruct (m s) as [[r s1] t1].
  specialize (Hf s1). destruct (f s1) as [[[[]|e] s2] t2];
    by apply Forall_app.
Qed.

Lemma triple_ret {A} (P : S → Prop) (T : E → Prop) (a : A) :
  triple P (ret a : M S E A) P T.
Proof. intros s HP. split; [done|constructor]. Qed.

Lemma triple_weaken {A} (P P' Q Q' : S → Prop) (T : E → Prop) (m : M S E A) :
  (∀ s, P' s → P s) → (∀ s, Q s → Q' s) →
  triple P m Q T → triple P' m Q' T.
Proof. intros HP HQ Hm s Hs. destruct (Hm s (HP s Hs)). auto. Qed.

Lemma triple_bind {A B} (P Q R : S → Prop) (T : E → Prop) (m : M S E A)
    (k : A → M S E B) :
  triple P m Q T → (∀ s, Q s → R s) → (∀ a, triple Q (k a) R T) →
  triple P (bind m k) R T.
Proof.
  intros Hm HQR Hk s Hs. destruct (Hm s Hs) as [HQ HT].
  rewrite bind_run. destruct (m s) as [[[a|e] s1] t1]; [|auto].
  destruct (Hk a s1 HQ) as [HR HT']. destruct (k a s1) as [[r s2] t2].
  split; [done|]. by apply Forall_app.
Qed.

Lemma triple_bind_gets {A B} (P R : S → Prop) (T : E → Prop) (f : S → A)
    (k : A → M S E B) :
  (∀ s0, P s0 → triple (λ s, s = s0) (k (f s0)) R T) →
  triple P (bind (gets f) k) R T.
Proof. intros Hk s Hs. rewrite bind_gets. by apply (Hk s Hs). Qed.


Lemma returns_bind {A B} (P : B → Prop) (m : M S E A) (k : A → M S E B) :
  (∀ a, returns P (k a)) → returns P (bind m k).
Proof.
  intros Hk s b. rewrite bind_run. unfold outcome.
  destruct (m s) as [[[a|e] s1] t1]; [|done].
  specialize (Hk a s1 b). unfold outcome in Hk.
  by destruct (k a s1) as [[r s2] t2].
Qed.

Lemma quiet_ret {A} (a : A) : quiet (ret a : M S E A).
Proof. done. Qed.

Lemma quiet_throw {A} e : quiet (throw e : M S E A).
Proof. done. Qed.

Lemma quiet_lift {A} (o : Outcome A) : quiet (lift o : M S E A).
Proof. done. Qed.

Lemma quiet_gets {A} (f : S → A) : quiet (gets f : M S E A).
Proof. done. Qed.

Lemma quiet_read {A} (f : S → Outcome A) :
  quiet (step (λ s, (f s, s)) : M S E A).
Proof. done. Qed.

Lemma quiet_bind {A B} (m : M S E A) (k : A → M S E B) :
  quiet m → (∀ a, quiet (k a)) → quiet (bind m k).
Proof.
  intros Hm Hk s. destruct (Hm s) as [Hs Ht]. rewrite bind_run.
  unfold final, events in *.
  destruct (m s) as [[[a|e] s1] t1]; simpl in *; subst; [|done].
  destruct (Hk a s) as [Hs' Ht']. unfold final, events in *.
  by destruct (k a s) as [[r s2] t2]; simpl in *; subst.
Qed.
End EffectLemmas.

(** Decompose a computation into its calls, to show what it emits. *)
Ltac emits_steps :=
  repeat first
    [ apply emits_ret | apply emits_throw | apply emits_gets
    | apply emits_lift | apply emits_step
    | apply emits_bind; [|intros ?]
    | apply emits_try_catch; [|intros ?]
    | apply emits_try_finally
    | apply emits_emit
    | progress simpl
    | case_match ].

(** * Properties of the credential phase *)

(** Running the combinators. *)
Ltac unfold_eff :=
  cbv [bind ret throw gets emit step lift call log try_catch try_finally].

Section AuthenticationGate.
Context `{Collaborators}.
Variable this : Builder.

(** C8. The best-effort authentication gate: with a session already
    there it returns at once, with nothing asked or done; otherwise, with
    an [appleId] among the options it authenticates at once, unprompted;
    otherwise, in non-interactive mode it returns with nothing asked or
    done; otherwise it asks the operator, and on a negative answer it
    returns normally without authenticating (on a positive one it
    authenticates). *)
Theorem bestEffortAppleCtx_gate (w : World) :
  (is_Some (ctx_appleCtx w) →
   bestEffortAppleCtx this w = (Return tt, w, []))
  ∧ (ctx_appleCtx w = None →
     is_Some (truthy_string (opt_appleId (options this))) →
     bestEffortAppleCtx this w =
       (let '(r, w') := ctx_ensureAppleCtx (options this) w in
        (r, w', [EvEnsureAppleCtx (options this)])))
  ∧ (ctx_appleCtx w = None →
     truthy_string (opt_appleId (options this)) = None →
     nonInteractive this = true →
     bestEffortAppleCtx this w = (Return tt, w, []))
  ∧ (ctx_appleCtx w = None →
     truthy_string (opt_appleId (options this)) = None →
     nonInteractive this = false →
     ∀ w', prompt_confirm access_question w = (Return false, w') →
     ∃ message,
       bestEffortAppleCtx this w =
         (Return tt, w', [EvPrompt access_question; EvLog message]))
  ∧ (ctx_appleCtx w = None →
     truthy_string (opt_appleId (options this)) = None →
     nonInteractive this = false →
     ∀ w', prompt_confirm access_question w = (Return true, w') →
     bestEffortAppleCtx this w =
       (let '(r, w'') := ctx_ensureAppleCtx (options this) w' in
        (r, w'', [EvPrompt access_question; EvEnsureAppleCtx (options this)]))).
Proof.
  unfold bestEffortAppleCtx, access_question.
  repeat split.
  - intros Hsession. unfold_eff.
    rewrite (bool_decide_eq_true_2 _ Hsession). done.
  - intros Hnone [appleId HappleId]. unfold_eff.
    rewrite Hnone, HappleId.
    rewrite bool_decide_eq_false_2 by (intros [? ?]; done). simpl.
    by destruct (ctx_ensureAppleCtx _ _) as [[?|?] ?].
  - intros Hnone HappleId Hni. unfold_eff.
    rewrite Hnone, HappleId, Hni.
    rewrite bool_decide_eq_false_2 by (intros [? ?]; done). done.
  - intros Hnone HappleId Hni w' Hanswer. unfold_eff.
    rewrite Hnone, HappleId, Hni.
    rewrite bool_decide_eq_false_2 by (intros [? ?]; done). simpl.
    rewrite Hanswer. simpl. eauto.
  - intros Hnone HappleId Hni w' Hanswer. unfold_eff.
    rewrite Hnone, HappleId, Hni.
    rewrite bool_decide_eq_false_2 by (intros [? ?]; done). simpl.
    rewrite Hanswer. simpl.
    by destruct (ctx_ensureAppleCtx _ _) as [[?|?] ?].
Qed.
End AuthenticationGate.

(** The gate on concrete inputs: a session already there; an [appleId]
    among the options; non-interactive mode; an operator who answers no;
    an operator who answers yes. *)
Lemma bestEffortAppleCtx_gate_witness :
  let with_appleId :=
    Inputs.builder_with
      (mkOptions (Some "dev@acme.example") None None None None None None None
         None None []) in
  let non_interactive :=
    Inputs.builder_with
      (mkOptions None None (Some (mkParent (Some true))) None None None None
         None None None []) in
  let interactive := Inputs.builder_with Inputs.no_options in
  let signed_in := SpecModel.with_session (Some "dev") Inputs.empty_world in
  let willing := SpecModel.mkWorld ∅ None [] [] [] true in
  @bestEffortAppleCtx SpecModel.collaborators interactive signed_in
  = (Return tt, signed_in, [])
  ∧ @bestEffortAppleCtx SpecModel.collaborators with_appleId Inputs.empty_world
    = (Return tt,
       SpecModel.with_session (Some "dev@acme.example") Inputs.empty_world,
       [EvEnsureAppleCtx (options with_appleId)])
  ∧ @bestEffortAppleCtx SpecModel.collaborators non_interactive
      Inputs.empty_world
    = (Return tt, Inputs.empty_world, [])
  ∧ (∃ message,
       @bestEffortAppleCtx SpecModel.collaborators interactive
         Inputs.empty_world
       = (Return tt, Inputs.empty_world,
          [EvPrompt access_question; EvLog message]))
  ∧ @bestEffortAppleCtx SpecModel.collaborators interactive willing
    = (Return tt, SpecModel.with_session (Some "operator") willing,
       [EvPrompt access_question; EvEnsureAppleCtx (options interactive)]).
Proof.
  intros with_appleId non_interactive interactive signed_in willing.
  split; [|split; [|split; [|split]]].
  - apply (proj1 (@bestEffortAppleCtx_gate SpecModel.collaborators
                    interactive signed_in)).
    vm_compute. eauto.
  - apply (proj1 (proj2 (@bestEffortAppleCtx_gate SpecModel.collaborators
                           with_appleId Inputs.empty_world))).
    + reflexivity.
    + vm_compute. eauto.
  - apply (proj1 (proj2 (proj2 (@bestEffortAppleCtx_gate
                                  SpecModel.collaborators non_interactive
                                  Inputs.empty_world)))); reflexivity.
  - apply (proj1 (proj2 (proj2 (proj2 (@bestEffortAppleCtx_gate
                                         SpecModel.collaborators interactive
                                         Inputs.empty_world)))))
      with (w' := Inputs.empty_world); reflexivity.
  - apply (proj2 (proj2 (proj2 (proj2 (@bestEffortAppleCtx_gate
                                         SpecModel.collaborators interactive
                                         willing)))))
      with (w' := willing); reflexivity.
Defined.

Section MissingBundleIdentifier.
Context `{Collaborators}.

(** C9. Without an [ios.bundleIdentifier] in the manifest (absent, or
    empty), [prepareCredentials] throws the INVALID_OPTIONS error before
    anything else: it makes no call at all (no clearing, no prompt, no
    production, no report) and leaves the credential store, like
    everything else, as it was. *)
Theorem prepareCredentials_missing_bundleIdentifier
    (this : Builder) (w : World) :
  truthy_string (manifest_ios (manifest this) ≫= ios_bundleIdentifier) = None →
  prepareCredentials this w = (Throw missingBundleIdentifierError, w, [])
  ∧ exn_class missingBundleIdentifierError = XDLError
  ∧ exn_code missingBundleIdentifierError = Some "INVALID_OPTIONS".
Proof.
  intros Hmissing. unfold prepareCredentials.
  rewrite Hmissing. done.
Qed.
End MissingBundleIdentifier.

(** A manifest without an [ios] section. *)
Lemma prepareCredentials_missing_bundleIdentifier_witness :
  let this :=
    mkBuilder Inputs.no_options (mkManifest (Some "acme") "app" None)
      "/projects/app" None in
  @prepareCredentials SpecModel.collaborators this Inputs.stocked_world
  = (Throw missingBundleIdentifierError, Inputs.stocked_world, [])
  ∧ exn_class missingBundleIdentifierError = XDLError
  ∧ exn_code missingBundleIdentifierError = Some "INVALID_OPTIONS".
Proof.
  apply (@prepareCredentials_missing_bundleIdentifier SpecModel.collaborators
           (mkBuilder Inputs.no_options (mkManifest (Some "acme") "app" None)
              "/projects/app" None)
           Inputs.stocked_world).
  reflexivity.
Defined.

(** ** What each phase calls *)

Section Phases.
Context `{Collaborators}.
Variable this : Builder.

(** The clear phase only removes, and only what the request holds. *)
Lemma clearCredentials_emits (e b : string) (m : gmap string bool) :
  emits (λ ev, ∃ k, cleared_entry ev = Some k ∧ m !! k = Some true)
    (clearCredentials this e b m).
Proof.
  assert (Hm : ∀ k, truthy (m !! k) = true → m !! k = Some true).
  { intros k. by destruct (m !! k) as [[]|]. }
  unfold clearCredentials. emits_steps; eauto.
Qed.

(** The gate only prompts, authenticates and logs. *)
Lemma bestEffortAppleCtx_emits :
  emits (λ ev, is_clear ev = false ∧ is_production ev = false
               ∧ is_report ev = false)
    (bestEffortAppleCtx this).
Proof.
  unfold bestEffortAppleCtx, log. emits_steps; done.
Qed.

(** The production phase neither clears, nor authenticates, nor reports. *)
Lemma produceCredentials_emits (e b : string) :
  emits (λ ev, is_clear ev = false ∧ is_authentication ev = false
               ∧ is_report ev = false)
    (produceCredentials this e b).
Proof.
  unfold produceCredentials, _setupDistCert, _setupPushCert,
    _setupProvisioningProfile.
  emits_steps; done.
Qed.
End Phases.

(** ** The production phase, step by step *)

Section Production.
Context `{Collaborators}.
Variable this : Builder.
Implicit Types (e b : string) (w : World).

Lemma registration_run e b w :
  registration e b w =
    match ctx_appleCtx w with
    | Some a =>
        let '(r, w1) := apple_ensureAppExists a e b true w in
        (r, w1, [EvEnsureAppExists a e b true])
    | None => (Return tt, w, [])
    end.
Proof.
  cbv [registration bind gets call emit step ret].
  destruct (ctx_appleCtx w) as [a|]; [|done].
  by destruct (apple_ensureAppExists a e b true w) as [[?|?] ?].
Qed.

(** [produceCredentials] as the sequence of its steps. *)
Lemma produceCredentials_steps e b w :
  produceCredentials this e b w =
    (registration e b ;;
     _setupDistCert this e b (ios_getAppCredentials e b w) ;;
     distributionCert <- gets (ios_getDistCert e b) ;;
     match distributionCert with
     | None => throw INSUFFICIENT_CREDENTIALS
     | Some distributionCert =>
         _setupPushCert this e b (ios_getAppCredentials e b w) ;;
         _setupProvisioningProfile this e b (ios_getAppCredentials e b w)
           distributionCert
     end)%eff w.
Proof.
  cbv [produceCredentials registration bind gets ret throw call emit step
       INSUFFICIENT_CREDENTIALS].
  repeat case_match; by simplify_eq/=.
Qed.

(** The shape every credential type's step has. *)
Lemma resolver_run_intro {P} n message
    (getParams : World → Outcome (option P) * World)
    (use_ev : P → Event) (use : P → World → Outcome unit * World)
    (run_ev : Event) (run : World → Outcome unit * World) w :
  (∀ p, stage (use_ev p) = Some n) → stage run_ev = Some n →
  let r :=
    try_catch
      (p <- step getParams ;;
       match p with
       | Some p => call (use_ev p) (use p)
       | None => call run_ev run
       end)%eff
      (λ err, emit (EvLogError message) ;; throw err)%eff w in
  resolver_run n message (outcome r) (events r).
Proof.
  intros Huse Hrun.
  cbv [try_catch bind step call emit throw outcome events fst snd].
  destruct (getParams w) as [[[p|]|err] w1]; simpl.
  - destruct (use p w1) as [[[]|err] w2]; simpl; by constructor.
  - destruct (run w1) as [[[]|err] w2]; simpl; by constructor.
  - constructor.
Qed.

Lemma _setupDistCert_run e b app w :
  resolver_run 1 "Failed to set up Distribution Certificate"
    (outcome (_setupDistCert this e b app w))
    (events (_setupDistCert this e b app w)).
Proof. by apply resolver_run_intro. Qed.

Lemma _setupPushCert_run e b app w :
  resolver_run 2 "Failed to set up Push Key"
    (outcome (_setupPushCert this e b app w))
    (events (_setupPushCert this e b app w)).
Proof. by apply resolver_run_intro. Qed.

Lemma _setupProvisioningProfile_run e b app dc w :
  resolver_run 3 "Failed to set up Provisioning Profile"
    (outcome (_setupProvisioningProfile this e b app dc w))
    (events (_setupProvisioningProfile this e b app dc w)).
Proof. by apply resolver_run_intro. Qed.

(** The profile's resolver is given the certificate the step is given. *)
Lemma _setupProvisioningProfile_distCert e b app dc :
  emits (λ ev, stage ev = Some 3 → profile_distCert ev = Some dc)
    (_setupProvisioningProfile this e b app dc).
Proof. unfold _setupProvisioningProfile. emits_steps; done. Qed.

Lemma registration_emits e b :
  emits (λ ev, stage ev = Some 0) (registration e b).
Proof. unfold registration, call. emits_steps; done. Qed.

(** How far a run of [produceCredentials] gets, and what it then is. *)
Lemma produceCredentials_cases e b w :
  let app := ios_getAppCredentials e b w in
  let run := produceCredentials this e b w in
  ∃ r0 w1 t0,
    registration e b w = (r0, w1, t0) ∧
    match r0 with
    | Throw err => run = (Throw err, w1, t0)
    | Return _ =>
        ∃ r1 w2 t1,
          _setupDistCert this e b app w1 = (r1, w2, t1) ∧
          match r1 with
          | Throw err => run = (Throw err, w2, t0 ++ t1)
          | Return _ =>
              match ios_getDistCert e b w2 with
              | None => run = (Throw INSUFFICIENT_CREDENTIALS, w2, t0 ++ t1)
              | Some dc =>
                  ∃ r2 w3 t2,
                    _setupPushCert this e b app w2 = (r2, w3, t2) ∧
                    match r2 with
                    | Throw err => run = (Throw err, w3, t0 ++ t1 ++ t2)
                    | Return _ =>
                        ∃ r3 w4 t3,
                          _setupProvisioningProfile this e b app dc w3
                          = (r3, w4, t3)
                          ∧ run = (r3, w4, t0 ++ t1 ++ t2 ++ t3)
                    end
              end
          end
    end.
Proof.
  intros app run. subst run. rewrite produceCredentials_steps. fold app.
  rewrite bind_run.
  destruct (registration e b w) as [[[[]|err] w1] t0];
    [|by eexists _, _, _].
  eexists _, _, _. split; [done|].
  rewrite bind_run.
  destruct (_setupDistCert this e b app w1) as [[[[]|err] w2] t1];
    [|by eexists _, _, _].
  eexists _, _, _. split; [done|].
  rewrite bind_gets.
  destruct (ios_getDistCert e b w2) as [dc|];
    [|unfold throw; simpl; by rewrite app_nil_r].
  rewrite bind_run.
  destruct (_setupPushCert this e b app w2) as [[[[]|err] w3] t2];
    [|by eexists _, _, _].
  eexists _, _, _. split; [done|].
  destruct (_setupProvisioningProfile this e b app dc w3) as [[r3 w4] t3].
  by eexists _, _, _.
Qed.

(** C2. The hard gate: once the distribution-certificate step has
    completed, the certificate is read from the store again, and if it is
    still absent [produceCredentials] fails with INSUFFICIENT_CREDENTIALS
    in the very state that step left: nothing runs after it, so neither
    the push-key resolver nor the provisioning-profile resolver (and with
    it any remote call for the profile) is invoked. *)
Theorem produceCredentials_hard_gate e b w w1 t1 w2 t2 :
  registration e b w = (Return tt, w1, t1) →
  _setupDistCert this e b (ios_getAppCredentials e b w) w1
  = (Return tt, w2, t2) →
  ios_getDistCert e b w2 = None →
  produceCredentials this e b w
  = (Throw INSUFFICIENT_CREDENTIALS, w2, t1 ++ t2)
  ∧ exn_code INSUFFICIENT_CREDENTIALS = Some "INSUFFICIENT_CREDENTIALS"
  ∧ Forall (λ ev, stage ev ≠ Some 2 ∧ stage ev ≠ Some 3) (t1 ++ t2).
Proof.
  intros Hreg Hdist Hcert.
  destruct (produceCredentials_cases e b w)
    as (r0 & w1' & t0 & Hreg' & Hrun); simpl in *.
  rewrite Hreg in Hreg'. simplify_eq.
  destruct Hrun as (r1 & w2' & t1' & Hdist' & Hrun).
  rewrite Hdist in Hdist'. simplify_eq.
  rewrite Hcert in Hrun. split; [done|]. split; [done|].
  apply Forall_app. split.
  - pose proof (registration_emits e b w) as Hev.
    rewrite Hreg in Hev. simpl in Hev.
    eapply Forall_impl; [exact Hev|]. intros ev ->. done.
  - pose proof (_setupDistCert_run e b (ios_getAppCredentials e b w) w1')
      as Hshape.
    rewrite Hdist in Hshape. simpl in Hshape. inversion Hshape as [ev Hev| |].
    repeat constructor; by rewrite Hev.
Qed.

Lemma registration_cases e b w r0 w1 t0 :
  registration e b w = (r0, w1, t0) →
  match ctx_appleCtx w with
  | Some a => t0 = [EvEnsureAppExists a e b true]
  | None => t0 = [] ∧ r0 = Return tt ∧ w1 = w
  end.
Proof.
  rewrite registration_run. destruct (ctx_appleCtx w) as [a|].
  - destruct (apple_ensureAppExists a e b true w). by intros [= _ _ <-].
  - by intros [= <- <- <-].
Qed.

Lemma certificate_step_run e b w w1 t0 w2 t1 :
  registration e b w = (Return tt, w1, t0) →
  _setupDistCert this e b (ios_getAppCredentials e b w) w1
  = (Return tt, w2, t1) →
  (registration e b ;;
   _setupDistCert this e b (ios_getAppCredentials e b w))%eff w
  = (Return tt, w2, t0 ++ t1).
Proof.
  intros Hreg Hdist. rewrite (bind_Return _ _ _ _ _ _ Hreg).
  by rewrite Hdist.
Qed.

(** C7. The order of [produceCredentials]. The application is registered
    with the remote authority exactly when there is a session, as the
    first call and asking for push notifications to be enabled; the calls
    then go to the distribution certificate, the push key and the
    provisioning profile in this order, each at most once, and a run that
    completes has made all three; the profile's resolver is given the
    certificate that was read from the store right after the
    certificate step. *)
Theorem produceCredentials_order e b w :
  let run := produceCredentials this e b w in
  (∀ a, ctx_appleCtx w = Some a →
        head (events run) = Some (EvEnsureAppExists a e b true))
  ∧ (ctx_appleCtx w = None →
     Forall (λ ev, stage ev ≠ Some 0) (events run))
  ∧ StronglySorted lt (omap stage (events run))
  ∧ (outcome run = Return tt →
     omap stage (events run)
     = (if ctx_appleCtx w is Some _ then [0] else []) ++ [1; 2; 3])
  ∧ Forall
      (λ ev, stage ev = Some 3 →
             ∃ w1 t1 dc,
               (registration e b ;;
                _setupDistCert this e b (ios_getAppCredentials e b w))%eff w
               = (Return tt, w1, t1)
               ∧ ios_getDistCert e b w1 = Some dc
               ∧ profile_distCert ev = Some dc)
      (events run).
Proof.
  intros run.
  destruct (produceCredentials_cases e b w)
    as (r0 & w1 & t0 & Hreg & Hrun); simpl in Hrun; fold run in Hrun.
  pose proof (registration_cases _ _ _ _ _ _ Hreg) as Ht0.
  (* the events, the outcome and the stages of every way the run can go *)
  assert (Hstages :
    ∃ t rest,
      events run = t0 ++ t
      ∧ omap stage t = rest
      ∧ (rest = [] ∨ rest = [1] ∨ rest = [1; 2] ∨ rest = [1; 2; 3])
      ∧ (outcome run = Return tt → r0 = Return tt ∧ rest = [1; 2; 3])
      ∧ (r0 ≠ Return tt → t = [])
      ∧ Forall
          (λ ev, stage ev = Some 3 →
                 ∃ w1 t1 dc,
                   (registration e b ;;
                    _setupDistCert this e b (ios_getAppCredentials e b w))%eff
                     w
                   = (Return tt, w1, t1)
                   ∧ ios_getDistCert e b w1 = Some dc
                   ∧ profile_distCert ev = Some dc) t).
  { destruct r0 as [[]|err].
    2: { exists [], []. rewrite Hrun, app_nil_r. unfold outcome, events.
         by repeat split; eauto. }
    destruct Hrun as (r1 & w2 & t1 & Hdist & Hrun).
    pose proof (_setupDistCert_run e b (ios_getAppCredentials e b w) w1)
      as Hshape1.
    rewrite Hdist in Hshape1. unfold outcome, events in Hshape1.
    simpl in Hshape1.
    destruct r1 as [[]|err].
    2: { exists t1, (omap stage t1). rewrite Hrun. unfold outcome, events.
         inversion Hshape1 as [|ev1 ? Hev1|]; subst; simpl; rewrite ?Hev1;
           repeat split; eauto; try done;
           repeat constructor; by rewrite ?Hev1. }
    inversion Hshape1 as [ev1 Hev1| |]; subst.
    destruct (ios_getDistCert e b w2) as [dc|] eqn:Hcert.
    2: { exists [ev1], [1]. rewrite Hrun. unfold outcome, events. simpl.
         rewrite Hev1.
         repeat split; eauto; try done.
         repeat constructor; by rewrite Hev1. }
    destruct Hrun as (r2 & w3 & t2 & Hpush & Hrun).
    pose proof (_setupPushCert_run e b (ios_getAppCredentials e b w) w2)
      as Hshape2.
    rewrite Hpush in Hshape2. unfold outcome, events in Hshape2.
    simpl in Hshape2.
    destruct r2 as [[]|err].
    2: { exists ([ev1] ++ t2), (omap stage ([ev1] ++ t2)). rewrite Hrun.
         unfold outcome, events.
         inversion Hshape2 as [|ev2 ? Hev2|]; subst; simpl;
           rewrite ?Hev1, ?Hev2; simpl; rewrite ?Hev2;
           repeat split; eauto; try done;
           repeat constructor; by rewrite ?Hev1, ?Hev2. }
    inversion Hshape2 as [ev2 Hev2| |]; subst.
    destruct Hrun as (r3 & w4 & t3 & Hprofile & Hrun).
    pose proof (_setupProvisioningProfile_run e b
                  (ios_getAppCredentials e b w) dc w3) as Hshape3.
    pose proof (_setupProvisioningProfile_distCert e b
                  (ios_getAppCredentials e b w) dc w3) as Hgiven.
    rewrite Hprofile in Hshape3, Hgiven.
    unfold outcome, events in Hshape3, Hgiven. simpl in Hshape3, Hgiven.
    assert (Hread : ∀ ev, ev ∈ t3 → stage ev = Some 3 →
              ∃ w1 t1 dc,
                (registration e b ;;
                 _setupDistCert this e b (ios_getAppCredentials e b w))%eff w
                = (Return tt, w1, t1)
                ∧ ios_getDistCert e b w1 = Some dc
                ∧ profile_distCert ev = Some dc).
    { intros ev Hin Hev. exists w2, (t0 ++ [ev1]), dc.
      split; [by apply (certificate_step_run _ _ _ _ _ _ _ Hreg Hdist)|].
      split; [done|].
      rewrite Forall_forall in Hgiven. by apply Hgiven. }
    exists ([ev1] ++ [ev2] ++ t3), (omap stage ([ev1] ++ [ev2] ++ t3)).
    rewrite Hrun. unfold outcome, events.
    inversion Hshape3 as [ev3 Hev3|ev3 ? Hev3|]; subst; simpl;
      rewrite ?Hev1, ?Hev2; simpl; rewrite ?Hev2; simpl; rewrite ?Hev3;
      (repeat split; eauto; try done);
      repeat (constructor; [intros ?; first [congruence | apply Hread; [set_solver|done]]|]);
      constructor. }
  destruct Hstages as (t & rest & Hevents & Hrest & Hshape & Hdone & Hstop
                       & Hgiven).
  rewrite Hevents. repeat split.
  - intros a Ha. rewrite Ha in Ht0. by subst t0.
  - intros Hnone. rewrite Hnone in Ht0. destruct Ht0 as (-> & _). simpl.
    apply Forall_forall. intros ev Hin Hev.
    assert (0 ∈ omap stage t) as H0.
    { apply list_elem_of_omap. eauto. }
    rewrite Hrest in H0. apply list_elem_of_In in H0.
    destruct Hshape as [-> | [-> | [-> | ->]]]; simpl in H0; intuition lia.
  - rewrite omap_app, Hrest.
    destruct (ctx_appleCtx w) as [a|].
    + subst t0. simpl.
      destruct Hshape as [-> | [-> | [-> | ->]]]; repeat constructor.
    + destruct Ht0 as (-> & _). simpl.
      destruct Hshape as [-> | [-> | [-> | ->]]]; repeat constructor.
  - intros Hret. destruct (Hdone Hret) as [-> ->].
    rewrite omap_app, Hrest.
    destruct (ctx_appleCtx w) as [a|].
    + by subst t0.
    + by destruct Ht0 as (-> & _).
  - apply Forall_app. split; [|done].
    destruct (ctx_appleCtx w) as [a|].
    + subst t0. by repeat constructor.
    + destruct Ht0 as (-> & _). constructor.
Qed.
End Production.

(** An operator without access to the Apple account and with nothing to
    upload: the certificate step completes, the store still has no
    certificate. *)
Lemma produceCredentials_hard_gate_witness :
  let this := Inputs.builder_with Inputs.no_options in
  @produceCredentials SpecModel.collaborators this "@acme/app" "com.acme.app"
    Inputs.empty_world
  = (Throw INSUFFICIENT_CREDENTIALS, Inputs.empty_world,
     [] ++ [EvSetupIosDist "@acme/app" "com.acme.app" false])
  ∧ exn_code INSUFFICIENT_CREDENTIALS = Some "INSUFFICIENT_CREDENTIALS"
  ∧ Forall (λ ev, stage ev ≠ Some 2 ∧ stage ev ≠ Some 3)
      ([] ++ [EvSetupIosDist "@acme/app" "com.acme.app" false]).
Proof.
  intros this.
  apply (@produceCredentials_hard_gate SpecModel.collaborators this
           "@acme/app" "com.acme.app" Inputs.empty_world Inputs.empty_world []
           Inputs.empty_world
           [EvSetupIosDist "@acme/app" "com.acme.app" false]);
    reflexivity.
Defined.

(** A session and an empty store: the application is registered, then
    all three artifacts are created through the remote authority, the
    profile for the certificate just stored. *)
Lemma produceCredentials_order_witness :
  let this := Inputs.builder_with Inputs.no_options in
  let e := "@acme/app" in
  let b := "com.acme.app" in
  let w := SpecModel.with_session (Some "dev") Inputs.empty_world in
  let run := @produceCredentials SpecModel.collaborators this e b w in
  head (events run) = Some (EvEnsureAppExists "dev" e b true)
  ∧ StronglySorted lt (omap stage (events run))
  ∧ omap stage (events run) = [0] ++ [1; 2; 3]
  ∧ events run
    = [EvEnsureAppExists "dev" e b true;
       EvSetupIosDist e b false;
       EvSetupIosPush e b false;
       EvSetupIosProvisioningProfile e b
         (SpecModel.mkArtifact "cert:com.acme.app"
            (Some "remote-cert:com.acme.app")) false].
Proof.
  intros this e b w run.
  destruct (@produceCredentials_order SpecModel.collaborators this e b w)
    as (Hfirst & _ & Hsorted & Hall & _).
  split; [exact (Hfirst "dev" eq_refl)|].
  split; [exact Hsorted|].
  split; [exact (Hall eq_refl)|].
  reflexivity.
Defined.

(** ** The whole credential phase *)

Section Prepare.
Context `{Collaborators}.
Variable this : Builder.
Implicit Types (b : string) (w : World).


(** The run of [prepareCredentials] once the production phase is reached
    and throws: the [catch] block decides what is thrown, the [finally]
    block reports. *)
Lemma prepareCredentials_production_throws w b w1 w2 t2 w3 t3 w4 t4 err :
  let e := experienceName this in
  truthy_string (manifest_ios (manifest this) ≫= ios_bundleIdentifier)
  = Some b →
  truthy (opt_skipCredentialsCheck (options this)) = false →
  ctx_init (projectDir this) w = (Return tt, w1) →
  clearAndRevokeCredentialsIfRequested this e b w1 = (Return tt, w2, t2) →
  bestEffortAppleCtx this w2 = (Return tt, w3, t3) →
  produceCredentials this e b w3 = (Throw err, w4, t4) →
  prepareCredentials this w =
    (let '(r, w5, t5) := prepareCredentials_catch err w4 in
     (r, w5,
      t2 ++ t3 ++ (t4 ++ t5)
      ++ [EvDisplayProjectCredentials e b (ios_getAllCredentials w5)])).
Proof.
  intros e Hbundle Hskip Hinit Hclear Hgate Hproduce.
  unfold prepareCredentials. rewrite Hbundle. fold (experienceName this).
  fold e. rewrite bind_run. unfold step at 1. rewrite Hinit.
  rewrite bind_run, Hclear, Hskip, bind_run, Hgate.
  unfold try_finally, try_catch. rewrite Hproduce.
  destruct (prepareCredentials_catch err w4) as [[r w5] t5].
  unfold displayCredentials. rewrite bind_gets. unfold emit.
  by rewrite <- !app_assoc.
Qed.




End Prepare.



(** ** The clear request *)

Section ClearRequest.
Context `{Collaborators}.
Variable this : Builder.

Lemma truthy_js_or (a b : option bool) :
  truthy (js_or a b) = truthy a || truthy b.
Proof. by destruct a as [[]|]. Qed.

(** An entry of the clear request is there, and true, exactly when its
    flag or the global flag is truthy. *)
Lemma determineCredentialsToClear_lookup (k : string) (v : bool) :
  let o := options this in
  determineCredentialsToClear this !! k = Some v ↔
  v = true
  ∧ (k = "distributionCert"
     ∧ (truthy (opt_clearCredentials o) = true
        ∨ truthy (opt_clearDistCert o) = true)
     ∨ k = "pushKey"
       ∧ (truthy (opt_clearCredentials o) = true
          ∨ truthy (opt_clearPushKey o) = true)
     ∨ k = "pushCert"
       ∧ (truthy (opt_clearCredentials o) = true
          ∨ truthy (opt_clearPushCert o) = true)
     ∨ k = "provisioningProfile"
       ∧ (truthy (opt_clearCredentials o) = true
          ∨ truthy (opt_clearProvisioningProfile o) = true)).
Proof.
  intros o. unfold determineCredentialsToClear, pickBy. fold o.
  rewrite map_lookup_filter_Some. simpl.
  rewrite !lookup_insert_Some, lookup_empty, !truthy_js_or.
  rewrite <- !orb_true_iff.
  generalize (truthy (opt_clearCredentials o) || truthy (opt_clearDistCert o)).
  generalize (truthy (opt_clearCredentials o) || truthy (opt_clearPushKey o)).
  generalize (truthy (opt_clearCredentials o) || truthy (opt_clearPushCert o)).
  generalize (truthy (opt_clearCredentials o)
              || truthy (opt_clearProvisioningProfile o)).
  intros f4 f3 f2 f1. naive_solver.
Qed.

(** C5. The clear request [determineCredentialsToClear] builds: the
    global flag puts all four entries in it; an entry is in it exactly
    when its own flag or the global flag is truthy, and then it is true,
    so no entry is ever false and no other key occurs; clearing removes
    only what the request it is given holds as true; and from
    [clearDistCert: true, clearPushKey: false] the request is the single
    entry [distributionCert], the only removal that can then be made. *)
Theorem determineCredentialsToClear_compacted :
  let o := options this in
  let m := determineCredentialsToClear this in
  (truthy (opt_clearCredentials o) = true →
   Forall (λ k, m !! k = Some true) clear_entries)
  ∧ (m !! "distributionCert"
     = (if truthy (opt_clearCredentials o) || truthy (opt_clearDistCert o)
        then Some true else None)
     ∧ m !! "pushKey"
       = (if truthy (opt_clearCredentials o) || truthy (opt_clearPushKey o)
          then Some true else None)
     ∧ m !! "pushCert"
       = (if truthy (opt_clearCredentials o) || truthy (opt_clearPushCert o)
          then Some true else None)
     ∧ m !! "provisioningProfile"
       = (if truthy (opt_clearCredentials o)
             || truthy (opt_clearProvisioningProfile o)
          then Some true else None))
  ∧ (∀ k v, m !! k = Some v → v = true ∧ k ∈ clear_entries)
  ∧ (∀ e b (credsToClear : gmap string bool) w,
       Forall (λ ev, ∃ k, cleared_entry ev = Some k
                          ∧ credsToClear !! k = Some true)
         (events (clearCredentials this e b credsToClear w)))
  ∧ (opt_clearCredentials o = None →
     opt_clearDistCert o = Some true →
     opt_clearPushKey o = Some false →
     opt_clearPushCert o = None →
     opt_clearProvisioningProfile o = None →
     m = {[ "distributionCert" := true ]}
     ∧ ∀ e b w,
         Forall (λ ev, cleared_entry ev = Some "distributionCert")
           (events (clearAndRevokeCredentialsIfRequested this e b w))).
Proof.
  intros o m.
  assert (Hentry : ∀ k (flag : bool),
            (∀ v, m !! k = Some v ↔ v = true ∧ flag = true) →
            m !! k = if flag then Some true else None).
  { intros k flag Hk. destruct flag.
    - by apply Hk.
    - apply eq_None_not_Some. intros [v Hv].
      apply Hk in Hv. by destruct Hv. }
  split; [|split; [|split; [|split]]].
  - intros Hall. unfold clear_entries. rewrite !Forall_cons. subst m.
    rewrite !determineCredentialsToClear_lookup. fold o. rewrite Hall.
    split_and!; try done;
      [left|right; left|do 2 right; left|do 3 right];
      by split; [|left].
  - split_and!; apply Hentry; intros v; subst m;
      rewrite determineCredentialsToClear_lookup; fold o;
      rewrite orb_true_iff;
      (split;
       [ intros (? & [[Hk ?]|[[Hk ?]|[[Hk ?]|[Hk ?]]]]);
         first [discriminate Hk | done]
       | intros (? & ?); split; [done|];
         first [ by left | by right; left | by do 2 right; left
               | by do 3 right ] ]).
  - intros k v Hk. subst m.
    apply determineCredentialsToClear_lookup in Hk as (-> & Hk).
    split; [done|]. unfold clear_entries. rewrite !elem_of_cons.
    destruct Hk as [[-> _]|[[-> _]|[[-> _]|[-> _]]]]; auto.
  - intros e b credsToClear w. apply clearCredentials_emits.
  - intros Hall Hdist Hpush Hcert Hprofile.
    assert (Hm : m = {[ "distributionCert" := true ]}).
    { apply map_eq. intros k. apply option_eq. intros v. subst m.
      rewrite determineCredentialsToClear_lookup, lookup_singleton_Some.
      fold o. rewrite Hall, Hdist, Hpush, Hcert, Hprofile. simpl.
      split.
      - intros (-> & [[-> _]|[[_ [?|?]]|[[_ [?|?]]|[_ [?|?]]]]]); done.
      - intros [<- <-]. split; [done|]. left. split; [done|]. by right. }
    split; [done|]. intros e b w.
    unfold clearAndRevokeCredentialsIfRequested. case_match; [|constructor].
    fold m. rewrite Hm.
    eapply Forall_impl; [apply clearCredentials_emits|].
    intros ev (k & Hk & Hin). apply lookup_singleton_Some in Hin as [<- _].
    done.
Qed.
End ClearRequest.

(** The flags [clearDistCert: true, clearPushKey: false] on a store that
    has a certificate, a push key and a profile: the certificate is removed,
    the push key and the profile stay. The global flag alone asks for all
    four. *)
Lemma determineCredentialsToClear_compacted_witness :
  let o :=
    mkOptions None None None None None (Some true) (Some false) None None
      None [] in
  let this := Inputs.builder_with o in
  let all :=
    Inputs.builder_with
      (mkOptions None None None None (Some true) None None None None None []) in
  let run :=
    @clearAndRevokeCredentialsIfRequested SpecModel.collaborators this
      "@acme/app" "com.acme.app" Inputs.stocked_world in
  Forall (λ k, determineCredentialsToClear all !! k = Some true) clear_entries
  ∧ determineCredentialsToClear this = {[ "distributionCert" := true ]}
  ∧ Forall (λ ev, cleared_entry ev = Some "distributionCert") (events run)
  ∧ events run = [EvRemoveIosDist false false Inputs.acme_cert]
  ∧ SpecModel.bundle_of (final run) "@acme/app" "com.acme.app"
    = SpecModel.mkBundle None (Some Inputs.acme_key) None
        (Some Inputs.acme_profile).
Proof.
  intros o this all run.
  pose proof (@determineCredentialsToClear_compacted SpecModel.collaborators
                all) as (Hall & _).
  pose proof (@determineCredentialsToClear_compacted SpecModel.collaborators
                this) as (_ & _ & _ & _ & Hthis).
  destruct (Hthis eq_refl eq_refl eq_refl eq_refl eq_refl) as [Hm Hevents].
  split; [exact (Hall eq_refl)|]. split; [exact Hm|].
  split; [exact (Hevents "@acme/app" "com.acme.app" Inputs.stocked_world)|].
  split; reflexivity.
Defined.

(** ** Skipping the credentials check *)

Section Skip.
Context `{Collaborators}.
Variable this : Builder.

(** C4, as the code has it. With [skipCredentialsCheck] set,
    [prepareCredentials] never runs the authentication gate, the production
    phase or the report; but the clear-and-revoke phase comes before the
    option is looked at and runs as the clear flags ask: the run is that
    phase's run, followed when it returns by the log line. With no clear
    flag set nothing is removed either. *)
Theorem prepareCredentials_skipCredentialsCheck (w : World) :
  truthy (opt_skipCredentialsCheck (options this)) = true →
  let o := options this in
  let run := prepareCredentials this w in
  Forall (λ ev, is_authentication ev = false ∧ is_production ev = false
                ∧ is_report ev = false) (events run)
  ∧ (∀ b w1,
       truthy_string (manifest_ios (manifest this) ≫= ios_bundleIdentifier)
       = Some b →
       ctx_init (projectDir this) w = (Return tt, w1) →
       let clear :=
         clearAndRevokeCredentialsIfRequested this (experienceName this) b w1 in
       outcome run = outcome clear
       ∧ final run = final clear
       ∧ events run
         = events clear
           ++ (if outcome clear is Return _
               then [EvLog "Skipping credentials check..."] else []))
  ∧ (truthy (opt_clearCredentials o) = false →
     truthy (opt_clearDistCert o) = false →
     truthy (opt_clearPushKey o) = false →
     truthy (opt_clearPushCert o) = false →
     truthy (opt_clearProvisioningProfile o) = false →
     Forall (λ ev, is_clear ev = false) (events run)).
Proof.
  intros Hskip o run. subst run. unfold prepareCredentials.
  fold (experienceName this). rewrite Hskip.
  destruct (truthy_string _) as [b|] eqn:Hbundle.
  2: { split; [constructor|]. split; [done|]. intros. constructor. }
  rewrite bind_run. unfold step.
  destruct (ctx_init (projectDir this) w) as [[[]|err] w1] eqn:Hinit.
  2: { split; [constructor|]. split; [done|]. intros. constructor. }
  rewrite bind_run.
  assert (Hclear : Forall (λ ev, is_clear ev = true)
            (events (clearAndRevokeCredentialsIfRequested this
                       (experienceName this) b w1))).
  { unfold clearAndRevokeCredentialsIfRequested. case_match; [|constructor].
    eapply Forall_impl; [apply clearCredentials_emits|].
    intros ev (k & Hk & _). unfold is_clear. rewrite Hk.
    by apply bool_decide_eq_true_2. }
  assert (Hnone : truthy (opt_clearCredentials o) = false →
            truthy (opt_clearDistCert o) = false →
            truthy (opt_clearPushKey o) = false →
            truthy (opt_clearPushCert o) = false →
            truthy (opt_clearProvisioningProfile o) = false →
            events (clearAndRevokeCredentialsIfRequested this
                      (experienceName this) b w1) = []).
  { intros H1 H2 H3 H4 H5. unfold clearAndRevokeCredentialsIfRequested.
    fold o. rewrite !truthy_js_or, H1, H2, H3, H4, H5. done. }
  destruct (clearAndRevokeCredentialsIfRequested this (experienceName this)
              b w1) as [[[[]|err] w2] t2] eqn:Hrun;
    unfold log, emit, outcome, final, events in *; simpl in *.
  - split.
    + apply Forall_app. split; [|by repeat constructor].
      eapply Forall_impl; [exact Hclear|]. by intros [].
    + split.
      * intros ?? [= <-] [= <-]. by rewrite Hrun.
      * intros H1 H2 H3 H4 H5. rewrite (Hnone H1 H2 H3 H4 H5).
        by repeat constructor.
  - split.
    + eapply Forall_impl; [exact Hclear|]. by intros [].
    + split.
      * intros ?? [= <-] [= <-]. rewrite Hrun. by rewrite app_nil_r.
      * intros H1 H2 H3 H4 H5. rewrite (Hnone H1 H2 H3 H4 H5). constructor.
Qed.
End Skip.

(** [skipCredentialsCheck] together with [clearDistCert], on a store that
    holds a certificate: the certificate is removed, then the check is
    skipped. With [skipCredentialsCheck] alone nothing is removed. *)
Lemma prepareCredentials_skipCredentialsCheck_witness :
  let o :=
    mkOptions None None None (Some true) None (Some true) None None None None
      [] in
  let this := Inputs.builder_with o in
  let run :=
    @prepareCredentials SpecModel.collaborators this Inputs.stocked_world in
  let alone :=
    Inputs.builder_with
      (mkOptions None None None (Some true) None None None None None None []) in
  Forall (λ ev, is_authentication ev = false ∧ is_production ev = false
                ∧ is_report ev = false) (events run)
  ∧ events run
    = [EvRemoveIosDist false false Inputs.acme_cert]
      ++ [EvLog "Skipping credentials check..."]
  ∧ Forall (λ ev, is_clear ev = false)
      (events (@prepareCredentials SpecModel.collaborators alone
                 Inputs.stocked_world)).
Proof.
  intros o this run alone.
  destruct (@prepareCredentials_skipCredentialsCheck SpecModel.collaborators
              this Inputs.stocked_world eq_refl) as (Hnever & Hclear & _).
  destruct (@prepareCredentials_skipCredentialsCheck SpecModel.collaborators
              alone Inputs.stocked_world eq_refl) as (_ & _ & Hnone).
  split; [exact Hnever|].
  split; [exact (proj2 (proj2 (Hclear "com.acme.app" Inputs.stocked_world
                                 eq_refl eq_refl)))|].
  exact (Hnone eq_refl eq_refl eq_refl eq_refl eq_refl).
Defined.

(** C4, as stated, fails: with [skipCredentialsCheck] and [clearDistCert]
    both set, the distribution certificate in the store is removed. *)
Lemma prepareCredentials_skipCredentialsCheck_counterexample :
  let o :=
    mkOptions None None None (Some true) None (Some true) None None None None
      [] in
  let this := Inputs.builder_with o in
  let run :=
    @prepareCredentials SpecModel.collaborators this Inputs.stocked_world in
  truthy (opt_skipCredentialsCheck o) = true
  ∧ outcome run = Return tt
  ∧ EvRemoveIosDist false false Inputs.acme_cert ∈ events run
  ∧ ¬ Forall (λ ev, is_clear ev = false) (events run)
  ∧ SpecModel.distributionCert
      (SpecModel.bundle_of Inputs.stocked_world "@acme/app" "com.acme.app")
    = Some Inputs.acme_cert
  ∧ SpecModel.distributionCert
      (SpecModel.bundle_of (final run) "@acme/app" "com.acme.app")
    = None.
Proof.
  intros o this run.
  split; [reflexivity|]. split; [reflexivity|].
  split; [by left|]. split; [|split; reflexivity].
  intros Hall. by apply Forall_cons in Hall as [? _].
Qed.

(** ** Non-interactive failures *)

Section NonInteractive.
Context `{Collaborators}.
Variable this : Builder.

(** When the production phase throws an error whose code is
    NON_INTERACTIVE, [prepareCredentials] throws the NonInteractive
    command error, and its [finally] block still makes the report. *)
Lemma prepareCredentials_nonInteractive_run w b w1 w2 t2 w3 t3 w4 t4 err :
  let e := experienceName this in
  truthy_string (manifest_ios (manifest this) ≫= ios_bundleIdentifier)
  = Some b →
  truthy (opt_skipCredentialsCheck (options this)) = false →
  ctx_init (projectDir this) w = (Return tt, w1) →
  clearAndRevokeCredentialsIfRequested this e b w1 = (Return tt, w2, t2) →
  bestEffortAppleCtx this w2 = (Return tt, w3, t3) →
  produceCredentials this e b w3 = (Throw err, w4, t4) →
  exn_code err = Some NON_INTERACTIVE →
  let run := prepareCredentials this w in
  outcome run
  = Throw (mkException CommandError (Some NON_INTERACTIVE)
             "Unable to proceed, see the above error message.")
  ∧ last (events run)
    = Some (EvDisplayProjectCredentials e b (ios_getAllCredentials w4)).
Proof.
  intros e Hbundle Hskip Hinit Hclear Hgate Hproduce Hcode run.
  pose proof (prepareCredentials_production_throws this _ _ _ _ _ _ _ _ _ _
                Hbundle Hskip Hinit Hclear Hgate Hproduce) as Hrun.
  fold e run in Hrun. unfold prepareCredentials_catch in Hrun.
  rewrite bool_decide_eq_true_2 in Hrun by done.
  cbv [bind log emit throw] in Hrun. rewrite Hrun.
  unfold outcome, events. simpl. split; [done|].
  by rewrite !app_assoc, last_snoc.
Qed.
End NonInteractive.

(** C1, on the code. In non-interactive mode, with an empty store, no
    session and no certificate among the parameters, the
    distribution-certificate resolver needs the operator and throws a
    NON_INTERACTIVE error. [prepareCredentials] then does throw the
    NonInteractive command error, but the report is made all the same:
    [displayProjectCredentials] is the last call of the run. *)
Theorem prepareCredentials_nonInteractive_still_reports :
  let o :=
    mkOptions None None (Some (mkParent (Some true))) None None None None
      None None None [] in
  let this := Inputs.builder_with o in
  let run :=
    @prepareCredentials SpecModel.collaborators this Inputs.empty_world in
  nonInteractive this = true
  ∧ outcome run
    = Throw (mkException CommandError (Some "NON_INTERACTIVE")
               "Unable to proceed, see the above error message.")
  ∧ filter (λ ev, is_report ev = true) (events run)
    = [EvDisplayProjectCredentials "@acme/app" "com.acme.app" ∅]
  ∧ last (events run)
    = Some (EvDisplayProjectCredentials "@acme/app" "com.acme.app" ∅).
Proof.
  intros o this run. split; [reflexivity|]. split; [reflexivity|].
  split; reflexivity.
Qed.

(** ** The clear phase *)

Section Clear.
Context `{Collaborators}.
Variable this : Builder.
Implicit Types (e b : string) (m : gmap string bool) (w : World).

Lemma triple_call {A} (P Q : World → Prop) (T : Event → Prop) ev
    (f : World → Outcome A * World) :
  T ev → (∀ s, P s → Q (f s).2) → triple P (call ev f) Q T.
Proof.
  intros Hev Hf s Hs. specialize (Hf s Hs).
  cbv [call bind emit step final events] in *.
  destruct (f s) as [[a|err] s1]; simpl in *;
    (split; [done|by repeat constructor]).
Qed.

(** The certificate that is removed is the one read at the start. *)
Lemma clearCredentials_distCert_present e b m w :
  Forall (λ ev, ∀ sr ni c, ev = EvRemoveIosDist sr ni c →
                           ios_getDistCert e b w = Some c)
    (events (clearCredentials this e b m w)).
Proof.
  unfold clearCredentials. rewrite bind_gets.
  apply (emits_bind (λ ev, ∀ sr ni c, ev = EvRemoveIosDist sr ni c →
                                       ios_getDistCert e b w = Some c)
           (A := unit)).
  - intros s. destruct (truthy (m !! "distributionCert")),
      (ios_getDistCert e b w) as [c|]; try apply emits_ret.
    unfold call. apply emits_bind; [|intros; apply emits_step].
    apply emits_emit. by intros ??? [= _ _ <-].
  - intros _. emits_steps; by intros.
Qed.

(** With nothing in the store, clearing does nothing, whatever is
    requested. *)
Lemma clearCredentials_absent e b m w :
  ios_getDistCert e b w = None →
  ios_getPushKey e b w = None →
  ios_getProvisioningProfile e b w = None →
  ios_getPushCert e b w = None →
  clearCredentials this e b m w = (Return tt, w, []).
Proof.
  intros Hcert Hkey Hprofile Hpush.
  cbv [clearCredentials bind gets ret]. rewrite Hcert.
  destruct (truthy (m !! "distributionCert")); rewrite Hkey;
    destruct (truthy (m !! "pushKey")); rewrite Hprofile;
    destruct (truthy (m !! "provisioningProfile")); rewrite Hpush;
    by destruct (truthy (m !! "pushCert")).
Qed.
End Clear.

(** ** Removals as the specification describes them *)

Section SpecRemovals.
Import SpecModel.
Implicit Types (w : SpecWorld) (e b : string).

Lemma revoke_store shouldRevoke remote w :
  store (revoke shouldRevoke remote w).2 = store w.
Proof.
  unfold revoke, authenticate.
  destruct shouldRevoke, remote as [record|]; try done.
  destruct (session w); simpl; repeat case_bool_decide; done.
Qed.

Lemma bundle_of_store w w' e b :
  store w = store w' → bundle_of w e b = bundle_of w' e b.
Proof. unfold bundle_of. by intros ->. Qed.

Lemma bundle_of_fmap (g : AppCredentialBundle → AppCredentialBundle) w e b :
  g empty_bundle = empty_bundle →
  bundle_of (with_store (fmap g) w) e b = g (bundle_of w e b).
Proof.
  intros Hg. unfold bundle_of, with_store. simpl. rewrite lookup_fmap.
  by destruct (store w !! (e, b)).
Qed.

Lemma bundle_of_put (g : AppCredentialBundle → AppCredentialBundle) w e b
    e' b' :
  bundle_of (put e b g w) e' b'
  = if decide ((e, b) = (e', b')) then g (bundle_of w e b)
    else bundle_of w e' b'.
Proof.
  unfold put, with_store, bundle_of at 1. simpl.
  rewrite lookup_insert. by case_decide.
Qed.

(** Removing a certificate leaves every push key, push certificate and
    profile where it is. *)
Lemma removeDistCert_frame shouldRevoke nonInteractive c w e b :
  let w' := (removeDistCert shouldRevoke nonInteractive c w).2 in
  pushKey (bundle_of w' e b) = pushKey (bundle_of w e b)
  ∧ pushCert (bundle_of w' e b) = pushCert (bundle_of w e b)
  ∧ provisioningProfile (bundle_of w' e b)
    = provisioningProfile (bundle_of w e b).
Proof.
  intros w'. subst w'. unfold removeDistCert.
  rewrite (bundle_of_store _ _ e b (revoke_store _ _ _)).
  rewrite bundle_of_fmap by done. by case_bool_decide.
Qed.

Lemma removePushKey_frame shouldRevoke nonInteractive k w e b :
  let w' := (removePushKey shouldRevoke nonInteractive k w).2 in
  distributionCert (bundle_of w' e b) = distributionCert (bundle_of w e b)
  ∧ pushCert (bundle_of w' e b) = pushCert (bundle_of w e b)
  ∧ provisioningProfile (bundle_of w' e b)
    = provisioningProfile (bundle_of w e b).
Proof.
  intros w'. subst w'. unfold removePushKey.
  rewrite (bundle_of_store _ _ e b (revoke_store _ _ _)).
  rewrite bundle_of_fmap by done. by case_bool_decide.
Qed.

(** Removing a profile leaves every certificate, push key and push
    certificate where it is. *)
Lemma removeProfile_frame shouldRevoke nonInteractive app w e b :
  let w' := (removeProfile shouldRevoke nonInteractive app w).2 in
  distributionCert (bundle_of w' e b) = distributionCert (bundle_of w e b)
  ∧ pushKey (bundle_of w' e b) = pushKey (bundle_of w e b)
  ∧ pushCert (bundle_of w' e b) = pushCert (bundle_of w e b).
Proof.
  intros w'. subst w'. unfold removeProfile.
  rewrite (bundle_of_store _ _ e b (revoke_store _ _ _)).
  rewrite bundle_of_put. case_decide as Hkey; [|done].
  by injection Hkey as -> ->.
Qed.

Lemma deletePushCert_frame e0 b0 w e b :
  let w' := put e0 b0 (set_pushCert None) w in
  distributionCert (bundle_of w' e b) = distributionCert (bundle_of w e b)
  ∧ pushKey (bundle_of w' e b) = pushKey (bundle_of w e b)
  ∧ provisioningProfile (bundle_of w' e b)
    = provisioningProfile (bundle_of w e b).
Proof.
  intros w'. subst w'. rewrite bundle_of_put. case_decide as Hkey; [|done].
  by injection Hkey as -> ->.
Qed.

Variable this : Builder.

(** Use the frame of whichever removal the goal runs. *)
Ltac use_frames e' b' :=
  cbn [remove_IosDist remove_IosPush remove_ProvisioningProfile
       ios_deletePushCert collaborators snd];
  repeat match goal with
    | |- context [removeDistCert ?sr ?ni ?c ?s] =>
        lazymatch goal with
        | _ : pushKey (bundle_of (removeDistCert sr ni c s).2 e' b') = _ |- _ =>
            fail
        | _ => destruct (removeDistCert_frame sr ni c s e' b') as (? & ? & ?)
        end
    | |- context [removePushKey ?sr ?ni ?k ?s] =>
        lazymatch goal with
        | _ : pushCert (bundle_of (removePushKey sr ni k s).2 e' b') = _ |- _ =>
            fail
        | _ => destruct (removePushKey_frame sr ni k s e' b') as (? & ? & ?)
        end
    | |- context [removeProfile ?sr ?ni ?app ?s] =>
        lazymatch goal with
        | _ : pushCert (bundle_of (removeProfile sr ni app s).2 e' b') = _
          |- _ => fail
        | _ => destruct (removeProfile_frame sr ni app s e' b') as (? & ? & ?)
        end
    | |- context [put ?e0 ?b0 (set_pushCert None) ?s] =>
        lazymatch goal with
        | _ : pushKey (bundle_of (put e0 b0 (set_pushCert None) s) e' b') = _
          |- _ => fail
        | _ => destruct (deletePushCert_frame e0 b0 s e' b') as (? & ? & ?)
        end
    end.

(** One step of the clear phase keeps [R], given that the removal of the
    entry [R] is about is not requested. *)
Ltac keeps_step e' b' R :=
  repeat case_match; simplify_eq/=;
  first
    [ apply triple_ret
    | apply (@triple_call collaborators); [done|];
      let s := fresh "s" in let Hs := fresh "Hs" in
      intros s Hs; unfold R in *; use_frames e' b';
      by (etrans; [eassumption|]) ].

Ltac keeps_gets R :=
  apply triple_bind_gets; intros ? ?;
  apply (triple_weaken R _ R R); [by intros ? ->|done|].

Ltac keeps e' b' R :=
  unfold clearCredentials;
  keeps_gets R;
  apply (triple_bind R R R); [keeps_step e' b' R|done|intros _];
  keeps_gets R;
  apply (triple_bind R R R); [keeps_step e' b' R|done|intros _];
  keeps_gets R; keeps_gets R;
  apply (triple_bind R R R); [keeps_step e' b' R|done|intros _];
  keeps_gets R;
  keeps_step e' b' R.

Lemma clearCredentials_keeps_distCert e b (m : gmap string bool) w e' b' :
  truthy (m !! "distributionCert") = false →
  distributionCert
    (bundle_of (final (@clearCredentials collaborators this e b m w)) e' b')
  = distributionCert (bundle_of w e' b').
Proof.
  intros Hflag.
  pose (R := (λ s : SpecWorld,
       distributionCert (bundle_of s e' b')
       = distributionCert (bundle_of w e' b'))).
  assert (triple R (@clearCredentials collaborators this e b m) R
            (λ _, True)) as Hkeeps; [|by apply Hkeeps].
  keeps e' b' R.
Qed.

Lemma clearCredentials_keeps_pushKey e b (m : gmap string bool) w e' b' :
  truthy (m !! "pushKey") = false →
  pushKey
    (bundle_of (final (@clearCredentials collaborators this e b m w)) e' b')
  = pushKey (bundle_of w e' b').
Proof.
  intros Hflag.
  pose (R := (λ s : SpecWorld,
       pushKey (bundle_of s e' b') = pushKey (bundle_of w e' b'))).
  assert (triple R (@clearCredentials collaborators this e b m) R
            (λ _, True)) as Hkeeps; [|by apply Hkeeps].
  keeps e' b' R.
Qed.

Lemma clearCredentials_keeps_profile e b (m : gmap string bool) w e' b' :
  truthy (m !! "provisioningProfile") = false →
  provisioningProfile
    (bundle_of (final (@clearCredentials collaborators this e b m w)) e' b')
  = provisioningProfile (bundle_of w e' b').
Proof.
  intros Hflag.
  pose (R := (λ s : SpecWorld,
       provisioningProfile (bundle_of s e' b')
       = provisioningProfile (bundle_of w e' b'))).
  assert (triple R (@clearCredentials collaborators this e b m) R
            (λ _, True)) as Hkeeps; [|by apply Hkeeps].
  keeps e' b' R.
Qed.

Lemma clearCredentials_keeps_pushCert e b (m : gmap string bool) w e' b' :
  truthy (m !! "pushCert") = false →
  pushCert
    (bundle_of (final (@clearCredentials collaborators this e b m w)) e' b')
  = pushCert (bundle_of w e' b').
Proof.
  intros Hflag.
  pose (R := (λ s : SpecWorld,
       pushCert (bundle_of s e' b') = pushCert (bundle_of w e' b'))).
  assert (triple R (@clearCredentials collaborators this e b m) R
            (λ _, True)) as Hkeeps; [|by apply Hkeeps].
  keeps e' b' R.
Qed.

(** Every removal is of an artifact the store held at the start. *)
Lemma clearCredentials_present e b (m : gmap string bool) w :
  Forall (present_in w e b)
    (events (@clearCredentials collaborators this e b m w)).
Proof.
  pose (J1 := λ s : SpecWorld,
          pushKey (bundle_of s e b) = pushKey (bundle_of w e b)
          ∧ pushCert (bundle_of s e b) = pushCert (bundle_of w e b)
          ∧ provisioningProfile (bundle_of s e b)
            = provisioningProfile (bundle_of w e b)).
  pose (J2 := λ s : SpecWorld,
          pushCert (bundle_of s e b) = pushCert (bundle_of w e b)
          ∧ provisioningProfile (bundle_of s e b)
            = provisioningProfile (bundle_of w e b)).
  pose (J3 := λ s : SpecWorld,
          pushCert (bundle_of s e b) = pushCert (bundle_of w e b)).
  assert (triple (λ s, s = w) (@clearCredentials collaborators this e b m)
            (λ _, True) (present_in w e b)) as Hpresent;
    [|by apply Hpresent].
  unfold clearCredentials.
  apply triple_bind_gets; intros s0 ->.
  apply (triple_bind _ J1 _); [|done|intros _].
  { repeat case_match; simplify_eq/=.
    - apply (@triple_call collaborators); [done|]. intros s ->. unfold J1.
      use_frames e b. done.
    - apply (triple_weaken J1 _ J1 J1); [by intros ? ->|done|].
      apply triple_ret.
    - apply (triple_weaken J1 _ J1 J1); [by intros ? ->|done|].
      apply triple_ret. }
  apply triple_bind_gets; intros s1 (Hkey & Hcert & Hprofile).
  apply (triple_bind _ J2 _); [|done|intros _].
  { repeat case_match; simplify_eq/=.
    - apply (@triple_call collaborators).
      + simpl. by etrans.
      + intros s ->. unfold J2. use_frames e b.
        split; by (etrans; [eassumption|]).
    - apply (triple_weaken J2 _ J2 J2); [by intros ? ->|done|].
      apply triple_ret.
    - apply (triple_weaken J2 _ J2 J2); [by intros ? ->|done|].
      apply triple_ret. }
  apply triple_bind_gets; intros s2 (Hcert2 & Hprofile2).
  apply triple_bind_gets; intros ? ->.
  apply (triple_bind _ J3 _); [|done|intros _].
  { repeat case_match; simplify_eq/=.
    - apply (@triple_call collaborators).
      + simpl. split; [|done]. rewrite <- Hprofile2. eauto.
      + intros s ->. unfold J3. use_frames e b.
        by (etrans; [eassumption|]).
    - apply (triple_weaken J3 _ J3 J3); [by intros ? ->|done|].
      apply triple_ret.
    - apply (triple_weaken J3 _ J3 J3); [by intros ? ->|done|].
      apply triple_ret. }
  apply triple_bind_gets; intros s3 Hcert3.
  repeat case_match; simplify_eq/=.
  - apply (@triple_call collaborators); [|done].
    simpl. split; [|done]. rewrite <- Hcert3. eauto.
  - apply (triple_weaken (λ _, True) _ (λ _, True) (λ _, True)); [done..|].
    apply triple_ret.
  - apply (triple_weaken (λ _, True) _ (λ _, True) (λ _, True)); [done..|].
    apply triple_ret.
Qed.
End SpecRemovals.

(** C6. The clear phase. On the code, whatever the removals do: each
    removal that is made was requested, the certificate removed is the one
    found in the store, and with nothing in the store the phase does
    nothing and returns, whatever was requested. With the removals the
    specification describes: each removal is of an artifact the store held
    for the application when the phase started; an entry that is not
    requested keeps its artifact, whatever else is cleared; and, removal by
    removal, removing a profile leaves every certificate in place and
    removing a certificate leaves every profile record in place. *)
Theorem clearCredentials_guarded_and_independent :
  (∀ (H : Collaborators) (this : Builder) e b (m : gmap string bool)
     (w : World),
     let run := clearCredentials this e b m w in
     Forall (λ ev, ∃ k, cleared_entry ev = Some k ∧ truthy (m !! k) = true)
       (events run)
     ∧ Forall (λ ev, ∀ sr ni c, ev = EvRemoveIosDist sr ni c →
                                ios_getDistCert e b w = Some c)
         (events run)
     ∧ (ios_getDistCert e b w = None →
        ios_getPushKey e b w = None →
        ios_getProvisioningProfile e b w = None →
        ios_getPushCert e b w = None →
        run = (Return tt, w, [])))
  ∧ (∀ (this : Builder) e b (m : gmap string bool) (w : SpecModel.SpecWorld),
       let run := @clearCredentials SpecModel.collaborators this e b m w in
       Forall (present_in w e b) (events run)
       ∧ ∀ e' b',
           let before := SpecModel.bundle_of w e' b' in
           let after := SpecModel.bundle_of (final run) e' b' in
           (truthy (m !! "distributionCert") = false →
            SpecModel.distributionCert after = SpecModel.distributionCert before)
           ∧ (truthy (m !! "pushKey") = false →
              SpecModel.pushKey after = SpecModel.pushKey before)
           ∧ (truthy (m !! "provisioningProfile") = false →
              SpecModel.provisioningProfile after
              = SpecModel.provisioningProfile before)
           ∧ (truthy (m !! "pushCert") = false →
              SpecModel.pushCert after = SpecModel.pushCert before))
  ∧ (∀ shouldRevoke nonInteractive app w e' b',
       SpecModel.distributionCert
         (SpecModel.bundle_of
            (SpecModel.removeProfile shouldRevoke nonInteractive app w).2 e' b')
       = SpecModel.distributionCert (SpecModel.bundle_of w e' b'))
  ∧ (∀ shouldRevoke nonInteractive c w e' b',
       SpecModel.provisioningProfile
         (SpecModel.bundle_of
            (SpecModel.removeDistCert shouldRevoke nonInteractive c w).2 e' b')
       = SpecModel.provisioningProfile (SpecModel.bundle_of w e' b')).
Proof.
  split; [|split; [|split]].
  - intros H this e b m w run. split; [|split].
    + eapply Forall_impl; [apply clearCredentials_emits|].
      intros ev (k & Hk & Hm). exists k. by rewrite Hm.
    + apply clearCredentials_distCert_present.
    + apply clearCredentials_absent.
  - intros this e b m w run. split; [apply clearCredentials_present|].
    intros e' b' before after. subst before after run. split_and!.
    + apply clearCredentials_keeps_distCert.
    + apply clearCredentials_keeps_pushKey.
    + apply clearCredentials_keeps_profile.
    + apply clearCredentials_keeps_pushCert.
  - intros. apply removeProfile_frame.
  - intros. apply removeDistCert_frame.
Qed.

(** On a store with a certificate, a push key and a profile: clearing the
    profile alone leaves the certificate; clearing the certificate alone
    leaves the profile record; and on an empty store, clearing everything
    does nothing. *)
Lemma clearCredentials_guarded_and_independent_witness :
  let this := Inputs.builder_with Inputs.no_options in
  let e := "@acme/app" in
  let b := "com.acme.app" in
  let profile_only : gmap string bool := {[ "provisioningProfile" := true ]} in
  let cert_only : gmap string bool := {[ "distributionCert" := true ]} in
  let everything : gmap string bool :=
    {[ "distributionCert" := true; "pushKey" := true; "pushCert" := true;
       "provisioningProfile" := true ]} in
  let clear m w := @clearCredentials SpecModel.collaborators this e b m w in
  events (clear profile_only Inputs.stocked_world)
  = [EvRemoveProvisioningProfile false false (SpecModel.mkAppRef e b)]
  ∧ SpecModel.distributionCert
      (SpecModel.bundle_of (final (clear profile_only Inputs.stocked_world))
         e b)
    = SpecModel.distributionCert (SpecModel.bundle_of Inputs.stocked_world e b)
  ∧ SpecModel.provisioningProfile
      (SpecModel.bundle_of (final (clear cert_only Inputs.stocked_world)) e b)
    = SpecModel.provisioningProfile
        (SpecModel.bundle_of Inputs.stocked_world e b)
  ∧ Forall (present_in Inputs.stocked_world e b)
      (events (clear everything Inputs.stocked_world))
  ∧ clear everything Inputs.empty_world = (Return tt, Inputs.empty_world, []).
Proof.
  intros this e b profile_only cert_only everything clear.
  destruct clearCredentials_guarded_and_independent
    as (Hcode & Hspec & _ & _).
  split; [reflexivity|].
  split.
  { exact (proj1 (proj2 (Hspec this e b profile_only Inputs.stocked_world)
                   e b) eq_refl). }
  split.
  { exact (proj1 (proj2 (proj2 (proj2
             (Hspec this e b cert_only Inputs.stocked_world) e b)))
             eq_refl). }
  split.
  { exact (proj1 (Hspec this e b everything Inputs.stocked_world)). }
  exact (proj2 (proj2 (Hcode SpecModel.collaborators this e b everything
                         Inputs.empty_world))
           eq_refl eq_refl eq_refl eq_refl).
Defined.

(** * Properties of the Podfile tooling *)

Section Podfile.
Import IosPodsTools.
Context `{Platform}.
Implicit Types (o : JsObject) (key k : string) (fs : FileSystem).

(** The keys a [for...in] loop visits are the keys of the object. *)
Lemma elem_of_own_keys o k : k ∈ own_keys o ↔ k ∈ o.*1.
Proof.
  unfold own_keys. rewrite elem_of_app, list_elem_of_fmap.
  setoid_rewrite merge_sort_Permutation.
  setoid_rewrite list_elem_of_omap. rewrite list_elem_of_filter.
  split.
  - intros [((n & k') & -> & (kv & Hin & Hkv))|[_ Hin]]; [|done].
    destruct (array_index kv.1) as [n'|] eqn:Hindex; simplify_eq/=.
    apply list_elem_of_fmap. eauto.
  - intros Hin. destruct (array_index k) as [n|] eqn:Hindex; [|by right].
    left. apply list_elem_of_fmap in Hin as (kv & -> & Hin).
    exists (n, kv.1). split; [done|]. exists kv. by rewrite Hindex.
Qed.



Lemma obj_get_nil k : obj_get [] k = VUndefined.
Proof. done. Qed.

Lemma obj_get_cons k0 v0 o k :
  obj_get ((k0, v0) :: o) k = if bool_decide (k0 = k) then v0 else obj_get o k.
Proof.
  unfold obj_get. simpl. case_decide; case_bool_decide; try done.
  by destruct (list_find _ o) as [[??]|].
Qed.

(** A property the object does not have reads as [undefined]. *)
Lemma obj_get_absent o k : k ∉ o.*1 → obj_get o k = VUndefined.
Proof.
  induction o as [|[k0 v0] o IH]; [done|]. simpl.
  rewrite not_elem_of_cons. intros [Hk Ho].
  rewrite obj_get_cons, bool_decide_eq_false_2 by done. by apply IH.
Qed.

(** Reading a property after writing one. *)
Lemma obj_get_obj_set k v o k' :
  obj_get (obj_set k v o) k' = if bool_decide (k = k') then v else obj_get o k'.
Proof.
  induction o as [|[k0 v0] o IH]; cbn [obj_set].
  - by rewrite obj_get_cons, obj_get_nil.
  - destruct (decide (k0 = k)) as [->|Hk0].
    + rewrite (bool_decide_eq_true_2 (k = k)) by done.
      rewrite !obj_get_cons. by case_bool_decide.
    + rewrite (bool_decide_eq_false_2 (k0 = k)) by done.
      rewrite !obj_get_cons, IH.
      repeat case_bool_decide; simplify_eq; done.
Qed.

(** In [{ ...literal, ...more }] a property of [more] wins. *)
Lemma obj_get_spread literal more k :
  obj_get (spread literal more) k
  = if bool_decide (k ∈ more.*1) then obj_get more k else obj_get literal k.
Proof.
  unfold spread.
  assert (Hkeys : bool_decide (k ∈ more.*1) = bool_decide (k ∈ own_keys more)).
  { apply bool_decide_ext. by rewrite elem_of_own_keys. }
  rewrite Hkeys. clear Hkeys.
  generalize (own_keys more). intros keys. revert literal.
  induction keys as [|key keys IH]; intros literal; cbn [foldl].
  - by rewrite bool_decide_eq_false_2 by apply not_elem_of_nil.
  - rewrite IH, obj_get_obj_set.
    destruct (decide (k ∈ keys)) as [Hin|Hin].
    + rewrite !bool_decide_eq_true_2; [done|by right|done].
    + rewrite (bool_decide_eq_false_2 (k ∈ keys)) by done.
      destruct (decide (key = k)) as [->|Hkey].
      * rewrite !bool_decide_eq_true_2; [done|by left|done].
      * rewrite !bool_decide_eq_false_2; [done| |done].
        rewrite elem_of_cons. intros [?|?]; done.
Qed.

(** Without an entry that shadows [hasOwnProperty], the validation stops
    at the first key that is not recognized, and names it. *)
Lemma validate_keys_find (substitutions : JsObject) (keys : list string) :
  "hasOwnProperty" ∉ substitutions.*1 →
  validate_keys substitutions keys =
    match list_find (λ key, key ∉ validKeys) keys with
    | Some (_, key) =>
        Throw (mkException JsError None
                 ("Unrecognized Podfile template key: " +:+ key))
    | None => Return true
    end.
Proof.
  intros Hown. induction keys as [|key keys IH]; [done|]. simpl.
  unfold hasOwnProperty. rewrite (bool_decide_eq_false_2 _ Hown). simpl.
  rewrite IH. case_bool_decide; case_decide; try done.
  by destruct (list_find _ keys) as [[??]|].
Qed.

(** With an entry that is no function, the first test of the loop
    throws. *)
Lemma validate_keys_shadowed (substitutions : JsObject) (keys : list string) :
  "hasOwnProperty" ∈ substitutions.*1 →
  (∀ f, obj_get substitutions "hasOwnProperty" ≠ VFunction f) →
  keys ≠ [] →
  validate_keys substitutions keys =
    Throw (mkException JsError None
             "substitutions.hasOwnProperty is not a function").
Proof.
  intros Hown Hvalue Hkeys. destruct keys as [|key keys]; [done|]. simpl.
  unfold hasOwnProperty. rewrite (bool_decide_eq_true_2 _ Hown).
  destruct (obj_get substitutions "hasOwnProperty") as [| | | | |f] eqn:Hf;
    try done.
  by destruct (Hvalue f).
Qed.

(** With a function that answers no, no key is looked at. *)
Lemma hasOwnProperty_called (substitutions : JsObject) f key :
  obj_get substitutions "hasOwnProperty" = VFunction f →
  hasOwnProperty substitutions key = fn_called f key.
Proof.
  intros Hf. unfold hasOwnProperty. rewrite Hf.
  case_bool_decide as Hown; [done|].
  by rewrite (obj_get_absent _ _ Hown) in Hf.
Qed.

Lemma validate_keys_unchecked (substitutions : JsObject) f
    (keys : list string) :
  obj_get substitutions "hasOwnProperty" = VFunction f →
  Forall (λ key, fn_called f key = Return false) keys →
  validate_keys substitutions keys = Return true.
Proof.
  intros Hf. induction 1 as [|key keys Hkey _ IH]; [done|]. simpl.
  by rewrite (hasOwnProperty_called _ _ _ Hf), Hkey.
Qed.


Lemma fs_readFile_quiet path : quiet (fs_readFile path).
Proof. intros fs. unfold fs_readFile. by destruct (fs !! path). Qed.

Lemma read_templates_quiet filenames templateStrings :
  quiet (read_templates filenames templateStrings).
Proof.
  revert templateStrings.
  induction filenames as [|filename filenames IH]; intros templateStrings;
    simpl; [apply quiet_ret|].
  apply quiet_bind; [apply fs_readFile_quiet|].
  intros templateString. case_bool_decide; apply IH.
Qed.

Lemma _concatTemplateFilesInDirectoryAsync_quiet directory filterFn :
  quiet (_concatTemplateFilesInDirectoryAsync directory filterFn).
Proof.
  unfold _concatTemplateFilesInDirectoryAsync.
  apply quiet_bind; [apply quiet_lift|]. intros pattern.
  apply quiet_bind; [apply quiet_read|]. intros found.
  apply quiet_bind; [apply read_templates_quiet|]. intros templateStrings.
  apply quiet_ret.
Qed.

(** Everything up to the substitutions only reads the file system. *)
Lemma renderPodfileAsync_substitutions_quiet pathToTemplate moreSubstitutions
    shellAppSdkVersion sdkVersion :
  quiet (renderPodfileAsync_substitutions pathToTemplate moreSubstitutions
           shellAppSdkVersion sdkVersion).
Proof.
  unfold renderPodfileAsync_substitutions,
    _renderVersionedReactNativeDependenciesAsync,
    _renderVersionedReactNativePostinstallsAsync, _renderPodDependenciesAsync.
  repeat first
    [ apply _concatTemplateFilesInDirectoryAsync_quiet
    | apply quiet_ret | apply quiet_lift | apply quiet_read
    | apply fs_readFile_quiet
    | apply quiet_bind; [|intros ?] ].
Qed.




(** The ways a run of [renderPodfileAsync] can go. *)
Lemma renderPodfileAsync_run pathToTemplate pathToOutput moreSubstitutions
    shellAppSdkVersion sdkVersion fs :
  let prepared :=
    renderPodfileAsync_substitutions pathToTemplate moreSubstitutions
      shellAppSdkVersion sdkVersion fs in
  renderPodfileAsync pathToTemplate pathToOutput moreSubstitutions
    shellAppSdkVersion sdkVersion fs
  = match outcome prepared with
    | Throw err => (Throw err, fs, [])
    | Return (templateString, substitutions) =>
        match _validatePodfileSubstitutions substitutions with
        | Throw err => (Throw err, fs, [])
        | Return _ =>
            match replace_substitutions substitutions templateString with
            | Throw err => (Throw err, fs, [])
            | Return result => fs_writeFile pathToOutput result fs
            end
        end
    end.
Proof.
  intros prepared. unfold renderPodfileAsync. rewrite bind_run.
  destruct (renderPodfileAsync_substitutions_quiet pathToTemplate
              moreSubstitutions shellAppSdkVersion sdkVersion fs)
    as [Hfinal Hevents].
  fold prepared in Hfinal, Hevents |- *.
  unfold outcome, final, events in *.
  destruct prepared as [[[[templateString substitutions]|err] fs'] t];
    simpl in *; subst; [|done].
  cbv [bind lift].
  destruct (_validatePodfileSubstitutions substitutions); [|done].
  destruct (replace_substitutions substitutions templateString); [|done].
  by destruct (fs_writeFile pathToOutput _ fs) as [[??]?].
Qed.

End Podfile.



(** * Further properties of the credential phase *)

Section Outcomes.
Context `{Collaborators}.
Variable this : Builder.
Implicit Types (e b : string) (w : World).

(** The clear phase only makes removals. *)
Lemma clearAndRevokeCredentialsIfRequested_emits e b :
  emits (λ ev, is_clear ev = true ∧ is_authentication ev = false
               ∧ is_production ev = false ∧ is_report ev = false)
    (clearAndRevokeCredentialsIfRequested this e b).
Proof.
  intros w. unfold clearAndRevokeCredentialsIfRequested.
  case_match; [|constructor].
  eapply Forall_impl; [apply clearCredentials_emits|].
  intros ev (k & Hk & _). by destruct ev.
Qed.

(** X1. When every phase succeeds, [prepareCredentials] returns in the
    world the production phase left, and the calls it made are those of the
    clear phase, of the authentication gate and of the production phase,
    followed by the report: the report is made once, last, with the
    credentials the store then holds. *)
Theorem prepareCredentials_success_reported w b w1 w2 t2 w3 t3 w4 t4 :
  let e := experienceName this in
  truthy_string (manifest_ios (manifest this) ≫= ios_bundleIdentifier)
  = Some b →
  truthy (opt_skipCredentialsCheck (options this)) = false →
  ctx_init (projectDir this) w = (Return tt, w1) →
  clearAndRevokeCredentialsIfRequested this e b w1 = (Return tt, w2, t2) →
  bestEffortAppleCtx this w2 = (Return tt, w3, t3) →
  produceCredentials this e b w3 = (Return tt, w4, t4) →
  prepareCredentials this w
  = (Return tt, w4,
     t2 ++ t3 ++ t4
     ++ [EvDisplayProjectCredentials e b (ios_getAllCredentials w4)])
  ∧ Forall (λ ev, is_report ev = false) (t2 ++ t3 ++ t4).
Proof.
  intros e Hbundle Hskip Hinit Hclear Hgate Hproduce. split.
  - unfold prepareCredentials. rewrite Hbundle. fold (experienceName this).
    fold e. rewrite bind_run. unfold step at 1. rewrite Hinit.
    rewrite bind_run, Hclear, Hskip, bind_run, Hgate.
    unfold try_finally, try_catch. rewrite Hproduce.
    unfold displayCredentials. rewrite bind_gets. unfold emit.
    by rewrite <- ?app_assoc.
  - rewrite !Forall_app. split_and!.
    + pose proof (clearAndRevokeCredentialsIfRequested_emits e b w1) as Hev.
      rewrite Hclear in Hev.
      eapply Forall_impl; [exact Hev|]. by intros ev (_ & _ & _ & ?).
    + pose proof (bestEffortAppleCtx_emits this w2) as Hev.
      rewrite Hgate in Hev.
      eapply Forall_impl; [exact Hev|]. by intros ev (_ & _ & ?).
    + pose proof (produceCredentials_emits this e b w3) as Hev.
      rewrite Hproduce in Hev.
      eapply Forall_impl; [exact Hev|]. by intros ev (_ & _ & ?).
Qed.
End Outcomes.

(** The operator is authenticated and the remote authority creates all
    three artifacts. *)
Lemma prepareCredentials_success_reported_witness :
  let o :=
    mkOptions (Some "dev@acme.example") None None None None None None None
      None None [] in
  let this := Inputs.builder_with o in
  let e := "@acme/app" in
  let b := "com.acme.app" in
  let run :=
    @prepareCredentials SpecModel.collaborators this Inputs.empty_world in
  outcome run = Return tt
  ∧ events run
    = [EvEnsureAppleCtx o;
       EvEnsureAppExists "dev@acme.example" e b true;
       EvSetupIosDist e b false;
       EvSetupIosPush e b false;
       EvSetupIosProvisioningProfile e b
         (SpecModel.mkArtifact "cert:com.acme.app"
            (Some "remote-cert:com.acme.app")) false;
       EvDisplayProjectCredentials e b (SpecModel.store (final run))].
Proof.
  intros o this e b run.
  destruct (@prepareCredentials_success_reported SpecModel.collaborators this
              Inputs.empty_world b _ _ _ _ _ _ _
              eq_refl eq_refl eq_refl eq_refl eq_refl eq_refl)
    as [Hrun _].
  split; [exact (f_equal outcome Hrun)|].
  exact (f_equal events Hrun).
Defined.

(** X2. A failure before the production phase is not reported. When the
    clear phase throws, [prepareCredentials] throws that error in the world
    the clear phase left, having made removals only; when the
    authentication gate throws, it throws that error after the calls of the
    clear phase and of the gate. In both cases no call of the production
    phase is made and the report is not shown. *)
Theorem prepareCredentials_early_failure_unreported `{Collaborators} :
  (∀ this w b w1 w2 t2 err,
     let e := experienceName this in
     truthy_string (manifest_ios (manifest this) ≫= ios_bundleIdentifier)
     = Some b →
     ctx_init (projectDir this) w = (Return tt, w1) →
     clearAndRevokeCredentialsIfRequested this e b w1 = (Throw err, w2, t2) →
     prepareCredentials this w = (Throw err, w2, t2)
     ∧ Forall (λ ev, is_clear ev = true) t2)
  ∧ (∀ this w b w1 w2 t2 w3 t3 err,
       let e := experienceName this in
       truthy_string (manifest_ios (manifest this) ≫= ios_bundleIdentifier)
       = Some b →
       truthy (opt_skipCredentialsCheck (options this)) = false →
       ctx_init (projectDir this) w = (Return tt, w1) →
       clearAndRevokeCredentialsIfRequested this e b w1
       = (Return tt, w2, t2) →
       bestEffortAppleCtx this w2 = (Throw err, w3, t3) →
       prepareCredentials this w = (Throw err, w3, t2 ++ t3)
       ∧ Forall (λ ev, is_production ev = false ∧ is_report ev = false)
           (t2 ++ t3)).
Proof.
  split.
  - intros this w b w1 w2 t2 err e Hbundle Hinit Hclear. split.
    + unfold prepareCredentials. rewrite Hbundle.
      fold (experienceName this). fold e.
      rewrite bind_run. unfold step at 1. rewrite Hinit.
      by rewrite bind_run, Hclear.
    + pose proof (clearAndRevokeCredentialsIfRequested_emits this e b w1)
        as Hev.
      rewrite Hclear in Hev.
      eapply Forall_impl; [exact Hev|]. by intros ev (? & _).
  - intros this w b w1 w2 t2 w3 t3 err e Hbundle Hskip Hinit Hclear Hgate.
    split.
    + unfold prepareCredentials. rewrite Hbundle.
      fold (experienceName this). fold e.
      rewrite bind_run. unfold step at 1. rewrite Hinit.
      by rewrite bind_run, Hclear, Hskip, bind_run, Hgate.
    + rewrite Forall_app. split.
      * pose proof (clearAndRevokeCredentialsIfRequested_emits this e b w1)
          as Hev.
        rewrite Hclear in Hev.
        eapply Forall_impl; [exact Hev|]. by intros ev (_ & _ & ? & ?).
      * pose proof (bestEffortAppleCtx_emits this w2) as Hev.
        rewrite Hgate in Hev.
        eapply Forall_impl; [exact Hev|]. by intros ev (_ & ? & ?).
Qed.

(** The remote authority refuses every authentication. First the
    certificate is to be cleared and revoked: its revocation fails. Then an
    Apple id is given: the gate's authentication fails. *)
Lemma prepareCredentials_early_failure_unreported_witness :
  let e := "@acme/app" in
  let b := "com.acme.app" in
  let w :=
    SpecModel.mkWorld (SpecModel.store Inputs.stocked_world) None [] []
      [SpecModel.Authenticate] false in
  let clearing :=
    Inputs.builder_with
      (mkOptions None None None None None (Some true) None None None
         (Some true) []) in
  let o :=
    mkOptions (Some "dev@acme.example") None None None None None None None
      None None [] in
  let err := mkException JsError (Some "AUTH") "Authentication failed" in
  (outcome (@prepareCredentials SpecModel.collaborators clearing w)
   = Throw err
   ∧ events (@prepareCredentials SpecModel.collaborators clearing w)
     = [EvRemoveIosDist true false Inputs.acme_cert])
  ∧ @prepareCredentials SpecModel.collaborators (Inputs.builder_with o) w
    = (Throw err, w, [] ++ [EvEnsureAppleCtx o]).
Proof.
  intros e b w clearing o err.
  pose proof (@prepareCredentials_early_failure_unreported
                SpecModel.collaborators) as [Hclear Hgate].
  split.
  - destruct (Hclear clearing w b _ _ _ err eq_refl eq_refl eq_refl)
      as [Hrun _].
    split; [exact (f_equal outcome Hrun)|exact (f_equal events Hrun)].
  - exact (proj1 (Hgate (Inputs.builder_with o) w b w w [] w _ err
                    eq_refl eq_refl eq_refl eq_refl eq_refl)).
Defined.

Section ClearPhase.
Context `{Collaborators}.
Variable this : Builder.
Implicit Types (e b : string) (m : gmap string bool) (w : World).

(** X3. The clear phase and the clear request agree: the request
    [determineCredentialsToClear] builds is empty exactly when all five
    clear flags are falsy; then [clearAndRevokeCredentialsIfRequested]
    makes no call, reads nothing and leaves the world as it is; otherwise
    it is [clearCredentials] run on that request. *)
Theorem clearAndRevokeCredentialsIfRequested_request :
  (determineCredentialsToClear this = ∅ ↔ nothing_to_clear (options this))
  ∧ (nothing_to_clear (options this) →
     ∀ e b w,
       clearAndRevokeCredentialsIfRequested this e b w = (Return tt, w, []))
  ∧ (¬ nothing_to_clear (options this) →
     ∀ e b w,
       clearAndRevokeCredentialsIfRequested this e b w
       = clearCredentials this e b (determineCredentialsToClear this) w).
Proof.
  assert (Hflags : ∀ a : option bool, truthy a = false ∨ truthy a = true).
  { intros a. destruct (truthy a); auto. }
  split; [|split].
  - rewrite map_empty. unfold nothing_to_clear. split.
    + intros Hempty.
      assert (Hno : ∀ k, ¬ determineCredentialsToClear this !! k = Some true).
      { intros k. by rewrite Hempty. }
      pose proof (Hno "distributionCert") as Hdist.
      pose proof (Hno "pushKey") as Hkey.
      pose proof (Hno "pushCert") as Hcert.
      pose proof (Hno "provisioningProfile") as Hprofile.
      rewrite determineCredentialsToClear_lookup in Hdist, Hkey, Hcert,
        Hprofile.
      destruct (Hflags (opt_clearCredentials (options this))) as [Ha|Ha].
      2: { destruct Hdist. split; [done|]. left. split; [done|]. by left. }
      destruct (Hflags (opt_clearDistCert (options this))) as [Hb|Hb].
      2: { destruct Hdist. split; [done|]. left. split; [done|]. by right. }
      destruct (Hflags (opt_clearPushKey (options this))) as [Hc|Hc].
      2: { destruct Hkey. split; [done|]. right; left. split; [done|].
           by right. }
      destruct (Hflags (opt_clearPushCert (options this))) as [Hd|Hd].
      2: { destruct Hcert. split; [done|]. do 2 right; left.
           split; [done|]. by right. }
      destruct (Hflags (opt_clearProvisioningProfile (options this)))
        as [He|He]; [done|].
      destruct Hprofile. split; [done|]. do 3 right. split; [done|].
      by right.
    + intros (Ha & Hb & Hc & Hd & He) k. apply eq_None_not_Some.
      intros [v Hv]. apply determineCredentialsToClear_lookup in Hv.
      rewrite Ha, Hb, Hc, Hd, He in Hv.
      destruct Hv as (_ & [[_ [?|?]]|[[_ [?|?]]|[[_ [?|?]]|[_ [?|?]]]]]);
        done.
  - intros (Ha & Hb & Hc & Hd & He) e b w.
    unfold clearAndRevokeCredentialsIfRequested.
    by rewrite !truthy_js_or, Ha, Hb, Hc, Hd, He.
  - intros Hsome e b w. unfold clearAndRevokeCredentialsIfRequested.
    rewrite !truthy_js_or. case_match eqn:Hany; [done|].
    destruct Hsome. unfold nothing_to_clear.
    by repeat (apply orb_false_iff in Hany as [Hany ?]).
Qed.

(** X4. Every removal of [clearCredentials] is given the revocation flag
    of the command line, as a condition, and the mode of the builder; the
    legacy push certificate is deleted from the store for the application
    at hand, with no revocation flag at all. Nothing else is called. *)
Theorem clearCredentials_arguments e b m :
  emits (clear_arguments this e b) (clearCredentials this e b m).
Proof. unfold clearCredentials. emits_steps; done. Qed.

(** X5. The removals of [clearCredentials] are made in a fixed order, each
    at most once: the distribution certificate, the push key, the
    provisioning profile, the legacy push certificate. *)
Theorem clearCredentials_order e b m w :
  StronglySorted (λ ev ev', clear_rank ev < clear_rank ev')
    (events (clearCredentials this e b m w)).
Proof.
  cbv [clearCredentials bind gets ret call emit step events].
  repeat case_match; simplify_eq/=;
    repeat first [ apply SSorted_nil
                 | apply SSorted_cons; [|repeat constructor; simpl; lia] ].
Qed.

(** X6. [clearCredentials] has no handler: when the removal of the
    distribution certificate throws, the error is thrown on in the world
    that removal left, and no other artifact is looked at or removed. *)
Theorem clearCredentials_failure_stops e b m w distributionCert w1 err :
  truthy (m !! "distributionCert") = true →
  ios_getDistCert e b w = Some distributionCert →
  remove_IosDist (truthy (opt_revokeCredentials (options this)))
    (nonInteractive this) distributionCert w = (Throw err, w1) →
  clearCredentials this e b m w
  = (Throw err, w1,
     [EvRemoveIosDist (truthy (opt_revokeCredentials (options this)))
        (nonInteractive this) distributionCert]).
Proof.
  intros Hflag Hcert Hremove.
  cbv [clearCredentials bind gets ret call emit step].
  by rewrite Hflag, Hcert, Hremove.
Qed.
End ClearPhase.

(** Without a clear flag the stocked store is left alone; with
    [clearDistCert] the phase is [clearCredentials] on the request. *)
Lemma clearAndRevokeCredentialsIfRequested_request_witness :
  let plain := Inputs.builder_with Inputs.no_options in
  let clearing :=
    Inputs.builder_with
      (mkOptions None None None None None (Some true) None None None None
         []) in
  @clearAndRevokeCredentialsIfRequested SpecModel.collaborators plain
    "@acme/app" "com.acme.app" Inputs.stocked_world
  = (Return tt, Inputs.stocked_world, [])
  ∧ events
      (@clearAndRevokeCredentialsIfRequested SpecModel.collaborators clearing
         "@acme/app" "com.acme.app" Inputs.stocked_world)
    = [EvRemoveIosDist false false Inputs.acme_cert].
Proof.
  intros plain clearing.
  pose proof (@clearAndRevokeCredentialsIfRequested_request
                SpecModel.collaborators plain) as (_ & Hnone & _).
  pose proof (@clearAndRevokeCredentialsIfRequested_request
                SpecModel.collaborators clearing) as (_ & _ & Hsome).
  split.
  - apply Hnone. repeat split; reflexivity.
  - rewrite Hsome; [reflexivity|].
    intros (_ & Hflag & _). discriminate Hflag.
Defined.

(** The certificate is to be cleared and revoked, and the remote authority
    refuses the authentication the revocation needs: the push key and the
    profile, also asked for, are not removed. *)
Lemma clearCredentials_failure_stops_witness :
  let this :=
    Inputs.builder_with
      (mkOptions None None None None (Some true) None None None None
         (Some true) []) in
  let w :=
    SpecModel.mkWorld (SpecModel.store Inputs.stocked_world) None [] []
      [SpecModel.Authenticate] false in
  let run :=
    @clearCredentials SpecModel.collaborators this "@acme/app" "com.acme.app"
      (determineCredentialsToClear this) w in
  outcome run
  = Throw (mkException JsError (Some "AUTH") "Authentication failed")
  ∧ events run = [EvRemoveIosDist true false Inputs.acme_cert]
  ∧ SpecModel.pushKey (SpecModel.bundle_of (final run) "@acme/app" "com.acme.app")
    = Some Inputs.acme_key.
Proof.
  intros this w run.
  pose proof (@clearCredentials_failure_stops SpecModel.collaborators this
                "@acme/app" "com.acme.app" (determineCredentialsToClear this)
                w Inputs.acme_cert _ _ eq_refl eq_refl eq_refl) as Hrun.
  split; [exact (f_equal outcome Hrun)|].
  split; [exact (f_equal events Hrun)|].
  subst run. rewrite Hrun. reflexivity.
Defined.

(** ** The production phase: what is called, and with what *)

Section ProductionCalls.
Context `{Collaborators}.
Variable this : Builder.
Implicit Types (e b : string) (w : World).

(** X7. The calls of [produceCredentials] are given the application it
    was called for: the remote registration gets the session the context
    holds on entry and enables push notifications; every view gets the
    names of the application and the mode of the builder; every adoption of
    a command-line artifact gets the application credentials read on entry,
    and the profile's also the team id of the command line. Apart from the
    failure messages of the steps nothing else is called. *)
Theorem produceCredentials_arguments e b w :
  Forall (production_arguments this e b w)
    (events (produceCredentials this e b w)).
Proof.
  rewrite produceCredentials_steps.
  match goal with
  | |- context [bind (registration e b) (λ _, ?k)] => set (rest := k)
  end.
  assert (Hrest : emits (production_arguments this e b w) rest).
  { subst rest.
    unfold _setupDistCert, _setupPushCert, _setupProvisioningProfile, call.
    emits_steps; done. }
  rewrite bind_run, registration_run.
  destruct (ctx_appleCtx w) as [a|] eqn:Hctx.
  - destruct (apple_ensureAppExists a e b true w) as [[[]|err] w1].
    + specialize (Hrest w1). destruct (rest w1) as [[r w2] t2].
      unfold events in *. simpl in *.
      constructor; [|done]. unfold production_arguments. by rewrite Hctx.
    + unfold events. simpl. constructor; [|constructor].
      unfold production_arguments. by rewrite Hctx.
  - specialize (Hrest w). by destruct (rest w) as [[r w2] t2].
Qed.

(** The log of a step: its failure message, nothing else. *)
Lemma resolver_run_logged n message r t :
  resolver_run n message r t →
  (EvLogError message ∈ t ↔ ∃ err, r = Throw err)
  ∧ ∀ text, EvLogError text ∈ t → text = message.
Proof.
  destruct 1 as [ev Hev|ev err Hev|err].
  - split; [split|].
    + intros Hin%list_elem_of_singleton. by subst ev.
    + by intros [err ?].
    + intros text Hin%list_elem_of_singleton. by subst ev.
  - split; [split; [eauto|]|].
    + intros _. rewrite !elem_of_cons. auto.
    + intros text. rewrite !elem_of_cons, elem_of_nil.
      intros [Hin|[[= ->]|[]]]; [|done]. by subst ev.
  - split; [split; [eauto|]|].
    + intros _. by apply list_elem_of_singleton.
    + by intros text [= ->]%list_elem_of_singleton.
Qed.

(** X8. Each step of the production phase logs its own failure message,
    and exactly when it throws: a step that returns logs no error, and a
    step that throws has logged [Failed to set up ...] for its credential
    type and no other error. *)
Theorem setup_steps_log_their_failure e b app distributionCert w :
  let logged (message : string) (run : Outcome unit * World * list Event) :=
    (EvLogError message ∈ events run ↔ ∃ err, outcome run = Throw err)
    ∧ ∀ text, EvLogError text ∈ events run → text = message in
  logged "Failed to set up Distribution Certificate"
    (_setupDistCert this e b app w)
  ∧ logged "Failed to set up Push Key" (_setupPushCert this e b app w)
  ∧ logged "Failed to set up Provisioning Profile"
      (_setupProvisioningProfile this e b app distributionCert w).
Proof.
  intros logged. split_and!.
  - eapply resolver_run_logged, _setupDistCert_run.
  - eapply resolver_run_logged, _setupPushCert_run.
  - eapply resolver_run_logged, _setupProvisioningProfile_run.
Qed.
End ProductionCalls.

Section Routes.
Context `{Collaborators}.
Variable this : Builder.
Implicit Types (e b : string) (w : World).

(** A step whose parameters hold an artifact adopts it; a step whose
    parameters hold none runs its view. *)
Lemma resolver_route {P} (message : string)
    (getParams : World → Outcome (option P) * World)
    (use_ev : P → Event) (use : P → World → Outcome unit * World)
    (run_ev : Event) (run : World → Outcome unit * World)
    (T : Event → Prop) :
  T (EvLogError message) →
  (∀ w p w1, getParams w = (Return (Some p), w1) → T (use_ev p)) →
  (∀ w w1, getParams w = (Return None, w1) → T run_ev) →
  emits T
    (try_catch
       (p <- step getParams ;;
        match p with
        | Some p => call (use_ev p) (use p)
        | None => call run_ev run
        end)%eff
       (λ err, emit (EvLogError message) ;; throw err)%eff).
Proof.
  intros Hlog Huse Hrun w.
  cbv [try_catch bind step call emit throw events fst snd].
  destruct (getParams w) as [[[p|]|err] w1] eqn:Hparams; simpl.
  - specialize (Huse _ _ _ Hparams).
    destruct (use p w1) as [[[]|err] w2]; simpl; repeat constructor; done.
  - specialize (Hrun _ _ Hparams).
    destruct (run w1) as [[[]|err] w2]; simpl; repeat constructor; done.
  - repeat constructor; done.
Qed.

(** X9. The route of each credential type is decided by the command line
    alone. If the parameters always hold a distribution certificate, a push
    key and a provisioning profile, [produceCredentials] adopts them and
    runs no view of the credentials manager; if they never hold one, it
    adopts nothing and every artifact comes from a view. *)
Theorem produceCredentials_routes e b :
  ((∀ w, ∃ p w1,
      getDistCertFromParams (options this) w = (Return (Some p), w1)) →
   (∀ w, ∃ p w1,
      getPushKeyFromParams (options this) w = (Return (Some p), w1)) →
   (∀ w, ∃ p w1,
      getProvisioningProfileFromParams (options this) w
      = (Return (Some p), w1)) →
   emits (λ ev, is_manager_view ev = false) (produceCredentials this e b))
  ∧ ((∀ w, ∃ w1,
        getDistCertFromParams (options this) w = (Return None, w1)) →
     (∀ w, ∃ w1,
        getPushKeyFromParams (options this) w = (Return None, w1)) →
     (∀ w, ∃ w1,
        getProvisioningProfileFromParams (options this) w
        = (Return None, w1)) →
     emits (λ ev, is_adoption ev = false) (produceCredentials this e b)).
Proof.
  split; intros Hdist Hkey Hprofile; unfold produceCredentials.
  - apply emits_bind; [apply emits_gets|]. intros app.
    apply emits_bind; [apply emits_gets|]. intros ctx.
    apply emits_bind; [unfold call; emits_steps; done|]. intros _.
    apply emits_bind.
    { apply resolver_route; [done|done|].
      intros w w1 Hnone. destruct (Hdist w) as (? & ? & Hsome).
      by rewrite Hsome in Hnone. }
    intros _. apply emits_bind; [apply emits_gets|].
    intros [distributionCert|]; [|apply emits_throw].
    apply emits_bind.
    { apply resolver_route; [done|done|].
      intros w w1 Hnone. destruct (Hkey w) as (? & ? & Hsome).
      by rewrite Hsome in Hnone. }
    intros _. apply resolver_route; [done|done|].
    intros w w1 Hnone. destruct (Hprofile w) as (? & ? & Hsome).
    by rewrite Hsome in Hnone.
  - apply emits_bind; [apply emits_gets|]. intros app.
    apply emits_bind; [apply emits_gets|]. intros ctx.
    apply emits_bind; [unfold call; emits_steps; done|]. intros _.
    apply emits_bind.
    { apply resolver_route; [done| |done].
      intros w p w1 Hsome. destruct (Hdist w) as (? & Hnone).
      by rewrite Hsome in Hnone. }
    intros _. apply emits_bind; [apply emits_gets|].
    intros [distributionCert|]; [|apply emits_throw].
    apply emits_bind.
    { apply resolver_route; [done| |done].
      intros w p w1 Hsome. destruct (Hkey w) as (? & Hnone).
      by rewrite Hsome in Hnone. }
    intros _. apply resolver_route; [done| |done].
    intros w p w1 Hsome. destruct (Hprofile w) as (? & Hnone).
    by rewrite Hsome in Hnone.
Qed.

(** X10. A project without an owner, built by nobody: when the manifest
    names no owner and no user is signed in, the experience is named
    [@undefined/<slug>], and [prepareCredentials] runs exactly as it does
    for the same project owned by a user called [undefined]. *)
Theorem prepareCredentials_undefined_username w :
  getUsernameAsync this = None →
  experienceName this = "@undefined/" +:+ manifest_slug (manifest this)
  ∧ prepareCredentials this w
    = prepareCredentials (with_owner "undefined" this) w.
Proof.
  intros Hnobody. split.
  - unfold experienceName. by rewrite Hnobody.
  - unfold prepareCredentials. rewrite Hnobody. reflexivity.
Qed.
End Routes.

(** All three artifacts are given on the command line: they are adopted
    and no view is run. Nothing is given: nothing is adopted. *)
Lemma produceCredentials_routes_witness :
  let o :=
    mkOptions None None None None None None None None None None
      [("dist-p12-path", "dist.p12"); ("push-p8-path", "push.p8");
       ("provisioning-profile-path", "app.mobileprovision")] in
  let app := SpecModel.mkAppRef "@acme/app" "com.acme.app" in
  let cert := SpecModel.mkArtifact "dist.p12" None in
  events
    (@produceCredentials SpecModel.collaborators (Inputs.builder_with o)
       "@acme/app" "com.acme.app" Inputs.empty_world)
  = [EvUseDistCertFromParams app cert;
     EvUsePushKeyFromParams app (SpecModel.mkArtifact "push.p8" None);
     EvUseProvisioningProfileFromParams app None "app.mobileprovision" cert]
  ∧ Forall (λ ev, is_manager_view ev = false)
      (events
         (@produceCredentials SpecModel.collaborators (Inputs.builder_with o)
            "@acme/app" "com.acme.app" Inputs.empty_world))
  ∧ Forall (λ ev, is_adoption ev = false)
      (events
         (@produceCredentials SpecModel.collaborators
            (Inputs.builder_with Inputs.no_options)
            "@acme/app" "com.acme.app" Inputs.empty_world)).
Proof.
  intros o app cert. split; [reflexivity|]. split.
  - apply (proj1 (@produceCredentials_routes SpecModel.collaborators
                    (Inputs.builder_with o) "@acme/app" "com.acme.app"));
      intros w; eexists _, _; reflexivity.
  - apply (proj2 (@produceCredentials_routes SpecModel.collaborators
                    (Inputs.builder_with Inputs.no_options) "@acme/app"
                    "com.acme.app"));
      intros w; eexists; reflexivity.
Defined.

(** A manifest without an owner and no signed-in user. *)
Lemma prepareCredentials_undefined_username_witness :
  let this :=
    mkBuilder Inputs.no_options
      (mkManifest None "app" (Some (mkIosConfig (Some "com.acme.app"))))
      "/projects/app" None in
  experienceName this = "@undefined/app"
  ∧ @prepareCredentials SpecModel.collaborators this Inputs.empty_world
    = @prepareCredentials SpecModel.collaborators
        (with_owner "undefined" this) Inputs.empty_world.
Proof.
  intros this.
  exact (@prepareCredentials_undefined_username SpecModel.collaborators this
           Inputs.empty_world eq_refl).
Defined.

(** * Properties of the build *)

Lemma split_at_head {A} (x : A) (l : list A) : x :: l = [] ++ x :: l.
Proof. done. Qed.

Lemma split_after_cons {A} (x : A) (l pre rest : list A) :
  l = pre ++ rest → x :: l = (x :: pre) ++ rest.
Proof. by intros ->. Qed.

Lemma split_after_app {A} (t l pre rest : list A) :
  l = pre ++ rest → t ++ l = (t ++ pre) ++ rest.
Proof. intros ->. by rewrite app_assoc. Qed.

(** Properties of the calls of a run, piece by piece. *)
Ltac run_events :=
  repeat first
    [ apply Forall_nil_2
    | apply Forall_cons; split; [done|]
    | apply Forall_app; split
    | apply Forall_fmap, Forall_true; done
    | eapply Forall_impl; [eassumption|]; intros [] ?; done ].

Ltac run_elem :=
  repeat first
    [ by apply list_elem_of_here
    | apply list_elem_of_further
    | apply elem_of_app; right ].

Ltac run_split :=
  rewrite ?app_nil_r;
  repeat first
    [ apply split_at_head | apply split_after_cons | apply split_after_app ].

Section Run.
Context `{BuildCollaborators}.
Variable this : Builder.
Variable o : BuildOptions.
Implicit Types (w : World) (type : string).

Lemma Forall_as_builder (P : BuildEvent → Prop) (t : list Event) :
  Forall (λ ev, P (EvBuilder ev)) t → Forall P (EvBuilder <$> t).
Proof. by rewrite Forall_fmap. Qed.

(** The warning is made of log lines. *)
Lemma maybeWarnDamagedSimulator_run (type : option string) w :
  ∃ t, maybeWarnDamagedSimulator type w = (Return tt, w, t)
       ∧ Forall (λ ev, is_warning ev = true) t
       ∧ (type ≠ Some "simulator" → t = []).
Proof.
  unfold maybeWarnDamagedSimulator. case_match eqn:Hwarn.
  - eexists. split; [reflexivity|]. split; [by repeat constructor|].
    intros Htype. apply andb_true_iff in Hwarn as [_ Hwarn].
    by apply bool_decide_eq_true in Hwarn.
  - exists []. by split_and!.
Qed.

(** X11. A build that is not an archive never enters the credential
    phase: when the build type asked for is not [archive], the only calls
    [run] makes on behalf of the builder are the lines of the warning about
    damaged simulator builds. No credential is read, cleared or produced,
    and nobody is authenticated. *)
Theorem run_credentials_only_for_archive w type w1 :
  askBuildType (opt_type o) build_types w = (Return type, w1) →
  type ≠ "archive" →
  Forall (λ ev, match ev with
                | EvBuilder _ => is_warning ev = true
                | _ => True
                end)
    (events (run this o w)).
Proof.
  intros Hask Htype.
  assert (Hwarning : ∀ w',
            Forall (λ ev, match ev with
                          | EvBuilder _ => is_warning ev = true
                          | _ => True
                          end)
              (events (maybeWarnDamagedSimulator (Some type) w'))).
  { intros w'.
    destruct (maybeWarnDamagedSimulator_run (Some type) w')
      as (t & -> & Ht & _).
    eapply Forall_impl; [exact Ht|]. intros ev Hev. by destruct ev. }
  unfold run, ensureProjectIsPublished, invoke. fold build_types.
  rewrite bind_run. cbv [bind emit step] in Hask |- *. rewrite Hask.
  rewrite (bool_decide_eq_false_2 _ Htype).
  pose proof (Hwarning w1) as Hfirst.
  destruct (maybeWarnDamagedSimulator (Some type) w1) as [[[[]|?] w2] t2];
    unfold events in *; simpl in *.
  2: { by constructor. }
  destruct (checkForBuildInProgress type w2) as [[[]|?] w3]; simpl.
  2: { constructor; [done|]. rewrite Forall_app. by repeat constructor. }
  assert (Hlast : ∀ w', Forall (λ ev, match ev with
                                      | EvBuilder _ => is_warning ev = true
                                      | _ => True
                                      end)
                          (maybeWarnDamagedSimulator (Some type) w').2).
  { intros w'. apply Hwarning. }
  unfold ret.
  repeat case_match; simplify_eq/=;
    repeat first [ apply Forall_nil_2 | apply Forall_cons; split; [done|]
                 | apply Forall_app; split | done ];
    try (match goal with
         | Hrun : maybeWarnDamagedSimulator (Some type) ?w' = _ |- _ =>
             pose proof (Hlast w') as Hev; rewrite Hrun in Hev; exact Hev
         end).
Qed.

(** X12. A failure of the credential phase prevents the build: when an
    archive is asked for and [prepareCredentials] throws, [run] throws that
    error in the world the credential phase left. The project is not
    published, the status of the build service is not checked, and [build]
    is not called. *)
Theorem run_credentials_failure_prevents_build w w1 w2 w3 t err :
  askBuildType (opt_type o) build_types w = (Return "archive", w1) →
  checkForBuildInProgress "archive" w1 = (Return tt, w2) →
  prepareCredentials this w2 = (Throw err, w3, t) →
  run this o w
  = (Throw err, w3,
     [EvAskBuildType (opt_type o) build_types; EvAddNewLineIfNone;
      EvCheckForBuildInProgress] ++ (EvBuilder <$> t)).
Proof.
  intros Hask Hcheck Hprepare.
  unfold run, invoke, as_builder. fold build_types.
  cbv [bind emit step ret]. rewrite Hask.
  destruct (maybeWarnDamagedSimulator_run (Some "archive") w1)
    as (t1 & -> & _ & Ht1).
  rewrite Ht1 by done. simpl. rewrite Hcheck. simpl.
  by rewrite Hprepare.
Qed.

(** How a run of [run] ends: without a call of [build], and then with an
    error; or with one call of [build], for the build type asked for,
    followed by nothing but the warning. *)
Lemma run_shape w :
  let r := run this o w in
  (∃ err,
     outcome r = Throw err
     ∧ Forall (λ ev, is_build ev = false) (events r)
     ∧ (is_Some (truthy_string (opt_publicUrl o)) →
        Forall (λ ev, is_publication ev = false) (events r)))
  ∨ (∃ pre type publishedExpIds warning,
       events r = pre ++ EvBuild type publishedExpIds :: warning
       ∧ Forall (λ ev, is_build ev = false) pre
       ∧ Forall (λ ev, is_warning ev = true) warning
       ∧ (∃ w1, askBuildType (opt_type o) build_types w = (Return type, w1))
       ∧ (outcome r = Return tt
          ∨ (∃ err, outcome r = Throw err) ∧ warning = [])
       ∧ match truthy_string (opt_publicUrl o) with
         | Some _ =>
             publishedExpIds = None
             ∧ Forall (λ ev, is_publication ev = false) pre
         | None =>
             (∃ ids, publishedExpIds = Some ids)
             ∧ EvEnsureReleaseExists ∈ pre
             ∧ EvCheckStatusBeforeBuild ∈ pre
         end).
Proof.
  intros r. subst r.
  unfold run, ensureProjectIsPublished, invoke, as_builder.
  fold build_types.
  generalize (prepareCredentials this). intros credentials.
  cbv [bind emit step ret outcome events fst snd].
  destruct (askBuildType (opt_type o) build_types w) as [[type|err] w1]
    eqn:Hask.
  2: { left. eexists. split; [done|]. by repeat constructor. }
  destruct (maybeWarnDamagedSimulator_run (Some type) w1)
    as (t1 & -> & Ht1 & _). simpl.
  destruct (checkForBuildInProgress type w1) as [[[]|err] w2]; simpl;
    [destruct (bool_decide (type = "archive"));
     [destruct (credentials w2) as [[[[]|err] w3] tc]|]|];
    simpl;
    destruct (truthy_string (opt_publicUrl o)) as [url|] eqn:Hurl; simpl;
    repeat match goal with
      | |- context [ensureReleaseExists type ?w'] =>
          destruct (ensureReleaseExists type w') as [[?|?] ?]; simpl
      | |- context [checkStatusBeforeBuild type ?w'] =>
          destruct (checkStatusBeforeBuild type w') as [[[]|?] ?]; simpl
      | |- context [build type ?ids ?w'] =>
          destruct (build type ids w') as [[[]|?] ?]; simpl
      | |- context [maybeWarnDamagedSimulator (Some type) ?w'] =>
          destruct (maybeWarnDamagedSimulator_run (Some type) w')
            as (? & -> & ? & _); simpl
      end;
    first
      [ left; eexists; split; [reflexivity|];
        split; [|first [intros [? [=]] | intros _]]; solve [run_events]
      | right; eexists _, type, _, _;
        split; [solve [run_split]|];
        split; [solve [run_events]|]; split; [solve [run_events]|];
        split; [eauto|];
        split; [first [by left | right; split; [eauto|reflexivity]]|];
        first [ split; [reflexivity|solve [run_events]]
              | split; [eauto|split; solve [run_elem]] ] ].
Qed.

(** X13. Publishing and [publicUrl]. With a [publicUrl] the project is
    neither published nor is the status of the build service checked, and
    [build] is given no published ids. Without one, a call of [build] is
    given the ids of the release, and the project has been published and
    the status checked before it. *)
Theorem run_published_unless_public w :
  let t := events (run this o w) in
  (is_Some (truthy_string (opt_publicUrl o)) →
   Forall (λ ev, is_publication ev = false
                 ∧ (is_build ev = true → built_with ev = Some None)) t)
  ∧ (truthy_string (opt_publicUrl o) = None →
     ∀ ev, ev ∈ t → is_build ev = true →
       (∃ ids, built_with ev = Some (Some ids))
       ∧ ∃ pre post,
           t = pre ++ ev :: post
           ∧ EvEnsureReleaseExists ∈ pre ∧ EvCheckStatusBeforeBuild ∈ pre).
Proof.
  intros t. subst t.
  assert (Hwarning : ∀ ev, is_warning ev = true →
            is_build ev = false ∧ is_publication ev = false).
  { intros ev. by destruct ev. }
  destruct (run_shape w)
    as [(err & _ & Hbuild & Hpublic)
       |(pre & type & ids & warning & -> & Hpre & Hwarn & _ & _ & Hurl)].
  - split.
    + intros Hsome. specialize (Hpublic Hsome).
      rewrite Forall_forall in Hbuild, Hpublic |- *.
      intros ev Hev. split; [by apply Hpublic|].
      intros Hb. by rewrite (Hbuild ev Hev) in Hb.
    + intros _ ev Hev Hb. rewrite Forall_forall in Hbuild.
      by rewrite (Hbuild ev Hev) in Hb.
  - split.
    + intros [url Hsome]. rewrite Hsome in Hurl. destruct Hurl as [-> Hpub].
      apply Forall_app. split; [|constructor; [done|]].
      * rewrite Forall_forall in Hpre, Hpub |- *.
        intros ev Hev. split; [by apply Hpub|].
        intros Hb. by rewrite (Hpre ev Hev) in Hb.
      * eapply Forall_impl; [exact Hwarn|]. intros ev Hev.
        destruct (Hwarning ev Hev) as [Hb ?]. split; [done|].
        by rewrite Hb.
    + intros Hnone ev Hev Hb. rewrite Hnone in Hurl.
      destruct Hurl as ([i ->] & Hensure & Hstatus).
      apply elem_of_app in Hev as [Hev|Hev].
      { rewrite Forall_forall in Hpre. by rewrite (Hpre ev Hev) in Hb. }
      apply elem_of_cons in Hev as [->|Hev]; [by eauto 10|].
      rewrite Forall_forall in Hwarn.
      destruct (Hwarning ev (Hwarn ev Hev)) as [Hnb _].
      by rewrite Hnb in Hb.
Qed.

(** X14. [build] is the last thing a run does, once: the calls of a run
    are calls other than [build], then possibly one call of [build] for the
    build type that was asked for, then only lines of the warning about
    damaged simulator builds. A run that returns has called [build]; a run
    in which [build] throws shows no warning after it. *)
Theorem run_builds_once_at_the_end w :
  let r := run this o w in
  (∃ pre post,
     events r = pre ++ post
     ∧ Forall (λ ev, is_build ev = false) pre
     ∧ (post = [] ∧ (∃ err, outcome r = Throw err)
        ∨ ∃ type publishedExpIds warning w1,
            post = EvBuild type publishedExpIds :: warning
            ∧ Forall (λ ev, is_warning ev = true) warning
            ∧ askBuildType (opt_type o) build_types w = (Return type, w1)
            ∧ (outcome r = Return tt
               ∨ (∃ err, outcome r = Throw err) ∧ warning = [])))
  ∧ (length (filter (λ ev, is_build ev = true) (events r)) ≤ 1)%nat
  ∧ (outcome r = Return tt →
     length (filter (λ ev, is_build ev = true) (events r)) = 1).
Proof.
  intros r. subst r.
  assert (Hnone : ∀ t : list BuildEvent,
            Forall (λ ev, is_build ev = false) t →
            filter (λ ev, is_build ev = true) t = []).
  { induction 1 as [|ev t Hev _ IH]; [done|].
    rewrite filter_cons, IH. case_decide; congruence. }
  assert (Hwarning : ∀ t : list BuildEvent,
            Forall (λ ev, is_warning ev = true) t →
            Forall (λ ev, is_build ev = false) t).
  { intros t Ht. eapply Forall_impl; [exact Ht|]. intros ev. by destruct ev. }
  destruct (run_shape w)
    as [(err & Herr & Hbuild & _)
       |(pre & type & ids & warning & Hev & Hpre & Hwarn & [w1 Hask]
         & Hout & _)].
  - split; [|split].
    + exists (events (run this o w)), []. rewrite app_nil_r. eauto 10.
    + rewrite (Hnone _ Hbuild). simpl. lia.
    + intros Hreturn. by rewrite Hreturn in Herr.
  - assert (Hcount :
      length (filter (λ ev, is_build ev = true) (events (run this o w))) = 1).
    { rewrite Hev, filter_app, filter_cons, (Hnone _ Hpre),
        (Hnone _ (Hwarning _ Hwarn)). by case_decide. }
    split; [|split; [lia|done]].
    exists pre, (EvBuild type ids :: warning). eauto 15.
Qed.
End Run.

(** A simulator build on macOS 10.15: the warning is shown before and
    after the build, the project is published, and no credential is
    touched. *)
Lemma run_credentials_only_for_archive_witness :
  let o := mkBuildOptions (Some "simulator") None in
  let this := Inputs.builder_with Inputs.no_options in
  let t :=
    events
      (@run SpecModel.collaborators (BuildService.service BuildService.no_icons)
         this o Inputs.empty_world) in
  Forall (λ ev, match ev with
                | EvBuilder _ => is_warning ev = true
                | _ => True
                end) t
  ∧ length t = 12.
Proof.
  intros o this t. split; [|reflexivity].
  apply (@run_credentials_only_for_archive SpecModel.collaborators
           (BuildService.service BuildService.no_icons) this o
           Inputs.empty_world "simulator" Inputs.empty_world eq_refl).
  discriminate.
Defined.

(** An archive for which the authentication of the gate is refused: the
    build stops there. *)
Lemma run_credentials_failure_prevents_build_witness :
  let o := mkBuildOptions None None in
  let options :=
    mkOptions (Some "dev@acme.example") None None None None None None None
      None None [] in
  let w :=
    SpecModel.mkWorld ∅ None [] [] [SpecModel.Authenticate] false in
  @run SpecModel.collaborators (BuildService.service BuildService.no_icons)
    (Inputs.builder_with options) o w
  = (Throw (mkException JsError (Some "AUTH") "Authentication failed"), w,
     [EvAskBuildType None build_types; EvAddNewLineIfNone;
      EvCheckForBuildInProgress]
     ++ (EvBuilder <$> [EvEnsureAppleCtx options])).
Proof.
  intros o options w.
  exact (@run_credentials_failure_prevents_build SpecModel.collaborators
           (BuildService.service BuildService.no_icons)
           (Inputs.builder_with options) o w w w w _ _
           eq_refl eq_refl eq_refl).
Defined.

(** A simulator build of a project served from a public URL, and the same
    build without one. *)
Lemma run_published_unless_public_witness :
  let public := mkBuildOptions (Some "simulator") (Some "https://acme.example/app") in
  let unpublished := mkBuildOptions (Some "simulator") None in
  let this := Inputs.builder_with Inputs.no_options in
  let run_with o :=
    @run SpecModel.collaborators (BuildService.service BuildService.no_icons)
      this o Inputs.empty_world in
  Forall (λ ev, is_publication ev = false
                ∧ (is_build ev = true → built_with ev = Some None))
    (events (run_with public))
  ∧ ∃ pre post,
      events (run_with unpublished)
      = pre
        ++ @EvBuild SpecModel.collaborators
             (BuildService.service BuildService.no_icons) "simulator"
             (Some ["release-1"])
           :: post
      ∧ EvEnsureReleaseExists ∈ pre ∧ EvCheckStatusBeforeBuild ∈ pre.
Proof.
  intros public unpublished this run_with.
  pose proof (@run_published_unless_public SpecModel.collaborators
                (BuildService.service BuildService.no_icons) this public
                Inputs.empty_world) as [Hpublic _].
  pose proof (@run_published_unless_public SpecModel.collaborators
                (BuildService.service BuildService.no_icons) this unpublished
                Inputs.empty_world) as [_ Hunpublished].
  split; [apply Hpublic; by eexists|].
  destruct (Hunpublished eq_refl
              (@EvBuild SpecModel.collaborators
                 (BuildService.service BuildService.no_icons) "simulator"
                 (Some ["release-1"])))
    as (_ & pre & post & Hrun & Hpre); [|reflexivity|by eauto].
  subst run_with. simpl. do 8 apply list_elem_of_further.
  apply list_elem_of_here.
Defined.

(** A simulator build that goes through: [build] is called once. *)
Lemma run_builds_once_at_the_end_witness :
  let o := mkBuildOptions (Some "simulator") None in
  let this := Inputs.builder_with Inputs.no_options in
  let r :=
    @run SpecModel.collaborators (BuildService.service BuildService.no_icons)
      this o Inputs.empty_world in
  outcome r = Return tt
  ∧ length (filter (λ ev, is_build ev = true) (events r)) = 1.
Proof.
  intros o this r. split; [reflexivity|].
  apply (@run_builds_once_at_the_end SpecModel.collaborators
           (BuildService.service BuildService.no_icons) this o).
  reflexivity.
Defined.

(** ** The project checks and the Apple session *)

Section ProjectChecks.
Context `{BuildCollaborators}.
Implicit Types (w : World).

(** X15. [validateIcon] lets only an [XDLError] through. The icon is the
    one of the [ios] section, or else the one of the manifest; without an
    icon, or with an empty one, nothing is checked, so an empty icon in the
    [ios] section switches the check off even when the manifest has an
    icon. With an icon the transparency check is the only call; if it
    throws an [XDLError], that error is thrown on; if it throws anything
    else, [validateIcon] returns as if the icon were fine, in the world the
    check left. *)
Theorem validateIcon_only_rethrows_XDLError w :
  let r := validateIcon w in
  (∀ err, outcome r = Throw err → exn_class err = XDLError)
  ∧ (icon_of (manifest_icons w) = None → r = (Return tt, w, []))
  ∧ (manifest_ios_icon (manifest_icons w) = Some "" →
     r = (Return tt, w, []))
  ∧ (∀ icon,
       icon_of (manifest_icons w) = Some icon →
       events r = [EvEnsurePNGIsNotTransparent icon]
       ∧ ∀ err w1,
           ensurePNGIsNotTransparent icon w = (Throw err, w1) →
           final r = w1
           ∧ outcome r
             = match exn_class err with
               | XDLError => Throw err
               | _ => Return tt
               end).
Proof.
  intros r. subst r.
  cbv [validateIcon try_catch bind gets invoke emit step ret throw outcome
       final events fst snd].
  fold (icon_of (manifest_icons w)).
  split_and!.
  - intros err. destruct (icon_of (manifest_icons w)) as [icon|]; [|done].
    destruct (ensurePNGIsNotTransparent icon w) as [[[]|err'] w1]; [done|].
    simpl. destruct (exn_class err') eqn:Hclass; simpl; try done.
    by intros [= <-].
  - by intros ->.
  - intros Hempty. unfold icon_of. by rewrite Hempty.
  - intros icon ->.
    destruct (ensurePNGIsNotTransparent icon w) as [[[]|err'] w1] eqn:Hcheck;
      simpl.
    + done.
    + split; [by destruct (exn_class err')|].
      intros err w2 [= <- <-]. by destruct (exn_class err').
Qed.

(** X16. The order of the project checks: the inherited checks, the SDK
    version (read from the manifest after the inherited checks, and checked
    for iOS), the icon, the bundle identifier, and only then the update of
    the configuration. Each is made at most once, a check that throws ends
    the sequence, and a run that returns has made them all; the icon alone
    may be left unchecked. *)
Theorem checkProjectConfig_order (this : Builder) w :
  ∃ checked,
    let sdkVersion := manifest_sdkVersion (super_checkProjectConfig w).2 in
    let all :=
      [EvSuperCheckProjectConfig;
       EvCheckIfSdkIsSupported sdkVersion PLATFORMS_IOS]
      ++ checked
      ++ [EvGetOrPromptForBundleIdentifier (projectDir this);
          EvUpdateProjectConfig] in
    (checked = [] ∨ ∃ icon, checked = [EvEnsurePNGIsNotTransparent icon])
    ∧ events (checkProjectConfig this w) `prefix_of` all
    ∧ (outcome (checkProjectConfig this w) = Return tt →
       events (checkProjectConfig this w) = all).
Proof.
  cbv [checkProjectConfig validateIcon try_catch bind gets invoke emit step
       ret throw outcome events fst snd].
  destruct (super_checkProjectConfig w) as [[[]|?] w1]; simpl.
  2: { exists []. split_and!; [by left|by eexists|done]. }
  destruct (checkIfSdkIsSupported _ _ w1) as [[[]|?] w2]; simpl.
  2: { exists []. split_and!; [by left|by eexists|done]. }
  destruct (truthy_string _) as [icon|]; simpl.
  - exists [EvEnsurePNGIsNotTransparent icon].
    destruct (ensurePNGIsNotTransparent icon w2) as [[[]|err] w3]; simpl.
    2: destruct (exn_class err); simpl.
    all: try (split_and!; [by eauto|by eexists|done]).
    all: destruct (getOrPromptForBundleIdentifier _ _) as [[?|?] w4]; simpl;
      try (split_and!; [by eauto|by eexists|done]).
    all: destruct (updateProjectConfig w4) as [[[]|?] w5]; simpl;
      split_and!; eauto; by eexists.
  - exists [].
    destruct (getOrPromptForBundleIdentifier _ _) as [[?|?] w4]; simpl;
      try (split_and!; [by eauto|by eexists|done]).
    destruct (updateProjectConfig w4) as [[[]|?] w5]; simpl;
      split_and!; eauto; by eexists.
Qed.

(** X17. A transparency check that fails for another reason than
    transparency does not stop the project checks: when the inherited
    checks and the SDK check pass and the check of the icon throws an error
    that is no [XDLError], the bundle identifier is still asked for, in the
    world the failed check left; when it throws an [XDLError], the checks
    end with that error and no bundle identifier is asked for. *)
Theorem checkProjectConfig_icon_failure (this : Builder) w w1 w2 w3 icon err :
  super_checkProjectConfig w = (Return tt, w1) →
  checkIfSdkIsSupported (manifest_sdkVersion w1) PLATFORMS_IOS w1
  = (Return tt, w2) →
  icon_of (manifest_icons w2) = Some icon →
  ensurePNGIsNotTransparent icon w2 = (Throw err, w3) →
  let checks :=
    [EvSuperCheckProjectConfig;
     EvCheckIfSdkIsSupported (manifest_sdkVersion w1) PLATFORMS_IOS;
     EvEnsurePNGIsNotTransparent icon] in
  match exn_class err with
  | XDLError => checkProjectConfig this w = (Throw err, w3, checks)
  | _ =>
      checkProjectConfig this w
      = (let '(r, w4, t) :=
           (invoke (EvGetOrPromptForBundleIdentifier (projectDir this))
              (getOrPromptForBundleIdentifier (projectDir this)) ;;
            invoke EvUpdateProjectConfig updateProjectConfig)%eff w3 in
         (r, w4, checks ++ t))
  end.
Proof.
  intros Hsuper Hsdk Hicon Hcheck checks. subst checks.
  cbv [checkProjectConfig validateIcon try_catch bind gets invoke emit step
       ret throw fst snd].
  rewrite Hsuper. simpl. rewrite Hsdk. simpl.
  fold (icon_of (manifest_icons w2)). rewrite Hicon, Hcheck. simpl.
  destruct (exn_class err); simpl; [|done|].
  all: destruct (getOrPromptForBundleIdentifier (projectDir this) w3)
    as [[name|?] w4]; simpl; [|done].
  all: by destruct (updateProjectConfig w4) as [[[]|?] w5].
Qed.
End ProjectChecks.

(** A project whose [ios] section has an empty icon beside a transparent
    manifest icon: nothing is checked. A transparent icon is refused; an
    icon that cannot be read is let through. *)
Lemma validateIcon_only_rethrows_XDLError_witness :
  let check icons :=
    @validateIcon SpecModel.collaborators (BuildService.service icons)
      Inputs.empty_world in
  check (mkIcons (Some "") (Some "transparent.png"))
  = (Return tt, Inputs.empty_world, [])
  ∧ check BuildService.no_icons = (Return tt, Inputs.empty_world, [])
  ∧ exn_class
      (mkException XDLError (Some "INVALID_ASSETS")
         "Your application icon can't have transparency")
    = XDLError
  ∧ outcome (check (mkIcons None (Some "missing.png"))) = Return tt
  ∧ events (check (mkIcons None (Some "missing.png")))
    = [EvEnsurePNGIsNotTransparent "missing.png"].
Proof.
  intros check.
  pose proof (@validateIcon_only_rethrows_XDLError SpecModel.collaborators
                (BuildService.service (mkIcons (Some "") (Some "transparent.png")))
                Inputs.empty_world) as (_ & _ & Hempty & _).
  pose proof (@validateIcon_only_rethrows_XDLError SpecModel.collaborators
                (BuildService.service BuildService.no_icons)
                Inputs.empty_world) as (_ & Hnone & _).
  pose proof (@validateIcon_only_rethrows_XDLError SpecModel.collaborators
                (BuildService.service (mkIcons None (Some "transparent.png")))
                Inputs.empty_world) as (Hxdl & _).
  pose proof (@validateIcon_only_rethrows_XDLError SpecModel.collaborators
                (BuildService.service (mkIcons None (Some "missing.png")))
                Inputs.empty_world) as (_ & _ & _ & Hmissing).
  destruct (Hmissing "missing.png" eq_refl) as [Hevents Hthrows].
  split; [exact (Hempty eq_refl)|]. split; [exact (Hnone eq_refl)|].
  split; [exact (Hxdl _ eq_refl)|].
  split; [exact (proj2 (Hthrows _ _ eq_refl))|exact Hevents].
Defined.

(** With an icon that cannot be read the bundle identifier is asked for
    and the configuration updated; with a transparent icon the checks end
    at the icon. *)
Lemma checkProjectConfig_icon_failure_witness :
  let this := Inputs.builder_with Inputs.no_options in
  let check icons :=
    @checkProjectConfig SpecModel.collaborators (BuildService.service icons)
      this Inputs.empty_world in
  check (mkIcons None (Some "missing.png"))
  = (Return tt, Inputs.empty_world,
     [EvSuperCheckProjectConfig;
      EvCheckIfSdkIsSupported (Some "38.0.0") "ios";
      EvEnsurePNGIsNotTransparent "missing.png"]
     ++ [EvGetOrPromptForBundleIdentifier "/projects/app";
         EvUpdateProjectConfig])
  ∧ check (mkIcons (Some "transparent.png") None)
    = (Throw (mkException XDLError (Some "INVALID_ASSETS")
                "Your application icon can't have transparency"),
       Inputs.empty_world,
       [EvSuperCheckProjectConfig;
        EvCheckIfSdkIsSupported (Some "38.0.0") "ios";
        EvEnsurePNGIsNotTransparent "transparent.png"]).
Proof.
  intros this check. split.
  - exact (@checkProjectConfig_icon_failure SpecModel.collaborators
             (BuildService.service (mkIcons None (Some "missing.png"))) this
             Inputs.empty_world Inputs.empty_world Inputs.empty_world
             Inputs.empty_world "missing.png" _
             eq_refl eq_refl eq_refl eq_refl).
  - exact (@checkProjectConfig_icon_failure SpecModel.collaborators
             (BuildService.service (mkIcons (Some "transparent.png") None))
             this Inputs.empty_world Inputs.empty_world Inputs.empty_world
             Inputs.empty_world "transparent.png" _
             eq_refl eq_refl eq_refl eq_refl).
Defined.

Section AppleSession.
Context `{BuildCollaborators}.
Variable this : Builder.
Implicit Types (s : BuilderState).

(** X18. [getAppleCtx] authenticates at most once. With a session in
    [this.appleCtx] it returns that session and calls nothing. Otherwise it
    sets the Apple API up and authenticates with the options of the
    builder; the session it returns is then kept, and a second call returns
    it again without any call. A failure is not remembered: when the set-up
    or the authentication throws, [this.appleCtx] is still unset, so the
    next call will authenticate anew. *)
Theorem getAppleCtx_authenticates_once s :
  let r := getAppleCtx this s in
  (∀ session, appleCtx s = Some session → r = (Return session, s, []))
  ∧ (∀ session,
       outcome r = Return session →
       appleCtx (final r) = Some session
       ∧ getAppleCtx this (final r) = (Return session, final r, []))
  ∧ (∀ err,
       outcome r = Throw err →
       appleCtx s = None ∧ appleCtx (final r) = None)
  ∧ (events r = [] ∧ is_Some (appleCtx s)
     ∨ events r = [EvAppleSetup]
       ∧ (∃ err w1, apple_setup (world s) = (Throw err, w1))
     ∨ events r = [EvAppleSetup; EvAppleAuthenticate (options this)]).
Proof.
  intros r. subst r.
  assert (Hcached : ∀ s' session,
            appleCtx s' = Some session →
            getAppleCtx this s' = (Return session, s', [])).
  { intros s' session Hs'.
    cbv [getAppleCtx bind gets ret]. by rewrite Hs'. }
  split; [exact (Hcached s)|].
  cbv [getAppleCtx on_world bind gets emit step ret outcome final events
       fst snd].
  destruct (appleCtx s) as [cached|] eqn:Hs; simpl.
  { split_and!.
    - intros session [= <-]. split; [done|]. by apply Hcached.
    - done.
    - left. by eauto. }
  destruct (apple_setup (world s)) as [[[]|err] w1] eqn:Hsetup; simpl.
  2: { split_and!; [done|by intros ? _|]. right. left. eauto. }
  destruct (apple_authenticate (options this) w1)
    as [[session|err] w2] eqn:Hauth; simpl.
  2: { split_and!; [done|by intros ? _|]. by do 2 right. }
  split_and!.
  - by intros ? [= <-].
  - done.
  - by do 2 right.
Qed.
End AppleSession.

(** The first call authenticates the operator given on the command line;
    the second call answers from [this.appleCtx]. When the authentication
    is refused, nothing is remembered. *)
Lemma getAppleCtx_authenticates_once_witness :
  let o :=
    mkOptions (Some "dev@acme.example") None None None None None None None
      None None [] in
  let this := Inputs.builder_with o in
  let get :=
    @getAppleCtx SpecModel.collaborators
      (BuildService.service BuildService.no_icons) this in
  let s := {| world := Inputs.empty_world; appleCtx := None |} in
  let refusing :=
    {| world :=
         SpecModel.mkWorld ∅ None [] [] [SpecModel.Authenticate] false;
       appleCtx := None |} in
  (events (get s) = [EvAppleSetup; EvAppleAuthenticate o]
   ∧ appleCtx (final (get s)) = Some "dev@acme.example"
   ∧ get (final (get s)) = (Return "dev@acme.example", final (get s), []))
  ∧ appleCtx (final (get refusing)) = None.
Proof.
  intros o this get s refusing.
  pose proof (@getAppleCtx_authenticates_once SpecModel.collaborators
                (BuildService.service BuildService.no_icons) this s)
    as (_ & Hkept & _).
  pose proof (@getAppleCtx_authenticates_once SpecModel.collaborators
                (BuildService.service BuildService.no_icons) this refusing)
    as (_ & _ & Hfailed & _).
  split.
  - split; [reflexivity|]. exact (Hkept "dev@acme.example" eq_refl).
  - exact (proj2 (Hfailed _ eq_refl)).
Defined.

(** * Further properties of the Podfile tooling *)

Section Substitutions.
Import IosPodsTools.
Context `{Platform}.
Implicit Types (o : JsObject) (key k : string) (fs : FileSystem).

(** A computation that only reads, followed by another one. *)
Lemma bind_quiet {S E A B} (m : M S E A) (k : A → M S E B) (s : S) :
  quiet m →
  bind m k s
  = match outcome (m s) with
    | Return a => k a s
    | Throw err => (Throw err, s, [])
    end.
Proof.
  intros Hm. destruct (Hm s) as [Hs Ht]. rewrite bind_run.
  unfold outcome, final, events in *.
  destruct (m s) as [[[a|err] s1] t1]; simpl in *; subst; [|done].
  by destruct (k a s) as [[??]?].
Qed.

Lemma _renderPodDependenciesAsync_quiet dependenciesConfigPath isPodfile :
  quiet (_renderPodDependenciesAsync dependenciesConfigPath isPodfile).
Proof.
  unfold _renderPodDependenciesAsync.
  apply quiet_bind; [apply quiet_read|]. intros dependencies.
  apply quiet_ret.
Qed.

Lemma _renderVersionedReactNativeDependenciesAsync_quiet templatesDirectory
    versionedReactNativePath expoSubspecs shellAppSdkVersion :
  quiet (_renderVersionedReactNativeDependenciesAsync templatesDirectory
           versionedReactNativePath expoSubspecs shellAppSdkVersion).
Proof.
  unfold _renderVersionedReactNativeDependenciesAsync.
  repeat first
    [ apply _concatTemplateFilesInDirectoryAsync_quiet
    | apply quiet_ret | apply quiet_lift
    | apply quiet_bind; [|intros ?] ].
Qed.

Lemma _renderVersionedReactNativePostinstallsAsync_quiet templatesDirectory
    shellAppSdkVersion :
  quiet (_renderVersionedReactNativePostinstallsAsync templatesDirectory
           shellAppSdkVersion).
Proof.
  unfold _renderVersionedReactNativePostinstallsAsync.
  apply quiet_bind; [apply quiet_lift|]. intros directory.
  apply _concatTemplateFilesInDirectoryAsync_quiet.
Qed.

(** The entries [renderPodfileAsync] computes itself are the texts of
    their renderers. *)
Lemma renderPodfileAsync_substitutions_entries pathToTemplate
    moreSubstitutions shellAppSdkVersion sdkVersion fs templateString
    substitutions :
  outcome
    (renderPodfileAsync_substitutions pathToTemplate (Some moreSubstitutions)
       shellAppSdkVersion sdkVersion fs)
  = Return (templateString, substitutions) →
  ∃ literal : JsObject,
    substitutions = spread literal moreSubstitutions
    ∧ fs !! pathToTemplate = Some templateString
    ∧ ∀ k, k ∈ computedKeys →
        ∃ text,
          computed_entry pathToTemplate moreSubstitutions shellAppSdkVersion
            sdkVersion fs k
          = Return text
          ∧ obj_get literal k = VString text.
Proof.
  unfold renderPodfileAsync_substitutions. cbv zeta.
  rewrite bind_quiet by apply fs_readFile_quiet.
  destruct (outcome (fs_readFile pathToTemplate fs)) as [template|]
    eqn:Htemplate; [|done].
  rewrite bind_quiet
    by apply _renderVersionedReactNativeDependenciesAsync_quiet.
  destruct (outcome (_renderVersionedReactNativeDependenciesAsync _ _ _ _ fs))
    as [versionedDependencies|] eqn:Hdependencies; [|done].
  rewrite bind_quiet
    by apply _renderVersionedReactNativePostinstallsAsync_quiet.
  destruct (outcome (_renderVersionedReactNativePostinstallsAsync _ _ fs))
    as [versionedPostinstalls|] eqn:Hpostinstalls; [|done].
  rewrite bind_quiet by apply quiet_lift.
  destruct (path_join _) as [dependenciesConfigPath|] eqn:Hpath; [|done].
  cbn [outcome lift fst].
  rewrite bind_quiet by apply _renderPodDependenciesAsync_quiet.
  destruct (outcome (_renderPodDependenciesAsync _ true fs))
    as [podDependencies|] eqn:Hpods; [|done].
  rewrite bind_quiet by apply quiet_lift.
  destruct (_renderExpoKitDependency _ _) as [expoKitDependency|] eqn:HexpoKit;
    [|done].
  cbn [outcome lift fst].
  rewrite bind_quiet by apply quiet_lift.
  destruct (_renderUnversionedUniversalModulesDependencies _ _ _)
    as [expoModulesDependencies|] eqn:Hmodules; [|done].
  cbn [outcome lift fst].
  rewrite bind_quiet by apply quiet_lift.
  destruct (_renderUnversionedReactNativeDependency _ _) as [rnDependency|]
    eqn:Hrn; [|done].
  cbn [outcome lift fst].
  rewrite bind_quiet by apply quiet_lift.
  destruct (_renderUnversionedPostinstall _) as [unversionedPostinstall|]
    eqn:Hunversioned; [|done].
  cbn [outcome lift fst].
  rewrite bind_quiet by apply quiet_lift.
  destruct (_renderDetachedPostinstall _ false) as [detachedPostinstall|]
    eqn:Hdetached; [|done].
  cbn [outcome lift fst].
  rewrite bind_quiet by apply quiet_lift.
  destruct (_renderDetachedPostinstall _ true)
    as [detachedServicePostinstall|] eqn:Hservice; [|done].
  cbn [outcome lift fst ret default].
  intros [= <- <-]. eexists. split; [reflexivity|]. split.
  { unfold outcome, fs_readFile in Htemplate.
    destruct (fs !! pathToTemplate); by simplify_eq/=. }
  intros k. unfold computedKeys. rewrite !elem_of_cons, elem_of_nil.
  intros [->|[->|[->|[->|[->|[->|[->|[->|[->|[->|[]]]]]]]]]]];
    eexists; (split; [|rewrite !obj_get_cons; simpl; reflexivity]);
    unfold computed_entry; cbv zeta.
  - cbn [default]. rewrite Hpath. exact Hpods.
  - exact HexpoKit.
  - exact Hmodules.
  - exact Hrn.
  - exact Hunversioned.
  - exact Hdetached.
  - exact Hservice.
  - exact Hdependencies.
  - exact Hpostinstalls.
  - reflexivity.
Qed.

(** The objects the validation accepts, when it is the inherited
    [hasOwnProperty] that answers, or no one. *)
Lemma _validatePodfileSubstitutions_accepts_iff o :
  (∀ f, obj_get o "hasOwnProperty" ≠ VFunction f) →
  (∀ k, k ∈ o.*1 → k ∈ validKeys)
  ↔ _validatePodfileSubstitutions o = Return true.
Proof.
  intros Hvalue.
  assert (Hshadow : "hasOwnProperty" ∉ validKeys).
  { apply (bool_decide_unpack _). exact I. }
  assert (Hkeys : o = [] ∨ own_keys o ≠ []).
  { destruct o as [|[k v] o]; [by left|]. right. intros Hnil.
    assert (Hk : k ∈ own_keys ((k, v) :: o)).
    { apply elem_of_own_keys. simpl. apply list_elem_of_here. }
    rewrite Hnil in Hk. by apply elem_of_nil in Hk. }
  unfold _validatePodfileSubstitutions.
  destruct (decide ("hasOwnProperty" ∈ o.*1)) as [Hown|Hown].
  - destruct Hkeys as [->|Hkeys]; [by apply elem_of_nil in Hown|].
    rewrite validate_keys_shadowed by done.
    split; [|done]. intros Hvalid. destruct Hshadow. by apply Hvalid.
  - rewrite validate_keys_find by done.
    destruct (list_find _ (own_keys o)) as [[i key]|] eqn:Hfind.
    + apply list_find_Some in Hfind as (Hlookup & Hkey & _).
      split; [|done]. intros Hvalid. destruct Hkey.
      apply Hvalid, elem_of_own_keys. by eapply list_elem_of_lookup_2.
    + rewrite list_find_None, Forall_forall in Hfind.
      split; [done|]. intros _ k Hk.
      apply elem_of_own_keys, Hfind in Hk.
      by apply dec_stable in Hk.
Qed.

(** The validation has no other result than [true]. *)
Lemma validate_keys_true (substitutions : JsObject) (keys : list string) :
  validate_keys substitutions keys ≠ Return false.
Proof.
  induction keys as [|key keys IH]; [done|]. simpl.
  destruct (hasOwnProperty substitutions key) as [own|]; [|done]. simpl.
  by case_match.
Qed.

(** X19. What [_validatePodfileSubstitutions] accepts. When the inherited
    [hasOwnProperty] answers, or an entry of that name that is no function
    stands in its way, the validation returns [true] exactly for the
    objects all of whose keys are recognized. When the entry of that name
    is a function that answers no for every key, it returns [true] whatever
    the keys are. Its only result is [true]: it never returns [false]. And
    every key [renderPodfileAsync] computes itself is a recognized one. *)
Theorem _validatePodfileSubstitutions_accepts o :
  ((∀ f, obj_get o "hasOwnProperty" ≠ VFunction f) →
   (∀ k, k ∈ o.*1 → k ∈ validKeys)
   ↔ _validatePodfileSubstitutions o = Return true)
  ∧ (∀ f, obj_get o "hasOwnProperty" = VFunction f →
          (∀ k, k ∈ o.*1 → fn_called f k = Return false) →
          _validatePodfileSubstitutions o = Return true)
  ∧ _validatePodfileSubstitutions o ≠ Return false
  ∧ computedKeys ⊆ validKeys.
Proof.
  split; [apply _validatePodfileSubstitutions_accepts_iff|].
  split.
  { intros f Hf Hno. unfold _validatePodfileSubstitutions.
    apply (validate_keys_unchecked _ _ _ Hf), Forall_forall.
    intros k Hk. by apply Hno, elem_of_own_keys. }
  split; [apply validate_keys_true|].
  apply (bool_decide_unpack _). exact I.
Qed.




(** X22. The caller has the last word on every substitution: in the
    substitutions [renderPodfileAsync] builds, a key the caller supplies
    has the caller's value, also when it is a key the function computes
    itself; a computed key the caller does not supply has the text its
    renderer gives for the caller's options, the SDK version and the
    template files; and for a shell app the test target is empty unless
    the caller supplies it. *)
Theorem renderPodfileAsync_substitutions_caller_wins pathToTemplate
    moreSubstitutions shellAppSdkVersion sdkVersion fs templateString
    substitutions :
  outcome
    (renderPodfileAsync_substitutions pathToTemplate (Some moreSubstitutions)
       shellAppSdkVersion sdkVersion fs)
  = Return (templateString, substitutions) →
  (∀ k, k ∈ moreSubstitutions.*1 →
        obj_get substitutions k = obj_get moreSubstitutions k)
  ∧ (∀ k, k ∈ computedKeys → k ∉ moreSubstitutions.*1 →
          ∃ text,
            computed_entry pathToTemplate moreSubstitutions shellAppSdkVersion
              sdkVersion fs k
            = Return text
            ∧ obj_get substitutions k = VString text)
  ∧ (is_Some (truthy_string shellAppSdkVersion) →
     "PODFILE_TEST_TARGET" ∉ moreSubstitutions.*1 →
     obj_get substitutions "PODFILE_TEST_TARGET" = VString "").
Proof.
  intros Hprepared.
  destruct (renderPodfileAsync_substitutions_entries pathToTemplate
              moreSubstitutions shellAppSdkVersion sdkVersion fs _ _
              Hprepared)
    as (literal & -> & _ & Hentries).
  split_and!.
  - intros k Hk. by rewrite obj_get_spread, bool_decide_eq_true_2.
  - intros k Hk Hmore. rewrite obj_get_spread, bool_decide_eq_false_2 by done.
    by apply Hentries.
  - intros Hshell Hmore.
    rewrite obj_get_spread, bool_decide_eq_false_2 by done.
    destruct (Hentries "PODFILE_TEST_TARGET") as (text & Htext & ->).
    { apply (bool_decide_unpack _). exact I. }
    unfold computed_entry in Htext. cbv zeta in Htext.
    rewrite bool_decide_eq_true_2 in Htext by done. by injection Htext as <-.
Qed.
End Substitutions.

(** An object with a recognized key passes, one with another key does
    not; with a function [hasOwnProperty] that answers no, any key
    passes. *)
Lemma _validatePodfileSubstitutions_accepts_witness :
  let never :=
    IosPodsTools.mkCallable "() => false" (λ _, Return false)
      (λ _ subject, Return subject) in
  IosPodsTools._validatePodfileSubstitutions
    [("TARGET_NAME", IosPodsTools.VString "Acme")]
  = Return true
  ∧ IosPodsTools._validatePodfileSubstitutions
      [("BOGUS", IosPodsTools.VString "x")]
    ≠ Return true
  ∧ IosPodsTools._validatePodfileSubstitutions
      [("BOGUS", IosPodsTools.VString "x");
       ("hasOwnProperty", IosPodsTools.VFunction never)]
    = Return true.
Proof.
  intros never. split; [|split].
  - apply (proj1 (_validatePodfileSubstitutions_accepts
                    [("TARGET_NAME", IosPodsTools.VString "Acme")]));
      [discriminate|].
    intros k Hk. apply list_elem_of_singleton in Hk. subst k.
    apply (bool_decide_unpack _). exact I.
  - intros Haccepted.
    apply (proj1 (_validatePodfileSubstitutions_accepts
                    [("BOGUS", IosPodsTools.VString "x")]))
      with (k := "BOGUS") in Haccepted; [|discriminate|apply list_elem_of_here].
    revert Haccepted. apply (bool_decide_unpack _). exact I.
  - apply (proj1 (proj2 (_validatePodfileSubstitutions_accepts
                           [("BOGUS", IosPodsTools.VString "x");
                            ("hasOwnProperty", IosPodsTools.VFunction never)]))
             never eq_refl).
    by intros k _.
Defined.


(** A shell app whose caller supplies its own test target, and one whose
    caller does not: the other entries hold the renderers' texts. *)
Lemma renderPodfileAsync_substitutions_caller_wins_witness :
  let prepare more :=
    outcome
      (@IosPodsTools.renderPodfileAsync_substitutions NodePlatform.platform
         "template-files/ios/Podfile" (Some more) (Some "35.0.0") None
         NodePlatform.project) in
  (∃ templateString substitutions,
     prepare [("PODFILE_TEST_TARGET", IosPodsTools.VString "target 'Mine'")]
     = Return (templateString, substitutions)
     ∧ IosPodsTools.obj_get substitutions "PODFILE_TEST_TARGET"
       = IosPodsTools.VString "target 'Mine'"
     ∧ ∃ text,
         @IosPodsTools._renderUnversionedPostinstall NodePlatform.platform
           "UNVERSIONED"
         = Return text
         ∧ IosPodsTools.obj_get substitutions "PODFILE_UNVERSIONED_POSTINSTALL"
           = IosPodsTools.VString text)
  ∧ (∃ templateString substitutions,
       prepare [("TARGET_NAME", IosPodsTools.VString "Acme")]
       = Return (templateString, substitutions)
       ∧ IosPodsTools.obj_get substitutions "PODFILE_TEST_TARGET"
         = IosPodsTools.VString "").
Proof.
  intros prepare. split.
  - eexists _, _. split; [reflexivity|].
    destruct (@renderPodfileAsync_substitutions_caller_wins
                NodePlatform.platform "template-files/ios/Podfile"
                [("PODFILE_TEST_TARGET", IosPodsTools.VString "target 'Mine'")]
                (Some "35.0.0") None NodePlatform.project _ _ eq_refl)
      as (Hcaller & Hcomputed & _).
    split.
    + apply Hcaller. apply list_elem_of_here.
    + exact (Hcomputed "PODFILE_UNVERSIONED_POSTINSTALL"
               ltac:(apply (bool_decide_unpack _); exact I)
               ltac:(apply (bool_decide_unpack _); exact I)).
  - eexists _, _. split; [reflexivity|].
    destruct (@renderPodfileAsync_substitutions_caller_wins
                NodePlatform.platform "template-files/ios/Podfile"
                [("TARGET_NAME", IosPodsTools.VString "Acme")]
                (Some "35.0.0") None NodePlatform.project _ _ eq_refl)
      as (_ & _ & Htest).
    apply Htest; [by eexists|].
    apply (bool_decide_unpack _). exact I.
Defined.
(** ** The renderers *)

Section Rendering.
Import IosPodsTools.
Context `{Platform}.
Implicit Types (fs : FileSystem).

Lemma returns_lift_fails {S E A B} (P : B → Prop) (o : Outcome A)
    (k : A → M S E B) :
  (∀ a, o ≠ Return a) → returns P (bind (lift o) k).
Proof.
  intros Ho s b. rewrite bind_run. unfold lift, outcome. simpl.
  destruct o as [a|err]; [by destruct (Ho a)|done].
Qed.

(** X23. Below SDK 36 a Podfile cannot be rendered without
    [REACT_NATIVE_PATH]. From SDK 36 on, the unversioned React Native
    dependency is the autolinking snippet whatever the options are, and it
    never fails; below, without a path to React Native, rendering it throws
    [Unsupported options for RN dependency]. So a call of
    [renderPodfileAsync] for an SDK below 36 whose caller gives no
    [REACT_NATIVE_PATH] (or a falsy one) always throws, and writes
    nothing. *)
Theorem renderPodfileAsync_needs_reactNativePath :
  (∀ options options' sdkVersion n,
     parseSdkMajorVersion sdkVersion = Return n → num_ge n 36 = true →
     _renderUnversionedReactNativeDependency options sdkVersion
     = _renderUnversionedReactNativeDependency options' sdkVersion
     ∧ ∃ s, _renderUnversionedReactNativeDependency options sdkVersion
            = Return s)
  ∧ (∀ options sdkVersion n,
       parseSdkMajorVersion sdkVersion = Return n → num_ge n 36 = false →
       truthy_value (reactNativePath options) = false →
       _renderUnversionedReactNativeDependency options sdkVersion
       = Throw (mkException JsError None
                  "Unsupported options for RN dependency: [object Object]"))
  ∧ (∀ pathToTemplate pathToOutput moreSubstitutions shellAppSdkVersion
       sdkVersion fs,
       (∀ n, parseSdkMajorVersion (default "UNVERSIONED" sdkVersion)
             = Return n → num_ge n 36 = false) →
       truthy_value
         (obj_get (default [] moreSubstitutions) "REACT_NATIVE_PATH")
       = false →
       ∃ err,
         renderPodfileAsync pathToTemplate pathToOutput moreSubstitutions
           shellAppSdkVersion sdkVersion fs
         = (Throw err, fs, [])).
Proof.
  split_and!.
  - intros options options' sdkVersion n Hparse Hnew.
    unfold _renderUnversionedReactNativeDependency.
    rewrite Hparse. simpl. rewrite Hnew. eauto.
  - intros options sdkVersion n Hparse Hold Hpath.
    unfold _renderUnversionedReactNativeDependency,
      _renderUnversionedReactDependency.
    rewrite Hparse. simpl. by rewrite Hold, Hpath.
  - intros pathToTemplate pathToOutput moreSubstitutions shellAppSdkVersion
      sdkVersion fs Hold Hpath.
    rewrite renderPodfileAsync_run.
    assert (Hfails :
      returns (λ _, False)
        (renderPodfileAsync_substitutions pathToTemplate moreSubstitutions
           shellAppSdkVersion sdkVersion)).
    { unfold renderPodfileAsync_substitutions.
      do 7 (apply returns_bind; intros ?).
      apply returns_lift_fails. intros s. cbv zeta. rewrite Hpath.
      unfold _renderUnversionedReactNativeDependency,
        _renderUnversionedReactDependency.
      destruct (parseSdkMajorVersion _) as [n|err]; [|done].
      simpl. by rewrite (Hold n eq_refl). }
    specialize (Hfails fs).
    destruct (outcome _) as [prepared|err]; [|by eauto].
    by destruct (Hfails prepared).
Qed.
End Rendering.

(** SDK 35 without a path to React Native: nothing is written. *)
Lemma renderPodfileAsync_needs_reactNativePath_witness :
  let more : IosPodsTools.JsObject :=
    [("TARGET_NAME", IosPodsTools.VString "Acme")] in
  ∃ err,
    @IosPodsTools.renderPodfileAsync NodePlatform.platform
      "template-files/ios/Podfile" "ios/Podfile" (Some more) None
      (Some "35.0.0") NodePlatform.project
    = (Throw err, NodePlatform.project, []).
Proof.
  intros more.
  pose proof (@renderPodfileAsync_needs_reactNativePath NodePlatform.platform)
    as (_ & _ & Hcall).
  apply Hcall; [|reflexivity].
  intros n Hn. compute in Hn. injection Hn as <-. reflexivity.
Defined.

Section Templates.
Import IosPodsTools.
Context `{Platform}.
Implicit Types (fs : FileSystem) (filenames : list string).

(** The loop over the template files, when they can all be read. *)
Lemma read_templates_run filenames templateStrings fs :
  Forall (λ filename, is_Some (fs !! filename)) filenames →
  read_templates filenames templateStrings fs
  = (Return (templateStrings
             ++ filter (λ s, s ≠ "") (omap (λ filename, fs !! filename)
                                        filenames)),
     fs, []).
Proof.
  intros Hpresent. revert templateStrings.
  induction Hpresent as [|filename filenames [data Hdata] _ IH];
    intros templateStrings; cbn [read_templates omap list_omap].
  { unfold ret. by rewrite filter_nil, app_nil_r. }
  cbv [bind fs_readFile]. rewrite Hdata. rewrite filter_cons.
  case_bool_decide as Hempty; rewrite IH; simpl.
  - by rewrite decide_False by (by intros []).
  - rewrite decide_True by done. by rewrite <- app_assoc.
Qed.

(** The loop stops at the first file that cannot be read. *)
Lemma read_templates_missing before missing after templateStrings fs :
  Forall (λ filename, is_Some (fs !! filename)) before →
  fs !! missing = None →
  read_templates (before ++ missing :: after) templateStrings fs
  = (Throw (ENOENT missing), fs, []).
Proof.
  intros Hpresent Hmissing. revert templateStrings.
  induction Hpresent as [|filename filenames [data Hdata] _ IH];
    intros templateStrings; cbn [read_templates app].
  { cbv [bind fs_readFile]. by rewrite Hmissing. }
  cbv [bind fs_readFile]. rewrite Hdata.
  case_bool_decide; by rewrite IH.
Qed.

(** [_concatTemplateFilesInDirectoryAsync] as the loop over the files
    it finds. *)
Lemma _concatTemplateFilesInDirectoryAsync_run directory filterFn fs pattern
    found :
  path_join [VString directory; VString "*.rb"] = Return pattern →
  glob pattern fs = Return found →
  let filenames :=
    match filterFn with
    | Some filterFn => List.filter filterFn (array_sort found)
    | None => array_sort found
    end in
  _concatTemplateFilesInDirectoryAsync directory filterFn fs
  = let '(read, fs', t) := read_templates filenames [] fs in
    (match read with
     | Return templateStrings => Return (String.concat "
" templateStrings)
     | Throw err => Throw err
     end, fs', t).
Proof.
  intros Hpattern Hfound filenames.
  unfold _concatTemplateFilesInDirectoryAsync. rewrite Hpattern.
  cbv [bind lift step ret]. rewrite Hfound. fold filenames.
  destruct (read_templates filenames [] fs) as [[[l|err] fs'] t]; simpl;
    by rewrite ?app_nil_r.
Qed.

(** X24. What [_concatTemplateFilesInDirectoryAsync] gives: the files
    [directory/*.rb] are taken in sorted order, those the filter rejects
    are left out, and the contents of the others are joined by line breaks,
    empty templates being skipped. The files are only read. If one of them
    cannot be read, the call throws the error of the first such file. *)
Theorem _concatTemplateFilesInDirectoryAsync_result directory filterFn fs
    pattern found :
  path_join [VString directory; VString "*.rb"] = Return pattern →
  glob pattern fs = Return found →
  let filenames :=
    match filterFn with
    | Some filterFn => List.filter filterFn (array_sort found)
    | None => array_sort found
    end in
  let r := _concatTemplateFilesInDirectoryAsync directory filterFn fs in
  (Forall (λ filename, is_Some (fs !! filename)) filenames →
   r = (Return
          (String.concat "
" (filter (λ s, s ≠ "") (omap (λ filename, fs !! filename) filenames))),
        fs, []))
  ∧ (∀ before missing after,
       filenames = before ++ missing :: after →
       Forall (λ filename, is_Some (fs !! filename)) before →
       fs !! missing = None →
       r = (Throw (ENOENT missing), fs, [])).
Proof.
  intros Hpattern Hfound filenames r. subst r.
  pose proof (_concatTemplateFilesInDirectoryAsync_run directory filterFn fs
                pattern found Hpattern Hfound) as Hrun.
  fold filenames in Hrun.
  rewrite Hrun. split.
  - intros Hpresent. by rewrite read_templates_run.
  - intros before missing after Hsplit Hpresent Hmissing.
    by rewrite Hsplit, read_templates_missing.
Qed.

(** X25. A shell app built from unversioned code gets no versioned
    templates: when [shellAppSdkVersion] is [UNVERSIONED], in whatever
    case, the filter rejects every template, and the versioned
    post-installs are the empty string, no template file being read, not
    even looked up. Without a shell app version there is no filter. *)
Theorem createSdkFilterFn_unversioned sdkVersion :
  sdkVersion ≠ "" → toUpperCase sdkVersion = "UNVERSIONED" →
  createSdkFilterFn None = None
  ∧ (∃ filterFn,
       createSdkFilterFn (Some sdkVersion) = Some filterFn
       ∧ ∀ filename, filterFn filename = false)
  ∧ ∀ templatesDirectory fs directory pattern found,
      path_join [VString templatesDirectory; VString "versioned-react-native";
                 VString "postinstalls"]
      = Return directory →
      path_join [VString directory; VString "*.rb"] = Return pattern →
      glob pattern fs = Return found →
      _renderVersionedReactNativePostinstallsAsync templatesDirectory
        (Some sdkVersion) fs
      = (Return "", fs, []).
Proof.
  intros Hnonempty Hupper.
  assert (Hfilter : createSdkFilterFn (Some sdkVersion) = Some (λ _, false)).
  { unfold createSdkFilterFn.
    by rewrite (bool_decide_eq_false_2 _ Hnonempty),
      (bool_decide_eq_true_2 _ Hupper). }
  split; [done|]. split; [by eauto|].
  intros templatesDirectory fs directory pattern found Hdirectory Hpattern
    Hfound.
  unfold _renderVersionedReactNativePostinstallsAsync.
  rewrite Hfilter, Hdirectory.
  rewrite bind_run. unfold lift at 1.
  pose proof (_concatTemplateFilesInDirectoryAsync_run directory
                (Some (λ _, false)) fs pattern found Hpattern Hfound)
    as Hrun.
  assert (Hnone : ∀ filenames : list string,
            List.filter (λ _ : string, false) filenames = []).
  { induction filenames as [|filename filenames IH]; [done|exact IH]. }
  simpl in Hrun. rewrite Hnone in Hrun. by rewrite Hrun.
Qed.
End Templates.

(** Three templates, the second one empty: the other two are joined. *)
Lemma _concatTemplateFilesInDirectoryAsync_result_witness :
  let fs : IosPodsTools.FileSystem :=
    {[ "templates/a.rb" := "pod 'A'"; "templates/b.rb" := "";
       "templates/c.rb" := "pod 'C'" ]} in
  @IosPodsTools._concatTemplateFilesInDirectoryAsync NodePlatform.platform
    "templates" None fs
  = (Return "pod 'A'
pod 'C'", fs, []).
Proof.
  intros fs.
  destruct (@_concatTemplateFilesInDirectoryAsync_result NodePlatform.platform
              "templates" None fs _ _ eq_refl eq_refl) as [Hrun _].
  apply Hrun. vm_compute. repeat constructor; by eexists.
Defined.

(** A shell app for [unversioned]: the post-install template of SDK 35 is
    not read. *)
Lemma createSdkFilterFn_unversioned_witness :
  let fs : IosPodsTools.FileSystem :=
    {[ "template-files/ios/versioned-react-native/postinstalls/ReactABI35_0_0.rb"
       := "post_install" ]} in
  @IosPodsTools._renderVersionedReactNativePostinstallsAsync
    NodePlatform.platform "template-files/ios" (Some "unversioned") fs
  = (Return "", fs, [])
  ∧ outcome
      (@IosPodsTools._renderVersionedReactNativePostinstallsAsync
         NodePlatform.platform "template-files/ios" (Some "35.0.0") fs)
    = Return "post_install".
Proof.
  intros fs. split; [|reflexivity].
  destruct (@createSdkFilterFn_unversioned NodePlatform.platform "unversioned")
    as (_ & _ & Hrun); [discriminate|reflexivity|].
  exact (Hrun "template-files/ios" fs _ _ _ eq_refl eq_refl eq_refl).
Defined.

Section Podspec.
Import IosPodsTools ExpoKitPodspec.
Context `{Platform}.
Implicit Types (fs : FileSystem).

(** X26. The dependencies of a podspec ignore [otherPodfileFlags]: for a
    podspec ([isPodfile: false]) two dependency files that differ in those
    flags only are rendered to the same text, each dependency on a line
    [ss.dependency] of its own; and a dependency file that does not hold an
    array is rendered to the empty string, for a Podfile as for a
    podspec. *)
Theorem _renderPodDependenciesAsync_podspec dependenciesConfigPath :
  (∀ fs fs' dependencies dependencies',
     JsonFile_readAsync dependenciesConfigPath fs
     = Return (Some dependencies) →
     JsonFile_readAsync dependenciesConfigPath fs'
     = Return (Some dependencies') →
     without_flags <$> dependencies = without_flags <$> dependencies' →
     outcome (_renderPodDependenciesAsync dependenciesConfigPath false fs)
     = outcome (_renderPodDependenciesAsync dependenciesConfigPath false fs'))
  ∧ (∀ fs isPodfile,
       JsonFile_readAsync dependenciesConfigPath fs = Return None →
       _renderPodDependenciesAsync dependenciesConfigPath isPodfile fs
       = (Return "", fs, [])).
Proof.
  split.
  - intros fs fs' dependencies dependencies' Hread Hread' Hsame.
    cbv [_renderPodDependenciesAsync bind step ret outcome fst].
    rewrite Hread, Hread'. simpl. do 2 f_equal.
    set (line := λ dependency : Dependency,
           (match dep_comments dependency with
            | Some comments =>
                String.concat "
" (map (λ commentLine, "  # " +:+ commentLine) comments) +:+ "
"
            | None => ""
            end) +:+ "  ss.dependency '" +:+ dep_name dependency +:+ "', '"
           +:+ dep_version dependency +:+ "'").
    transitivity (map line (without_flags <$> dependencies)).
    { rewrite <- list_fmap_compose. apply map_ext. by intros []. }
    rewrite Hsame, <- list_fmap_compose. apply map_ext. by intros [].
  - intros fs isPodfile Hread.
    cbv [_renderPodDependenciesAsync bind step ret]. by rewrite Hread.
Qed.


(** X28. From SDK 33 on, the unimodules are installed by the autolinking
    script, and the list of universal modules is not looked at: whatever it
    is, also when it is no list at all, the text is the same. Below SDK 33
    every module of the list gets a pod of its own, and a value that is not
    a list makes the rendering throw. *)
Theorem _renderUnversionedUniversalModulesDependencies_unimodules
    universalModulesPath sdkVersion n :
  parseSdkMajorVersion sdkVersion = Return n →
  (num_ge n 33 = true →
   ∀ universalModules universalModules',
     _renderUnversionedUniversalModulesDependencies universalModules
       universalModulesPath sdkVersion
     = _renderUnversionedUniversalModulesDependencies universalModules'
         universalModulesPath sdkVersion
     ∧ ∃ s, _renderUnversionedUniversalModulesDependencies universalModules
              universalModulesPath sdkVersion
            = Return s)
  ∧ (num_ge n 33 = false →
     (∀ modules,
        _renderUnversionedUniversalModulesDependencies (VModules modules)
          universalModulesPath sdkVersion
        = Return
            (indentString
               (String.concat "
" (map (λ moduleInfo,
                        _renderUnversionedUniversalModuleDependency
                          (podName moduleInfo) (module_path moduleInfo))
                     modules)) 2))
     ∧ ∀ universalModules,
         (∀ modules, universalModules ≠ VModules modules) →
         (∀ strings, universalModules ≠ VStrings strings) →
         _renderUnversionedUniversalModulesDependencies universalModules
           universalModulesPath sdkVersion
         = Throw (mkException JsError None
                    "universalModules.map is not a function")).
Proof.
  intros Hparse. unfold _renderUnversionedUniversalModulesDependencies.
  rewrite Hparse. simpl. split.
  - intros ->. eauto.
  - intros ->. split; [done|].
    intros universalModules Hmodules Hstrings.
    destruct universalModules as [| | |strings|modules|f]; try done.
    + by destruct (Hstrings strings).
    + by destruct (Hmodules modules).
Qed.
End Podspec.

(** The same dependency with and without Podfile flags: one podspec line;
    and a file that holds no array. *)
Lemma _renderPodDependenciesAsync_podspec_witness :
  let render (data : string) :=
    @IosPodsTools._renderPodDependenciesAsync DependencyFiles.platform
      "dependencies.json" false {[ "dependencies.json" := data ]} in
  outcome (render "flagged") = outcome (render "plain")
  ∧ outcome (render "plain")
    = Return "  # Analytics
  ss.dependency 'Amplitude-iOS', '~> 4.7'"
  ∧ outcome (render "{}") = Return "".
Proof.
  intros render.
  pose proof (@_renderPodDependenciesAsync_podspec DependencyFiles.platform
                "dependencies.json") as [Hflags Hnone].
  split; [|split; [reflexivity|]].
  - exact (Hflags {[ "dependencies.json" := "flagged" ]}
             {[ "dependencies.json" := "plain" ]} _ _ eq_refl eq_refl eq_refl).
  - exact (f_equal outcome
             (Hnone {[ "dependencies.json" := "{}" ]} false eq_refl)).
Defined.


(** SDK 36: a list of modules, or a string where the list should be, give
    the same text. SDK 32: the string is refused. *)
Lemma _renderUnversionedUniversalModulesDependencies_unimodules_witness :
  let render universalModules sdkVersion :=
    @IosPodsTools._renderUnversionedUniversalModulesDependencies
      NodePlatform.platform universalModules
      (IosPodsTools.VString "../node_modules") sdkVersion in
  render (IosPodsTools.VString "expo-camera") "36.0.0"
  = render (IosPodsTools.VModules []) "36.0.0"
  ∧ render (IosPodsTools.VString "expo-camera") "32.0.0"
    = Throw (mkException JsError None "universalModules.map is not a function").
Proof.
  intros render.
  pose proof (@_renderUnversionedUniversalModulesDependencies_unimodules
                NodePlatform.platform (IosPodsTools.VString "../node_modules")
                "36.0.0" _ eq_refl) as [Hnew _].
  pose proof (@_renderUnversionedUniversalModulesDependencies_unimodules
                NodePlatform.platform (IosPodsTools.VString "../node_modules")
                "32.0.0" _ eq_refl) as [_ Hold].
  split.
  - exact (proj1 (Hnew eq_refl _ _)).
  - destruct (Hold eq_refl) as [_ Hthrows].
    exact (Hthrows (IosPodsTools.VString "expo-camera")
             ltac:(discriminate) ltac:(discriminate)).
Defined.
